(** * External-process invocation and background-job lifecycle

    A shallow embedding of [src/mcp/codex-core.ts] and
    [src/mcp/gemini-core.ts]: the output decoder, the process executors,
    the background job supervisors, the fallback chain and the two request
    handlers, followed by the properties the specification states about
    them. *)

From Stdlib Require Import List ZArith NArith Bool Ascii String Lia DecimalString.
Import ListNotations.

Set Implicit Arguments.

(** ** JavaScript strings and the built-ins the sources call *)

Module JS.

(** A JavaScript string is a sequence of UTF-16 code units. *)
Definition jsstring := list N.

(** The code units of an ASCII literal of the sources. *)
Fixpoint u (s : string) : jsstring :=
  match s with
  | EmptyString => []
  | String a r => N_of_ascii a :: u r
  end.

Definition LF : N := 10%N.

Fixpoint str_eqb (a b : jsstring) : bool :=
  match a, b with
  | [], [] => true
  | x :: a', y :: b' => N.eqb x y && str_eqb a' b'
  | _, _ => false
  end.

(** [WhiteSpace] and [LineTerminator] of ECMAScript, the code units that
    [String.prototype.trim] and [parseInt] strip. *)
Definition isStrWhiteSpace (c : N) : bool :=
  existsb (N.eqb c)
    [9; 10; 11; 12; 13; 32; 160; 5760; 8232; 8233; 8239; 8287; 12288; 65279]%N
  || ((8192 <=? c) && (c <=? 8202))%N.

Fixpoint dropWhile (p : N -> bool) (s : jsstring) : jsstring :=
  match s with
  | [] => []
  | c :: r => if p c then dropWhile p r else s
  end.

Fixpoint takeWhile (p : N -> bool) (s : jsstring) : jsstring :=
  match s with
  | [] => []
  | c :: r => if p c then c :: takeWhile p r else []
  end.

Definition trimStart (s : jsstring) : jsstring := dropWhile isStrWhiteSpace s.
Definition trimEnd (s : jsstring) : jsstring :=
  rev (dropWhile isStrWhiteSpace (rev s)).

(** [s.trim()] *)
Definition trim (s : jsstring) : jsstring := trimEnd (trimStart s).

(** A string is truthy when it is not empty. *)
Definition truthy_str (s : jsstring) : bool :=
  match s with [] => false | _ :: _ => true end.

(** [s.split(sep)] for a separator of one code unit. *)
Fixpoint split (sep : N) (s : jsstring) : list jsstring :=
  match s with
  | [] => [[]]
  | c :: r =>
      if N.eqb c sep then [] :: split sep r
      else match split sep r with
           | [] => [[c]]
           | h :: t => (c :: h) :: t
           end
  end.

(** [l.join(sep)] on an array of strings. *)
Fixpoint join (sep : jsstring) (l : list jsstring) : jsstring :=
  match l with
  | [] => []
  | [x] => x
  | x :: r => x ++ sep ++ join sep r
  end.

(** The decimal text of an integer, as a template literal prints it. *)
Definition ofZ (z : Z) : jsstring := u (NilZero.string_of_int (Z.to_int z)).
Definition ofNat (n : nat) : jsstring := ofZ (Z.of_nat n).

Definition isDigit (c : N) : bool := ((48 <=? c) && (c <=? 57))%N.

Definition digitsValue (ds : jsstring) : Z :=
  fold_left (fun acc c => (10 * acc + (Z.of_N c - 48))%Z) ds 0%Z.

(** [parseInt(s, 10)]: leading white space is skipped, one sign is read,
    then the longest run of decimal digits; [None] stands for [NaN].
    The engine rounds the integer to a double: integers up to [2^53] are
    kept as they are, and rounding is monotone, which is all the clamp below
    depends on.  [-0] is read as [0]; both are falsy. *)
Definition parseInt10 (s : jsstring) : option Z :=
  let s1 := trimStart s in
  let '(sign, s2) :=
    match s1 with
    | 45%N :: r => ((-1)%Z, r)
    | 43%N :: r => (1%Z, r)
    | _ => (1%Z, s1)
    end in
  match takeWhile isDigit s2 with
  | [] => None
  | ds => Some (sign * digitsValue ds)%Z
  end.

End JS.
Import JS.

(** ** Process-wide configuration *)

(** What the modules read from [process.env] and [process.platform] when
    they are loaded. *)
Record ProcessEnv := {
  OMC_CODEX_DEFAULT_MODEL : option jsstring;
  OMC_CODEX_TIMEOUT : option jsstring;
  OMC_GEMINI_DEFAULT_MODEL : option jsstring;
  OMC_GEMINI_TIMEOUT : option jsstring;
  platform : jsstring
}.

(** [v || d] for an environment variable. *)
Definition orDefault (v : option jsstring) (d : jsstring) : jsstring :=
  match v with
  | Some (c :: r) => c :: r
  | _ => d
  end.

(** [Math.min(Math.max(5000, parseInt(v || '3600000', 10) || 3600000), 3600000)] *)
Definition timeoutOf (v : option jsstring) : Z :=
  let parsed :=
    match parseInt10 (orDefault v (u "3600000")) with
    | Some n => if (n =? 0)%Z then 3600000%Z else n
    | None => 3600000%Z
    end in
  Z.min (Z.max 5000 parsed) 3600000.

Definition CODEX_TIMEOUT (e : ProcessEnv) : Z := timeoutOf (OMC_CODEX_TIMEOUT e).
Definition GEMINI_TIMEOUT (e : ProcessEnv) : Z := timeoutOf (OMC_GEMINI_TIMEOUT e).

Definition CODEX_DEFAULT_MODEL (e : ProcessEnv) : jsstring :=
  orDefault (OMC_CODEX_DEFAULT_MODEL e) (u "gpt-5.2").
Definition GEMINI_DEFAULT_MODEL (e : ProcessEnv) : jsstring :=
  orDefault (OMC_GEMINI_DEFAULT_MODEL e) (u "gemini-3-pro-preview").

Definition GEMINI_MODEL_FALLBACKS : list jsstring :=
  [u "gemini-3-pro-preview"; u "gemini-3-flash-preview";
   u "gemini-2.5-pro"; u "gemini-2.5-flash"].

Definition CODEX_VALID_ROLES : list jsstring :=
  [u "architect"; u "planner"; u "critic"; u "analyst"; u "code-reviewer";
   u "security-reviewer"; u "tdd-guide"].

Definition GEMINI_VALID_ROLES : list jsstring :=
  [u "designer"; u "writer"; u "vision"].

Definition MAX_CONTEXT_FILES : nat := 20.
Definition MAX_FILE_SIZE : Z := 5 * 1024 * 1024.

(** ** JSON values and [JSON.parse] *)

Module Json.

(** What [JSON.parse] can return.  A number keeps its literal: the double it
    denotes is read through [NumberSemantics] below.  An object keeps its
    members in source order, duplicates included. *)
#[warnings="-register-all"]
Inductive value : Type :=
| Null
| Bool (b : bool)
| Number (lit : jsstring)
| Str (s : jsstring)
| Array (items : list value)
| Object (members : list (jsstring * value)).

(** The outcome of one parsing function: a syntax error, fuel exhausted, or
    a result with the input that is left. *)
Inductive parsed (A : Type) : Type :=
| Fail
| More
| Got (a : A) (rest : jsstring).
Arguments Fail {A}.
Arguments More {A}.

(** JSON white space: tab, line feed, carriage return, space. *)
Definition isJsonWs (c : N) : bool :=
  existsb (N.eqb c) [9; 10; 13; 32]%N.

Definition skipWs (s : jsstring) : jsstring := dropWhile isJsonWs s.

Definition hexDigit (c : N) : option N :=
  if ((48 <=? c) && (c <=? 57))%N then Some (c - 48)%N
  else if ((65 <=? c) && (c <=? 70))%N then Some (c - 55)%N
  else if ((97 <=? c) && (c <=? 102))%N then Some (c - 87)%N
  else None.

Definition hex4 (a b c d : N) : option N :=
  match hexDigit a, hexDigit b, hexDigit c, hexDigit d with
  | Some x, Some y, Some z, Some w => Some (((x * 16 + y) * 16 + z) * 16 + w)%N
  | _, _, _, _ => None
  end.

(** The code unit an escape of one character stands for. *)
Definition simpleEscape (e : N) : option N :=
  if (e =? 34)%N then Some 34%N
  else if (e =? 92)%N then Some 92%N
  else if (e =? 47)%N then Some 47%N
  else if (e =? 98)%N then Some 8%N
  else if (e =? 102)%N then Some 12%N
  else if (e =? 110)%N then Some 10%N
  else if (e =? 114)%N then Some 13%N
  else if (e =? 116)%N then Some 9%N
  else None.

(** The characters of a string literal after its opening quote, up to and
    including the closing quote; [acc] holds the decoded code units in
    reverse.  A backslash starts an escape of one character or of [u] and
    four hexadecimal digits; a control character ends the parse. *)
Fixpoint stringChars (s : jsstring) (acc : jsstring) : option (jsstring * jsstring) :=
  match s with
  | [] => None
  | c :: r =>
      if (c =? 34)%N then Some (rev acc, r)
      else if (c =? 92)%N then
        match r with
        | [] => None
        | e :: r' =>
            match simpleEscape e with
            | Some x => stringChars r' (x :: acc)
            | None =>
                if (e =? 117)%N then
                  match r' with
                  | h1 :: h2 :: h3 :: h4 :: r'' =>
                      match hex4 h1 h2 h3 h4 with
                      | Some n => stringChars r'' (n :: acc)
                      | None => None
                      end
                  | _ => None
                  end
                else None
            end
        end
      else if (c <? 32)%N then None
      else stringChars r (c :: acc)
  end.

(** The run of digits a fraction or an exponent needs: at least one. *)
Definition digits1 (s : jsstring) : option (jsstring * jsstring) :=
  match takeWhile isDigit s with
  | [] => None
  | ds => Some (ds, dropWhile isDigit s)
  end.

(** An optional character out of [cs] at the head of [s]. *)
Definition optionalChar (cs : list N) (s : jsstring) : jsstring * jsstring :=
  match s with
  | c :: r => if existsb (N.eqb c) cs then ([c], r) else ([], s)
  | [] => ([], s)
  end.

(** The integer part of a number: zero, or a run of digits that does not
    start with zero. *)
Definition intPart (s : jsstring) : option (jsstring * jsstring) :=
  match s with
  | c :: r =>
      if (c =? 48)%N then Some ([c], r)
      else if isDigit c then Some (c :: takeWhile isDigit r, dropWhile isDigit r)
      else None
  | [] => None
  end.

(** The optional fraction: a dot and digits. *)
Definition fracPart (s : jsstring) : option (jsstring * jsstring) :=
  match s with
  | c :: r =>
      if (c =? 46)%N then
        match digits1 r with
        | Some (ds, r') => Some (c :: ds, r')
        | None => None
        end
      else Some ([], s)
  | [] => Some ([], s)
  end.

(** The optional exponent: [e] or [E], an optional sign, digits. *)
Definition expPart (s : jsstring) : option (jsstring * jsstring) :=
  match s with
  | c :: r =>
      if (c =? 101)%N || (c =? 69)%N then
        let sr := optionalChar [43; 45]%N r in
        match digits1 (snd sr) with
        | Some (ds, r') => Some (c :: fst sr ++ ds, r')
        | None => None
        end
      else Some ([], s)
  | [] => Some ([], s)
  end.

(** A number literal: an optional minus, the integer part, the optional
    fraction, the optional exponent.  Returns the literal and the rest of
    the input. *)
Definition numberLit (s : jsstring) : option (jsstring * jsstring) :=
  let ms := optionalChar [45%N] s in
  match intPart (snd ms) with
  | None => None
  | Some (i, s2) =>
      match fracPart s2 with
      | None => None
      | Some (f, s3) =>
          match expPart s3 with
          | None => None
          | Some (x, s4) => Some (fst ms ++ i ++ f ++ x, s4)
          end
      end
  end.

(** [lit] as a prefix of [s]: the rest of [s] after it. *)
Fixpoint stripPrefix (lit s : jsstring) : option jsstring :=
  match lit, s with
  | [], _ => Some s
  | a :: lit', b :: s' => if N.eqb a b then stripPrefix lit' s' else None
  | _ :: _, [] => None
  end.

(** One JSON value, with the white space before it; the elements of an array
    after its opening bracket; the members of an object after its opening
    brace. *)
Fixpoint parseValue (fuel : nat) (s : jsstring) : parsed value :=
  match fuel with
  | O => More
  | S f =>
      match skipWs s with
      | [] => Fail
      | c :: r =>
          if (c =? 123)%N then
            match skipWs r with
            | [] => Fail
            | c' :: r' =>
                if (c' =? 125)%N then Got (Object []) r'
                else parseMembers f r []
            end
          else if (c =? 91)%N then
            match skipWs r with
            | [] => Fail
            | c' :: r' =>
                if (c' =? 93)%N then Got (Array []) r'
                else parseElements f r []
            end
          else if (c =? 34)%N then
            match stringChars r [] with
            | Some (str, r') => Got (Str str) r'
            | None => Fail
            end
          else if (c =? 116)%N then
            match stripPrefix (u "rue") r with
            | Some r' => Got (Bool true) r'
            | None => Fail
            end
          else if (c =? 102)%N then
            match stripPrefix (u "alse") r with
            | Some r' => Got (Bool false) r'
            | None => Fail
            end
          else if (c =? 110)%N then
            match stripPrefix (u "ull") r with
            | Some r' => Got Null r'
            | None => Fail
            end
          else
            match numberLit (c :: r) with
            | Some (lit, r') => Got (Number lit) r'
            | None => Fail
            end
      end
  end
with parseElements (fuel : nat) (s : jsstring) (acc : list value) : parsed value :=
  match fuel with
  | O => More
  | S f =>
      match parseValue f s with
      | Fail => Fail
      | More => More
      | Got v r =>
          match skipWs r with
          | [] => Fail
          | c :: r' =>
              if (c =? 44)%N then parseElements f r' (v :: acc)
              else if (c =? 93)%N then Got (Array (rev (v :: acc))) r'
              else Fail
          end
      end
  end
with parseMembers (fuel : nat) (s : jsstring) (acc : list (jsstring * value)) : parsed value :=
  match fuel with
  | O => More
  | S f =>
      match skipWs s with
      | [] => Fail
      | q :: r =>
          if (q =? 34)%N then
            match stringChars r [] with
            | None => Fail
            | Some (key, r1) =>
                match skipWs r1 with
                | [] => Fail
                | colon :: r2 =>
                    if (colon =? 58)%N then
                      match parseValue f r2 with
                      | Fail => Fail
                      | More => More
                      | Got v r3 =>
                          match skipWs r3 with
                          | [] => Fail
                          | c :: r4 =>
                              if (c =? 44)%N then parseMembers f r4 ((key, v) :: acc)
                              else if (c =? 125)%N then
                                Got (Object (rev ((key, v) :: acc))) r4
                              else Fail
                          end
                      end
                    else Fail
                end
            end
          else Fail
      end
  end.

(** [JSON.parse(text)]: one value, white space around it, nothing else;
    [None] stands for the [SyntaxError] it throws.  The fuel is enough for
    every input ([parseValue_fuel] below). *)
Definition JSON_parse (text : jsstring) : option value :=
  match parseValue (2 * List.length text + 1) text with
  | Got v r => match skipWs r with [] => Some v | _ :: _ => None end
  | _ => None
  end.

End Json.
Import Json.

(** ** The values the decoder handles *)

(** How a statement ends: normally, or by throwing. *)
Inductive completion (A : Type) : Type :=
| Return (a : A)
| Throw (message : jsstring).
Arguments Throw {A}.

(** The two facts about the double a JSON number literal denotes that the
    sources depend on: whether it is zero (falsy), and the text
    [Number::toString] gives it.  IEEE arithmetic is not modelled; every
    definition below is parametric in this reading. *)
Class NumberSemantics : Type := {
  NumberIsZero : jsstring -> bool;
  NumberToString : jsstring -> jsstring
}.

(** [o[k]] on the members of a parsed object: of duplicate keys the last
    one is kept. *)
Fixpoint lookup (k : jsstring) (ms : list (jsstring * value)) : option value :=
  match ms with
  | [] => None
  | (k', v) :: r =>
      match lookup k r with
      | Some w => Some w
      | None => if str_eqb k k' then Some v else None
      end
  end.

(** [x.k] for the property names the decoder reads ([type], [content],
    [text]), none of which a built-in prototype defines: [None] is
    [undefined]; reading a property of [null] throws a [TypeError]. *)
Definition getProp (x : value) (k : jsstring) : completion (option value) :=
  match x with
  | Null => Throw (u "Cannot read properties of null")
  | Object ms => Return (lookup k ms)
  | _ => Return None
  end.

(** [x === lit] for a string literal. *)
Definition strictEqStr (x : option value) (lit : jsstring) : bool :=
  match x with
  | Some (Str s) => str_eqb s lit
  | _ => false
  end.

Section Decoder.
Context {num : NumberSemantics}.

(** [ToBoolean] *)
Definition truthy (x : option value) : bool :=
  match x with
  | None => false
  | Some Null => false
  | Some (Bool b) => b
  | Some (Number lit) => negb (NumberIsZero lit)
  | Some (Str s) => truthy_str s
  | Some (Array _) => true
  | Some (Object _) => true
  end.

(** [ToString].  An array prints its elements separated by commas, [null]
    elements as the empty string.  An object prints as [[object Object]]
    unless it has a member named [toString]: that member is not callable,
    [valueOf] yields no primitive, and the conversion throws a
    [TypeError]. *)
Fixpoint toString (v : value) : completion jsstring :=
  match v with
  | Null => Return (u "null")
  | Bool true => Return (u "true")
  | Bool false => Return (u "false")
  | Number lit => Return (NumberToString lit)
  | Str s => Return s
  | Array items =>
      (fix elements (l : list value) : completion jsstring :=
         match l with
         | [] => Return []
         | x :: r =>
             match (match x with Null => Return [] | _ => toString x end) with
             | Throw e => Throw e
             | Return sx =>
                 match r with
                 | [] => Return sx
                 | _ :: _ =>
                     match elements r with
                     | Throw e => Throw e
                     | Return sr => Return (sx ++ u "," ++ sr)
                     end
                 end
             end
         end) items
  | Object ms =>
      match lookup (u "toString") ms with
      | Some _ => Throw (u "Cannot convert object to primitive value")
      | None => Return (u "[object Object]")
      end
  end.

(** [l.join(sep)] on an array of values. *)
Fixpoint arrayJoin (sep : jsstring) (l : list value) : completion jsstring :=
  match l with
  | [] => Return []
  | x :: r =>
      match (match x with Null => Return [] | _ => toString x end) with
      | Throw e => Throw e
      | Return sx =>
          match r with
          | [] => Return sx
          | _ :: _ =>
              match arrayJoin sep r with
              | Throw e => Throw e
              | Return sr => Return (sx ++ sep ++ sr)
              end
          end
      end
  end.

(** [if (c) messages.push(x)] *)
Definition pushIfTruthy (x : option value) (messages : list value) : list value :=
  match x with
  | Some v => if truthy x then messages ++ [v] else messages
  | None => messages
  end.

(** [for (const part of event.content) { if (part.type === 'text' &&
    part.text) messages.push(part.text) }]: the messages after the loop, and
    whether a part threw (a [null] part does). *)
Fixpoint forParts (parts : list value) (messages : list value) : list value * bool :=
  match parts with
  | [] => (messages, false)
  | part :: rest =>
      match getProp part (u "type") with
      | Throw _ => (messages, true)
      | Return ty =>
          if strictEqStr ty (u "text") then
            match getProp part (u "text") with
            | Throw _ => (messages, true)
            | Return tx => forParts rest (pushIfTruthy tx messages)
            end
          else forParts rest messages
      end
  end.

(** [if (event.type === 'message' && event.content) { ... }]: the messages
    after it, and whether it threw. *)
Definition onMessage (event : value) (ty : option value) (messages : list value)
    : list value * bool :=
  if strictEqStr ty (u "message") then
    match getProp event (u "content") with
    | Throw _ => (messages, true)
    | Return content =>
        if truthy content then
          match content with
          | Some (Str s) => (messages ++ [Str s], false)
          | Some (Array parts) => forParts parts messages
          | _ => (messages, false)
          end
        else (messages, false)
    end
  else (messages, false).

(** [if (event.type === 'output_text' && event.text)
    messages.push(event.text)] *)
Definition onOutputText (event : value) (ty : option value) (messages : list value)
    : list value :=
  if strictEqStr ty (u "output_text") then
    match getProp event (u "text") with
    | Throw _ => messages
    | Return tx => pushIfTruthy tx messages
    end
  else messages.

(** The body of the loop of [parseCodexOutput] for one line, [try] and
    [catch] included: what was pushed before a throw stays pushed. *)
Definition tryLine (messages : list value) (line : jsstring) : list value :=
  match JSON_parse line with
  | None => messages
  | Some event =>
      match getProp event (u "type") with
      | Throw _ => messages
      | Return ty =>
          let step := onMessage event ty messages in
          if snd step then fst step
          else onOutputText event ty (fst step)
      end
  end.

(** [output.trim().split('\n').filter(l => l.trim())] *)
Definition outputLines (output : jsstring) : list jsstring :=
  filter (fun l => truthy_str (trim l)) (split LF (trim output)).

(** The array [messages] when the loop of [parseCodexOutput] is over. *)
Definition collectMessages (output : jsstring) : list value :=
  fold_left tryLine (outputLines output) [].

(** [parseCodexOutput]: [messages.join('\n') || output]. *)
Definition parseCodexOutput (output : jsstring) : completion jsstring :=
  match arrayJoin [LF] (collectMessages output) with
  | Throw e => Throw e
  | Return joined => Return (if truthy_str joined then joined else output)
  end.

End Decoder.

(** The code units of a literal in which an apostrophe stands for a double
    quote; used to write JSON test inputs. *)
Definition uq (s : string) : jsstring :=
  map (fun c => if N.eqb c 39 then 34%N else c) (u s).

(** A reading of numbers to run concrete inputs with: a literal is zero when
    it has no digit other than [0] before its exponent, and prints as it is
    written.  No input used below contains a number. *)
Definition literalNumbers : NumberSemantics := {|
  NumberIsZero lit :=
    forallb (fun c => negb (isDigit c) || N.eqb c 48)
            (takeWhile (fun c => negb (N.eqb c 101 || N.eqb c 69)) lit);
  NumberToString lit := lit
|}.

(** ** Records of [prompt-persistence.js] and the child process *)

Inductive Provider : Type := codex | gemini.

Definition providerName (p : Provider) : jsstring :=
  match p with codex => u "codex" | gemini => u "gemini" end.

(** The [status] field of a job status record. *)
Inductive Status : Type := spawned | running | completed | failed | timeout.

Definition isTerminal (s : Status) : bool :=
  match s with
  | completed | failed | timeout => true
  | spawned | running => false
  end.

Record JobStatus : Type := {
  js_provider : Provider;
  js_jobId : jsstring;
  js_slug : jsstring;
  js_status : Status;
  js_pid : Z;
  js_promptFile : jsstring;
  js_responseFile : jsstring;
  js_model : jsstring;
  js_agentRole : jsstring;
  js_spawnedAt : jsstring;
  js_completedAt : option jsstring;
  js_error : option jsstring
}.

(** [{ ...initialStatus, status, completedAt, error }] *)
Definition withStatus (i : JobStatus) (s : Status)
    (completedAt error : option jsstring) : JobStatus :=
  {| js_provider := js_provider i; js_jobId := js_jobId i; js_slug := js_slug i;
     js_status := s; js_pid := js_pid i; js_promptFile := js_promptFile i;
     js_responseFile := js_responseFile i; js_model := js_model i;
     js_agentRole := js_agentRole i; js_spawnedAt := js_spawnedAt i;
     js_completedAt := match completedAt with Some t => Some t | None => js_completedAt i end;
     js_error := match error with Some e => Some e | None => js_error i end |}.

Record BackgroundJobMeta : Type := {
  meta_provider : Provider;
  meta_jobId : jsstring;
  meta_slug : jsstring;
  meta_agentRole : jsstring;
  meta_model : jsstring;
  meta_promptFile : jsstring;
  meta_responseFile : jsstring
}.

(** The argument of [persistPrompt] and what it returns. *)
Record PromptRecord : Type := {
  pp_provider : Provider;
  pp_agentRole : jsstring;
  pp_model : jsstring;
  pp_files : option (list jsstring);
  pp_prompt : jsstring;
  pp_fullPrompt : jsstring
}.

Record PromptResult : Type := {
  pr_id : jsstring;
  pr_slug : jsstring;
  pr_filePath : jsstring
}.

(** The argument of [persistResponse]. *)
Record ResponseRecord : Type := {
  rr_provider : Provider;
  rr_agentRole : jsstring;
  rr_model : jsstring;
  rr_promptId : jsstring;
  rr_slug : jsstring;
  rr_response : jsstring;
  rr_usedFallback : option bool;
  rr_fallbackModel : option jsstring
}.

(** What [detectCodexCli] and [detectGeminiCli] return. *)
Record Detection : Type := {
  available : bool;
  det_error : jsstring;
  installHint : jsstring
}.

(** What a child process does after it was spawned: the callbacks the event
    loop runs, in order. *)
Inductive Event : Type :=
| OnStdout (data : jsstring)
| OnStderr (data : jsstring)
| OnClose (code : option Z)
| OnError (message : jsstring)
| OnStdinError (message : jsstring)
| OnTimeout.

(** The events that settle an operation. *)
Definition settles (e : Event) : bool :=
  match e with
  | OnClose _ | OnError _ | OnStdinError _ | OnTimeout => true
  | OnStdout _ | OnStderr _ => false
  end.

(** A spawned child: its pid, if it has one, and the events it will have,
    in order, the firing of the timer among them.  A complete run has a
    settling event, since the timer fires unless a callback cleared it; a
    list without one is a run cut short. *)
Record Child : Type := {
  child_pid : option Z;
  child_events : list Event
}.

(** [spawn] returns a child or throws. *)
Inductive SpawnResult : Type :=
| SpawnThrows (message : jsstring)
| Spawned (child : Child).

(** ** Effects *)

(** Every call that leaves the module, in the order it is made. *)
Inductive Effect : Type :=
| Spawn (command : jsstring) (args : list jsstring) (detached : bool)
| Unref
| StdinWrite (data : jsstring)
| StdinEnd
| SetTimeout (ms : Z)
| ClearTimeout
| ChildKill
| ProcessKill (target : Z)
| Resolve (value : jsstring)
| Reject (message : jsstring)
| Uncaught (message : jsstring)
| WriteJobStatus (s : JobStatus)
| PersistResponse (r : ResponseRecord)
| PersistPrompt (p : PromptRecord)
| DetectCli (p : Provider)
| ResolveSystemPrompt (role : jsstring)
| ReadFile (path : jsstring).

(** What [validateAndReadFile] asks of [path], [process] and [fs].  A
    function of [fs] that may throw returns an option.  [megabytes] is
    [(size / 1024 / 1024).toFixed(1)]. *)
Record FileStat : Type := {
  st_isFile : bool;
  st_size : Z
}.

Record FileSystem : Type := {
  path_resolve : jsstring -> jsstring;
  path_relative : jsstring -> jsstring -> jsstring;
  path_sep : jsstring;
  cwd : jsstring;
  realpathSync : jsstring -> option jsstring;
  statSync : jsstring -> option FileStat;
  readFileSync : jsstring -> option jsstring;
  megabytes : Z -> jsstring
}.

(** The collaborators that are not part of the two modules: the operating
    system ([spawn], the clock, the file system) and the functions imported from
    [cli-detection.js], [prompt-injection.js] and [prompt-persistence.js].
    The n-th call of [spawn] and the n-th reading of the clock are given
    by position.  [writeJobStatus] and [persistResponse] return nothing the
    callers read: their calls are recorded as effects. *)
Record World : Type := {
  spawnResult : nat -> SpawnResult;
  clock : nat -> jsstring;
  detectCli : Provider -> Detection;
  resolveSystemPrompt : jsstring -> option jsstring;
  buildPromptWithSystemContext :
    jsstring -> option jsstring -> option jsstring -> jsstring;
  fs : FileSystem;
  persistPrompt : PromptRecord -> option PromptResult;
  getExpectedResponsePath : Provider -> jsstring -> jsstring -> jsstring;
  getStatusFilePath : Provider -> jsstring -> jsstring -> jsstring
}.

(** How many children were spawned and how often the clock was read. *)
Record Counters : Type := {
  spawns : nat;
  clockReads : nat
}.

(** A computation reads the counters, returns a value and the new counters,
    and lists the effects it had. *)
Definition M (A : Type) : Type := Counters -> A * Counters * list Effect.

Definition ret {A : Type} (a : A) : M A := fun c => (a, c, []).

Definition bind {A B : Type} (m : M A) (f : A -> M B) : M B :=
  fun c =>
    let r1 := m c in
    let r2 := f (fst (fst r1)) (snd (fst r1)) in
    (fst (fst r2), snd (fst r2), snd r1 ++ snd r2).

Declare Scope m_scope.
Delimit Scope m_scope with M.
Notation "x <- m ;; k" := (bind m (fun x => k))
  (at level 61, m at next level, right associativity) : m_scope.
Notation "m ;; k" := (bind m (fun _ => k))
  (at level 61, right associativity) : m_scope.

Definition emit (e : Effect) : M unit := fun c => (tt, c, [e]).

Definition valueOf {A : Type} (m : M A) (c : Counters) : A := fst (fst (m c)).
Definition countersOf {A : Type} (m : M A) (c : Counters) : Counters := snd (fst (m c)).
Definition effectsOf {A : Type} (m : M A) (c : Counters) : list Effect := snd (m c).

(** Running the callbacks of a list of events, in order. *)
Fixpoint deliver {S : Type} (on : Event -> S -> M S) (evs : list Event) (s : S) : M S :=
  match evs with
  | [] => ret s
  | e :: r => bind (on e s) (fun s' => deliver on r s')
  end.

(** ** The process executors *)

(** The state of the promise an executor returns: the first call of
    [resolve] or [reject] decides it. *)
Inductive Promise : Type :=
| Pending
| Fulfilled (value : jsstring)
| Rejected (message : jsstring).

(** The variables the callbacks of one execution close over. *)
Record Closure : Type := {
  settled : bool;
  stdout : jsstring;
  stderr : jsstring;
  promise : Promise
}.

Definition newClosure : Closure :=
  {| settled := false; stdout := []; stderr := []; promise := Pending |}.

(** [settled = true] *)
Definition settle (c : Closure) : Closure :=
  {| settled := true; stdout := stdout c; stderr := stderr c; promise := promise c |}.

(** [stdout += data.toString()], [stderr += data.toString()] *)
Definition addStdout (d : jsstring) (c : Closure) : Closure :=
  {| settled := settled c; stdout := stdout c ++ d; stderr := stderr c; promise := promise c |}.
Definition addStderr (d : jsstring) (c : Closure) : Closure :=
  {| settled := settled c; stdout := stdout c; stderr := stderr c ++ d; promise := promise c |}.

Definition decide (p : Promise) (c : Closure) : Closure :=
  {| settled := settled c; stdout := stdout c; stderr := stderr c;
     promise := match promise c with Pending => p | q => q end |}.

Definition resolve (v : jsstring) (c : Closure) : M Closure :=
  bind (emit (Resolve v)) (fun _ => ret (decide (Fulfilled v) c)).

Definition reject (m : jsstring) (c : Closure) : M Closure :=
  bind (emit (Reject m)) (fun _ => ret (decide (Rejected m) c)).

(** [code === 0] *)
Definition isZeroCode (code : option Z) : bool :=
  match code with
  | Some z => (z =? 0)%Z
  | None => false
  end.

(** An exit code inside a template literal; a child killed by a signal has
    the code [null]. *)
Definition showCode (code : option Z) : jsstring :=
  match code with
  | Some z => ofZ z
  | None => u "null"
  end.

(** [a || b] on strings. *)
Definition orStr (a b : jsstring) : jsstring :=
  if truthy_str a then a else b.

Section Executors.
Context {num : NumberSemantics}.
Variable penv : ProcessEnv.
Variable w : World.

Local Open Scope m_scope.

Definition spawn (command : jsstring) (args : list jsstring) (detached : bool)
    : M SpawnResult :=
  fun c =>
    (spawnResult w (spawns c),
     {| spawns := S (spawns c); clockReads := clockReads c |},
     [Spawn command args detached]).

(** [new Date().toISOString()] *)
Definition now : M jsstring :=
  fun c =>
    (clock w (clockReads c),
     {| spawns := spawns c; clockReads := S (clockReads c) |},
     []).

(** *** [executeCodex] *)

Definition executeCodex_onTimeout (c : Closure) : M Closure :=
  if negb (settled c) then
    let c := settle c in
    emit ChildKill ;;
    reject (u "Codex timed out after " ++ ofZ (CODEX_TIMEOUT penv) ++ u "ms") c
  else ret c.

Definition executeCodex_onClose (code : option Z) (c : Closure) : M Closure :=
  if negb (settled c) then
    let c := settle c in
    emit ClearTimeout ;;
    if isZeroCode code || truthy_str (trim (stdout c)) then
      match parseCodexOutput (stdout c) with
      | Return text => resolve text c
      | Throw e => emit (Uncaught e) ;; ret c
      end
    else
      reject (u "Codex exited with code " ++ showCode code ++ u ": "
                ++ orStr (stderr c) (u "No output")) c
  else ret c.

Definition executeCodex_onError (message : jsstring) (c : Closure) : M Closure :=
  if negb (settled c) then
    let c := settle c in
    emit ClearTimeout ;;
    emit ChildKill ;;
    reject (u "Failed to spawn Codex CLI: " ++ message) c
  else ret c.

Definition executeCodex_onStdinError (message : jsstring) (c : Closure) : M Closure :=
  if negb (settled c) then
    let c := settle c in
    emit ClearTimeout ;;
    emit ChildKill ;;
    reject (u "Stdin write error: " ++ message) c
  else ret c.

(** The callbacks [executeCodex] registers. *)
Definition executeCodex_on (e : Event) (c : Closure) : M Closure :=
  match e with
  | OnStdout d => ret (addStdout d c)
  | OnStderr d => ret (addStderr d c)
  | OnClose code => executeCodex_onClose code c
  | OnError m => executeCodex_onError m c
  | OnStdinError m => executeCodex_onStdinError m c
  | OnTimeout => executeCodex_onTimeout c
  end.

(** [executeCodex(prompt, model)]: the state of the returned promise once
    the events of the child were delivered.  A [spawn] that throws inside
    the promise's executor rejects the promise. *)
Definition executeCodex (prompt model : jsstring) : M Promise :=
  r <- spawn (u "codex") [u "exec"; u "-m"; model; u "--json"; u "--full-auto"] false ;;
  match r with
  | SpawnThrows e => emit (Reject e) ;; ret (Rejected e)
  | Spawned child =>
      emit (SetTimeout (CODEX_TIMEOUT penv)) ;;
      emit (StdinWrite prompt) ;;
      emit StdinEnd ;;
      c <- deliver executeCodex_on (child_events child) newClosure ;;
      ret (promise c)
  end.

(** *** [executeGemini] *)

Definition executeGemini_onTimeout (c : Closure) : M Closure :=
  if negb (settled c) then
    let c := settle c in
    emit ChildKill ;;
    reject (u "Gemini timed out after " ++ ofZ (GEMINI_TIMEOUT penv) ++ u "ms") c
  else ret c.

Definition executeGemini_onClose (code : option Z) (c : Closure) : M Closure :=
  if negb (settled c) then
    let c := settle c in
    emit ClearTimeout ;;
    if isZeroCode code || truthy_str (trim (stdout c)) then
      resolve (trim (stdout c)) c
    else
      reject (u "Gemini exited with code " ++ showCode code ++ u ": "
                ++ orStr (stderr c) (u "No output")) c
  else ret c.

Definition executeGemini_onError (message : jsstring) (c : Closure) : M Closure :=
  if negb (settled c) then
    let c := settle c in
    emit ClearTimeout ;;
    emit ChildKill ;;
    reject (u "Failed to spawn Gemini CLI: " ++ message) c
  else ret c.

Definition executeGemini_onStdinError (message : jsstring) (c : Closure) : M Closure :=
  if negb (settled c) then
    let c := settle c in
    emit ClearTimeout ;;
    emit ChildKill ;;
    reject (u "Stdin write error: " ++ message) c
  else ret c.

Definition executeGemini_on (e : Event) (c : Closure) : M Closure :=
  match e with
  | OnStdout d => ret (addStdout d c)
  | OnStderr d => ret (addStderr d c)
  | OnClose code => executeGemini_onClose code c
  | OnError m => executeGemini_onError m c
  | OnStdinError m => executeGemini_onStdinError m c
  | OnTimeout => executeGemini_onTimeout c
  end.

(** [const args = ['--yolo']; if (model) args.push('--model', model)] *)
Definition geminiArgs (model : jsstring) : list jsstring :=
  if truthy_str model then [u "--yolo"; u "--model"; model] else [u "--yolo"].

Definition executeGemini (prompt model : jsstring) : M Promise :=
  r <- spawn (u "gemini") (geminiArgs model) false ;;
  match r with
  | SpawnThrows e => emit (Reject e) ;; ret (Rejected e)
  | Spawned child =>
      emit (SetTimeout (GEMINI_TIMEOUT penv)) ;;
      emit (StdinWrite prompt) ;;
      emit StdinEnd ;;
      c <- deliver executeGemini_on (child_events child) newClosure ;;
      ret (promise c)
  end.

(** ** The background job supervisors *)

(** What [executeCodexBackground] and [executeGeminiBackground] return. *)
Inductive BackgroundResult : Type :=
| BgPid (pid : Z)
| BgError (error : jsstring).

(** The variables the callbacks of one background job close over that
    change; [job_*] below are the ones that do not. *)
Record JobClosure : Type := {
  bg_settled : bool;
  bg_stdout : jsstring;
  bg_stderr : jsstring
}.

Definition newJobClosure : JobClosure :=
  {| bg_settled := false; bg_stdout := []; bg_stderr := [] |}.

Definition bgSettle (c : JobClosure) : JobClosure :=
  {| bg_settled := true; bg_stdout := bg_stdout c; bg_stderr := bg_stderr c |}.
Definition bgAddStdout (d : jsstring) (c : JobClosure) : JobClosure :=
  {| bg_settled := bg_settled c; bg_stdout := bg_stdout c ++ d; bg_stderr := bg_stderr c |}.
Definition bgAddStderr (d : jsstring) (c : JobClosure) : JobClosure :=
  {| bg_settled := bg_settled c; bg_stdout := bg_stdout c; bg_stderr := bg_stderr c ++ d |}.

(** A dispatched job: what its callbacks were registered with, and the
    events its child will have. *)
Record Job : Type := {
  job_provider : Provider;
  job_initialStatus : JobStatus;
  job_model : jsstring;
  job_meta : BackgroundJobMeta;
  job_pid : Z;
  job_events : list Event
}.

(** [if (process.platform !== 'win32') process.kill(-pid, 'SIGTERM'); else
    child.kill('SIGTERM')], inside [try]. *)
Definition killGroup (pid : Z) : M unit :=
  if negb (str_eqb (platform penv) (u "win32")) then emit (ProcessKill (- pid))
  else emit ChildKill.

(** *** [executeCodexBackground] *)

Definition executeCodexBackground_onTimeout (j : Job) (c : JobClosure) : M JobClosure :=
  if negb (bg_settled c) then
    let c := bgSettle c in
    killGroup (job_pid j) ;;
    t <- now ;;
    emit (WriteJobStatus
            (withStatus (job_initialStatus j) timeout (Some t)
               (Some (u "Codex timed out after " ++ ofZ (CODEX_TIMEOUT penv) ++ u "ms")))) ;;
    ret c
  else ret c.

Definition executeCodexBackground_onStdinError (j : Job) (message : jsstring)
    (c : JobClosure) : M JobClosure :=
  if bg_settled c then ret c
  else
    let c := bgSettle c in
    emit ClearTimeout ;;
    t <- now ;;
    emit (WriteJobStatus
            (withStatus (job_initialStatus j) failed (Some t)
               (Some (u "Stdin write error: " ++ message)))) ;;
    ret c.

Definition executeCodexBackground_onClose (j : Job) (code : option Z)
    (c : JobClosure) : M JobClosure :=
  if bg_settled c then ret c
  else
    let c := bgSettle c in
    emit ClearTimeout ;;
    if isZeroCode code || truthy_str (trim (bg_stdout c)) then
      match parseCodexOutput (bg_stdout c) with
      | Throw e => emit (Uncaught e) ;; ret c
      | Return response =>
          emit (PersistResponse
                  {| rr_provider := codex;
                     rr_agentRole := meta_agentRole (job_meta j);
                     rr_model := job_model j;
                     rr_promptId := meta_jobId (job_meta j);
                     rr_slug := meta_slug (job_meta j);
                     rr_response := response;
                     rr_usedFallback := None;
                     rr_fallbackModel := None |}) ;;
          t <- now ;;
          emit (WriteJobStatus (withStatus (job_initialStatus j) completed (Some t) None)) ;;
          ret c
      end
    else
      t <- now ;;
      emit (WriteJobStatus
              (withStatus (job_initialStatus j) failed (Some t)
                 (Some (u "Codex exited with code " ++ showCode code ++ u ": "
                          ++ orStr (bg_stderr c) (u "No output"))))) ;;
      ret c.

Definition executeCodexBackground_onError (j : Job) (message : jsstring)
    (c : JobClosure) : M JobClosure :=
  if bg_settled c then ret c
  else
    let c := bgSettle c in
    emit ClearTimeout ;;
    t <- now ;;
    emit (WriteJobStatus
            (withStatus (job_initialStatus j) failed (Some t)
               (Some (u "Failed to spawn Codex CLI: " ++ message)))) ;;
    ret c.

(** The callbacks [executeCodexBackground] registers. *)
Definition executeCodexBackground_on (j : Job) (e : Event) (c : JobClosure)
    : M JobClosure :=
  match e with
  | OnStdout d => ret (bgAddStdout d c)
  | OnStderr d => ret (bgAddStderr d c)
  | OnClose code => executeCodexBackground_onClose j code c
  | OnError m => executeCodexBackground_onError j m c
  | OnStdinError m => executeCodexBackground_onStdinError j m c
  | OnTimeout => executeCodexBackground_onTimeout j c
  end.

(** [executeCodexBackground(fullPrompt, model, jobMeta)]: what it returns,
    and the job it leaves on the event loop.  [!child.pid] holds for a
    missing pid and for the pid 0. *)
Definition executeCodexBackground (fullPrompt model : jsstring)
    (jobMeta : BackgroundJobMeta) : M (BackgroundResult * option Job) :=
  r <- spawn (u "codex") [u "exec"; u "-m"; model; u "--json"; u "--full-auto"] true ;;
  match r with
  | SpawnThrows e =>
      ret (BgError (u "Failed to start background execution: " ++ e), None)
  | Spawned child =>
      match child_pid child with
      | None => ret (BgError (u "Failed to get process ID"), None)
      | Some pid =>
          if (pid =? 0)%Z then ret (BgError (u "Failed to get process ID"), None)
          else
            emit Unref ;;
            t <- now ;;
            let initialStatus :=
              {| js_provider := codex;
                 js_jobId := meta_jobId jobMeta;
                 js_slug := meta_slug jobMeta;
                 js_status := spawned;
                 js_pid := pid;
                 js_promptFile := meta_promptFile jobMeta;
                 js_responseFile := meta_responseFile jobMeta;
                 js_model := model;
                 js_agentRole := meta_agentRole jobMeta;
                 js_spawnedAt := t;
                 js_completedAt := None;
                 js_error := None |} in
            emit (WriteJobStatus initialStatus) ;;
            emit (SetTimeout (CODEX_TIMEOUT penv)) ;;
            emit (StdinWrite fullPrompt) ;;
            emit StdinEnd ;;
            emit (WriteJobStatus (withStatus initialStatus running None None)) ;;
            ret (BgPid pid,
                 Some {| job_provider := codex;
                         job_initialStatus := initialStatus;
                         job_model := model;
                         job_meta := jobMeta;
                         job_pid := pid;
                         job_events := child_events child |})
      end
  end.

(** *** [executeGeminiBackground] *)

Definition executeGeminiBackground_onTimeout (j : Job) (c : JobClosure) : M JobClosure :=
  if negb (bg_settled c) then
    let c := bgSettle c in
    killGroup (job_pid j) ;;
    t <- now ;;
    emit (WriteJobStatus
            (withStatus (job_initialStatus j) timeout (Some t)
               (Some (u "Gemini timed out after " ++ ofZ (GEMINI_TIMEOUT penv) ++ u "ms")))) ;;
    ret c
  else ret c.

Definition executeGeminiBackground_onStdinError (j : Job) (message : jsstring)
    (c : JobClosure) : M JobClosure :=
  if bg_settled c then ret c
  else
    let c := bgSettle c in
    emit ClearTimeout ;;
    t <- now ;;
    emit (WriteJobStatus
            (withStatus (job_initialStatus j) failed (Some t)
               (Some (u "Stdin write error: " ++ message)))) ;;
    ret c.

Definition executeGeminiBackground_onClose (j : Job) (code : option Z)
    (c : JobClosure) : M JobClosure :=
  if bg_settled c then ret c
  else
    let c := bgSettle c in
    emit ClearTimeout ;;
    if isZeroCode code || truthy_str (trim (bg_stdout c)) then
      emit (PersistResponse
              {| rr_provider := gemini;
                 rr_agentRole := meta_agentRole (job_meta j);
                 rr_model := job_model j;
                 rr_promptId := meta_jobId (job_meta j);
                 rr_slug := meta_slug (job_meta j);
                 rr_response := trim (bg_stdout c);
                 rr_usedFallback := None;
                 rr_fallbackModel := None |}) ;;
      t <- now ;;
      emit (WriteJobStatus (withStatus (job_initialStatus j) completed (Some t) None)) ;;
      ret c
    else
      t <- now ;;
      emit (WriteJobStatus
              (withStatus (job_initialStatus j) failed (Some t)
                 (Some (u "Gemini exited with code " ++ showCode code ++ u ": "
                          ++ orStr (bg_stderr c) (u "No output"))))) ;;
      ret c.

Definition executeGeminiBackground_onError (j : Job) (message : jsstring)
    (c : JobClosure) : M JobClosure :=
  if bg_settled c then ret c
  else
    let c := bgSettle c in
    emit ClearTimeout ;;
    t <- now ;;
    emit (WriteJobStatus
            (withStatus (job_initialStatus j) failed (Some t)
               (Some (u "Failed to spawn Gemini CLI: " ++ message)))) ;;
    ret c.

Definition executeGeminiBackground_on (j : Job) (e : Event) (c : JobClosure)
    : M JobClosure :=
  match e with
  | OnStdout d => ret (bgAddStdout d c)
  | OnStderr d => ret (bgAddStderr d c)
  | OnClose code => executeGeminiBackground_onClose j code c
  | OnError m => executeGeminiBackground_onError j m c
  | OnStdinError m => executeGeminiBackground_onStdinError j m c
  | OnTimeout => executeGeminiBackground_onTimeout j c
  end.

Definition executeGeminiBackground (fullPrompt model : jsstring)
    (jobMeta : BackgroundJobMeta) : M (BackgroundResult * option Job) :=
  r <- spawn (u "gemini") (geminiArgs model) true ;;
  match r with
  | SpawnThrows e =>
      ret (BgError (u "Failed to start background execution: " ++ e), None)
  | Spawned child =>
      match child_pid child with
      | None => ret (BgError (u "Failed to get process ID"), None)
      | Some pid =>
          if (pid =? 0)%Z then ret (BgError (u "Failed to get process ID"), None)
          else
            emit Unref ;;
            t <- now ;;
            let initialStatus :=
              {| js_provider := gemini;
                 js_jobId := meta_jobId jobMeta;
                 js_slug := meta_slug jobMeta;
                 js_status := spawned;
                 js_pid := pid;
                 js_promptFile := meta_promptFile jobMeta;
                 js_responseFile := meta_responseFile jobMeta;
                 js_model := model;
                 js_agentRole := meta_agentRole jobMeta;
                 js_spawnedAt := t;
                 js_completedAt := None;
                 js_error := None |} in
            emit (WriteJobStatus initialStatus) ;;
            emit (SetTimeout (GEMINI_TIMEOUT penv)) ;;
            emit (StdinWrite fullPrompt) ;;
            emit StdinEnd ;;
            emit (WriteJobStatus (withStatus initialStatus running None None)) ;;
            ret (BgPid pid,
                 Some {| job_provider := gemini;
                         job_initialStatus := initialStatus;
                         job_model := model;
                         job_meta := jobMeta;
                         job_pid := pid;
                         job_events := child_events child |})
      end
  end.

(** The events of a dispatched job reach the callbacks its supervisor
    registered. *)
Definition runJob (j : Job) : M JobClosure :=
  match job_provider j with
  | codex => deliver (executeCodexBackground_on j) (job_events j) newJobClosure
  | gemini => deliver (executeGeminiBackground_on j) (job_events j) newJobClosure
  end.

(** ** The request handlers *)

(** The arguments of [handleAskCodex] and [handleAskGemini]; [files] is the
    field [context_files] of the first and [files] of the second.  A field
    that may be missing is an option. *)
Record AskArgs : Type := {
  prompt : jsstring;
  agent_role : option jsstring;
  model : option jsstring;
  files : option (list jsstring);
  background : bool
}.

(** [{ content: [{ type: 'text', text }, ...], isError }]: the texts of the
    content blocks, and the error flag (absent is [false]). *)
Record ToolResult : Type := {
  content : list jsstring;
  isError : bool
}.

(** A handler returns a result, leaving the job it dispatched (if any) on
    the event loop, or waits for a promise that never settles. *)
Inductive Handled : Type :=
| Returns (r : ToolResult) (job : option Job)
| NeverReturns.

Definition quote : N := 34%N.

(** [agent_role] inside a template literal. *)
Definition roleText (r : option jsstring) : jsstring :=
  match r with
  | Some s => s
  | None => u "undefined"
  end.

(** [agent_role && roles.includes(agent_role)] *)
Definition validRole (roles : list jsstring) (r : option jsstring) : bool :=
  match r with
  | Some s => truthy_str s && existsb (str_eqb s) roles
  | None => false
  end.

Definition errorResult (text : jsstring) : ToolResult :=
  {| content := [text]; isError := true |}.

(** [rel === '' || rel === '..' || rel.startsWith('..' + sep)] *)
Definition outside (rel : jsstring) : bool :=
  str_eqb rel [] || str_eqb rel (u "..")
  || match stripPrefix (u ".." ++ path_sep (fs w)) rel with
     | Some _ => true
     | None => false
     end.

(** What [validateAndReadFile(filePath)] returns for a path that is a
    string, as the type of the arguments has it: the text of the file under
    a header, or a marker. *)
Definition fileText (filePath : jsstring) : jsstring :=
  let blocked :=
    u "[BLOCKED] File '" ++ filePath
      ++ u "' is outside the working directory. Only files within the project are allowed." in
  let unreadable := u "--- File: " ++ filePath ++ u " --- (Error reading file)" in
  let resolvedAbs := path_resolve (fs w) filePath in
  match realpathSync (fs w) (cwd (fs w)) with
  | None => unreadable
  | Some cwdReal =>
      if outside (path_relative (fs w) cwdReal resolvedAbs) then blocked
      else
        match realpathSync (fs w) resolvedAbs with
        | None => unreadable
        | Some resolvedReal =>
            if outside (path_relative (fs w) cwdReal resolvedReal) then blocked
            else
              match statSync (fs w) resolvedReal with
              | None => unreadable
              | Some stats =>
                  if negb (st_isFile stats) then
                    u "--- File: " ++ filePath ++ u " --- (Not a regular file)"
                  else if (MAX_FILE_SIZE <? st_size stats)%Z then
                    u "--- File: " ++ filePath ++ u " --- (File too large: "
                      ++ megabytes (fs w) (st_size stats) ++ u "MB, max 5MB)"
                  else
                    match readFileSync (fs w) resolvedReal with
                    | None => unreadable
                    | Some text => u "--- File: " ++ filePath ++ u " ---" ++ [LF] ++ text
                    end
              end
        end
  end.

(** [validateAndReadFile(f)]: the call reaches the file system. *)
Definition validateAndReadFile (f : jsstring) : M jsstring :=
  emit (ReadFile f) ;; ret (fileText f).

Fixpoint readAll (fs : list jsstring) : M (list jsstring) :=
  match fs with
  | [] => ret []
  | f :: r =>
      t <- validateAndReadFile f ;;
      ts <- readAll r ;;
      ret (t :: ts)
  end.

(** The file context of a request: too many files (with their number), or
    the context, [None] when there is no file. *)
Definition buildFileContext (fs : option (list jsstring)) : M (nat + option jsstring) :=
  match fs with
  | Some (f :: r) =>
      if (MAX_CONTEXT_FILES <? List.length (f :: r))%nat then ret (inl (List.length (f :: r)))
      else
        ts <- readAll (f :: r) ;;
        ret (inr (Some (join [LF; LF] ts)))
  | _ => ret (inr None)
  end.

(** [array.filter(Boolean)] on an array of strings and [null]s. *)
Fixpoint filterBoolean (l : list (option jsstring)) : list jsstring :=
  match l with
  | [] => []
  | Some (c :: r) :: t => (c :: r) :: filterBoolean t
  | _ :: t => filterBoolean t
  end.

(** The parameter visibility block. *)
Definition paramLines (role : jsstring) (fs : option (list jsstring))
    (promptResult : option PromptResult) (expectedResponsePath : option jsstring)
    : jsstring :=
  join [LF]
    (filterBoolean
       [Some (u "**Agent Role:** " ++ role);
        match fs with
        | Some (f :: r) => Some (u "**Files:** " ++ join (u ", ") (f :: r))
        | _ => None
        end;
        match promptResult with
        | Some pr => Some (u "**Prompt File:** " ++ pr_filePath pr)
        | None => None
        end;
        match expectedResponsePath with
        | Some (c :: r) => Some (u "**Response File:** " ++ (c :: r))
        | _ => None
        end]).

Definition separator : jsstring := [LF; LF] ++ u "---" ++ [LF; LF].

Definition tooManyFiles (n : nat) : ToolResult :=
  errorResult (u "Too many context files (max " ++ ofNat MAX_CONTEXT_FILES
                 ++ u ", got " ++ ofNat n ++ u ")").

Definition notAvailable (name : jsstring) (d : Detection) : ToolResult :=
  errorResult (name ++ u " CLI is not available: " ++ det_error d
                 ++ [LF; LF] ++ installHint d).

(** *** [handleAskCodex] *)

Definition handleAskCodex (args : AskArgs) : M Handled :=
  let model := match model args with Some m => m | None => CODEX_DEFAULT_MODEL penv end in
  if negb (validRole CODEX_VALID_ROLES (agent_role args)) then
    ret (Returns
           (errorResult (u "Invalid agent_role: " ++ [quote] ++ roleText (agent_role args)
                           ++ [quote] ++ u ". Codex requires one of: "
                           ++ join (u ", ") CODEX_VALID_ROLES)) None)
  else
    let role := roleText (agent_role args) in
    emit (DetectCli codex) ;;
    let detection := detectCli w codex in
    if negb (available detection) then
      ret (Returns (notAvailable (u "Codex") detection) None)
    else
      emit (ResolveSystemPrompt role) ;;
      let resolvedSystemPrompt := resolveSystemPrompt w role in
      fc <- buildFileContext (files args) ;;
      match fc with
      | inl n => ret (Returns (tooManyFiles n) None)
      | inr fileContext =>
          let fullPrompt :=
            buildPromptWithSystemContext w (prompt args) fileContext resolvedSystemPrompt in
          let record :=
            {| pp_provider := codex; pp_agentRole := role; pp_model := model;
               pp_files := files args; pp_prompt := prompt args;
               pp_fullPrompt := fullPrompt |} in
          emit (PersistPrompt record) ;;
          let promptResult := persistPrompt w record in
          let expectedResponsePath :=
            match promptResult with
            | Some pr => Some (getExpectedResponsePath w codex (pr_slug pr) (pr_id pr))
            | None => None
            end in
          if background args then
            match promptResult with
            | None =>
                ret (Returns
                       (errorResult (u "Failed to persist prompt for background execution"))
                       None)
            | Some pr =>
                let statusFilePath := getStatusFilePath w codex (pr_slug pr) (pr_id pr) in
                let responseFile := getExpectedResponsePath w codex (pr_slug pr) (pr_id pr) in
                rj <- executeCodexBackground fullPrompt model
                        {| meta_provider := codex; meta_jobId := pr_id pr;
                           meta_slug := pr_slug pr; meta_agentRole := role;
                           meta_model := model; meta_promptFile := pr_filePath pr;
                           meta_responseFile := responseFile |} ;;
                match fst rj with
                | BgError e =>
                    ret (Returns (errorResult (u "Failed to spawn background job: " ++ e))
                           None)
                | BgPid pid =>
                    ret (Returns
                           {| content :=
                                [join [LF]
                                   [u "**Mode:** Background (non-blocking)";
                                    u "**Job ID:** " ++ pr_id pr;
                                    u "**Agent Role:** " ++ role;
                                    u "**Model:** " ++ model;
                                    u "**PID:** " ++ ofZ pid;
                                    u "**Prompt File:** " ++ pr_filePath pr;
                                    u "**Response File:** " ++ responseFile;
                                    u "**Status File:** " ++ statusFilePath;
                                    [];
                                    u "Job dispatched. Check response file existence or read status file for completion."]];
                              isError := false |}
                           (snd rj))
                end
            end
          else
            let lines := paramLines role (files args) promptResult expectedResponsePath in
            p <- executeCodex fullPrompt model ;;
            match p with
            | Fulfilled response =>
                match promptResult with
                | Some pr =>
                    emit (PersistResponse
                            {| rr_provider := codex; rr_agentRole := role;
                               rr_model := model; rr_promptId := pr_id pr;
                               rr_slug := pr_slug pr; rr_response := response;
                               rr_usedFallback := None; rr_fallbackModel := None |})
                | None => ret tt
                end ;;
                ret (Returns {| content := [lines ++ separator ++ response];
                                isError := false |} None)
            | Rejected message =>
                ret (Returns
                       (errorResult (lines ++ separator ++ u "Codex CLI error: " ++ message))
                       None)
            | Pending => ret NeverReturns
            end
      end.

(** *** [handleAskGemini] *)

(** [l.indexOf(x)]; [None] is [-1]. *)
Fixpoint indexOf (x : jsstring) (l : list jsstring) : option nat :=
  match l with
  | [] => None
  | y :: r =>
      if str_eqb y x then Some O
      else match indexOf x r with
           | Some i => Some (S i)
           | None => None
           end
  end.

(** [fallbackIndex >= 0 ? fallbacks.slice(fallbackIndex) : [requestedModel,
    ...fallbacks]] *)
Definition modelsToTry (fallbacks : list jsstring) (requestedModel : jsstring)
    : list jsstring :=
  match indexOf requestedModel fallbacks with
  | Some fallbackIndex => skipn fallbackIndex fallbacks
  | None => requestedModel :: fallbacks
  end.

(** The loop over [modelsToTry], from the models that are left and the
    errors pushed so far, and the [return] after it. *)
Fixpoint tryModels (fullPrompt lines requestedModel role : jsstring)
    (promptResult : option PromptResult) (models : list jsstring)
    (errors : list jsstring) : M Handled :=
  match models with
  | [] =>
      ret (Returns
             (errorResult (lines ++ separator ++ u "Gemini CLI error: all models failed."
                             ++ [LF] ++ join [LF] errors))
             None)
  | tryModel :: rest =>
      p <- executeGemini fullPrompt tryModel ;;
      match p with
      | Fulfilled response =>
          let usedFallback := negb (str_eqb tryModel requestedModel) in
          let fallbackNote :=
            if usedFallback then
              u "[Fallback: used " ++ tryModel ++ u " instead of " ++ requestedModel
                ++ u "]" ++ [LF; LF]
            else [] in
          match promptResult with
          | Some pr =>
              emit (PersistResponse
                      {| rr_provider := gemini; rr_agentRole := role;
                         rr_model := tryModel; rr_promptId := pr_id pr;
                         rr_slug := pr_slug pr; rr_response := response;
                         rr_usedFallback := Some usedFallback;
                         rr_fallbackModel := if usedFallback then Some tryModel else None |})
          | None => ret tt
          end ;;
          ret (Returns {| content := [lines ++ separator ++ fallbackNote ++ response];
                          isError := false |} None)
      | Rejected message =>
          tryModels fullPrompt lines requestedModel role promptResult rest
            (errors ++ [tryModel ++ u ": " ++ message])
      | Pending => ret NeverReturns
      end
  end.

(** [handleAskGemini], for a canonical fallback list.  [modelsToTry[0]]
    exists: the chain is never empty. *)
Definition handleAskGeminiWith (fallbacks : list jsstring) (args : AskArgs) : M Handled :=
  let model := match model args with Some m => m | None => GEMINI_DEFAULT_MODEL penv end in
  if negb (validRole GEMINI_VALID_ROLES (agent_role args)) then
    ret (Returns
           (errorResult (u "Invalid agent_role: " ++ [quote] ++ roleText (agent_role args)
                           ++ [quote] ++ u ". Gemini requires one of: "
                           ++ join (u ", ") GEMINI_VALID_ROLES)) None)
  else
    let role := roleText (agent_role args) in
    emit (DetectCli gemini) ;;
    let detection := detectCli w gemini in
    if negb (available detection) then
      ret (Returns (notAvailable (u "Gemini") detection) None)
    else
      emit (ResolveSystemPrompt role) ;;
      let resolvedSystemPrompt := resolveSystemPrompt w role in
      fc <- buildFileContext (files args) ;;
      match fc with
      | inl n => ret (Returns (tooManyFiles n) None)
      | inr fileContext =>
          let fullPrompt :=
            buildPromptWithSystemContext w (prompt args) fileContext resolvedSystemPrompt in
          let record :=
            {| pp_provider := gemini; pp_agentRole := role; pp_model := model;
               pp_files := files args; pp_prompt := prompt args;
               pp_fullPrompt := fullPrompt |} in
          emit (PersistPrompt record) ;;
          let promptResult := persistPrompt w record in
          let expectedResponsePath :=
            match promptResult with
            | Some pr => Some (getExpectedResponsePath w gemini (pr_slug pr) (pr_id pr))
            | None => None
            end in
          let requestedModel := model in
          let chain := modelsToTry fallbacks requestedModel in
          if background args then
            match promptResult with
            | None =>
                ret (Returns
                       (errorResult (u "Failed to persist prompt for background execution"))
                       None)
            | Some pr =>
                let statusFilePath := getStatusFilePath w gemini (pr_slug pr) (pr_id pr) in
                let responseFile := getExpectedResponsePath w gemini (pr_slug pr) (pr_id pr) in
                let first := hd [] chain in
                rj <- executeGeminiBackground fullPrompt first
                        {| meta_provider := gemini; meta_jobId := pr_id pr;
                           meta_slug := pr_slug pr; meta_agentRole := role;
                           meta_model := first; meta_promptFile := pr_filePath pr;
                           meta_responseFile := responseFile |} ;;
                match fst rj with
                | BgError e =>
                    ret (Returns (errorResult (u "Failed to spawn background job: " ++ e))
                           None)
                | BgPid pid =>
                    ret (Returns
                           {| content :=
                                [join [LF]
                                   [u "**Mode:** Background (non-blocking)";
                                    u "**Job ID:** " ++ pr_id pr;
                                    u "**Agent Role:** " ++ role;
                                    u "**Model (attempting):** " ++ first;
                                    u "**Fallback chain:** " ++ join (u " -> ") chain;
                                    u "**PID:** " ++ ofZ pid;
                                    u "**Prompt File:** " ++ pr_filePath pr;
                                    u "**Response File:** " ++ responseFile;
                                    u "**Status File:** " ++ statusFilePath;
                                    [];
                                    u "Job dispatched. Background mode tries first model only.";
                                    u "If it fails, check status file and retry with next model."]];
                              isError := false |}
                           (snd rj))
                end
            end
          else
            let lines := paramLines role (files args) promptResult expectedResponsePath in
            tryModels fullPrompt lines requestedModel role promptResult chain []
      end.

Definition handleAskGemini (args : AskArgs) : M Handled :=
  handleAskGeminiWith GEMINI_MODEL_FALLBACKS args.

(** *** A request from its call to the last event *)

(** A request is handled; then the event loop delivers the events of the job
    it dispatched, if it dispatched one.  A child that a supervisor gave
    up (it had no pid) has no listener: its events are not part of the
    run. *)
Definition lifecycle (handler : AskArgs -> M Handled) (args : AskArgs) : M Handled :=
  h <- handler args ;;
  match h with
  | Returns _ (Some j) => runJob j ;; ret h
  | _ => ret h
  end.

End Executors.

(** ** What is read off a list of effects *)

Definition isSettlement (e : Effect) : bool :=
  match e with
  | Resolve _ | Reject _ => true
  | _ => false
  end.

Definition isSpawn (e : Effect) : bool :=
  match e with
  | Spawn _ _ _ => true
  | _ => false
  end.

(** The status records written to the Job Status Store for a job id, in
    order. *)
Fixpoint statusWrites (jobId : jsstring) (fx : list Effect) : list JobStatus :=
  match fx with
  | [] => []
  | WriteJobStatus s :: r =>
      if str_eqb (js_jobId s) jobId then s :: statusWrites jobId r
      else statusWrites jobId r
  | _ :: r => statusWrites jobId r
  end.

(** The models of the child processes spawned: the argument after [-m]
    (Codex) or [--model] (Gemini). *)
Fixpoint modelArg (args : list jsstring) : option jsstring :=
  match args with
  | flag :: r =>
      if str_eqb flag (u "-m") || str_eqb flag (u "--model") then
        match r with
        | m :: _ => Some m
        | [] => None
        end
      else modelArg r
  | [] => None
  end.

Fixpoint spawnedModels (fx : list Effect) : list (option jsstring) :=
  match fx with
  | [] => []
  | Spawn _ args _ :: r => modelArg args :: spawnedModels r
  | _ :: r => spawnedModels r
  end.

Definition start : Counters := {| spawns := 0; clockReads := 0 |}.

(** [l1] is a prefix of [l2]. *)
Definition prefix {A : Type} (l1 l2 : list A) : Prop := exists k, l2 = l1 ++ k.

(** ** Vocabulary of the properties *)

(** The variable is unset, or [parseInt] gives [NaN] for it. *)
Definition unsetOrUnparsable (v : option jsstring) : bool :=
  match v with
  | None => true
  | Some s => match parseInt10 s with None => true | Some _ => false end
  end.

(** An environment in which the Codex timeout is unset and the Gemini
    timeout is not a number. *)
Definition sampleEnv : ProcessEnv :=
  {| OMC_CODEX_DEFAULT_MODEL := None;
     OMC_CODEX_TIMEOUT := None;
     OMC_GEMINI_DEFAULT_MODEL := None;
     OMC_GEMINI_TIMEOUT := Some (u "soon");
     platform := u "linux" |}.

Definition isStatusWrite (e : Effect) : bool :=
  match e with
  | WriteJobStatus _ => true
  | _ => false
  end.

(** The callbacks [on] settle an operation at most once, through the latch
    [latch]; [counts] picks the effects by which an operation is resolved.
    In order: the callback of each settling event sets the latch; with the
    latch set, such a callback changes nothing and has no effect; with the
    latch set, no run of events has an effect or unsets it; whatever the
    events and the state, at most one resolution takes place; and the events
    after a settling event add no effect. *)
Definition SettlesAtMostOnce {S : Type} (on : Event -> S -> M S)
    (latch : S -> bool) (counts : Effect -> bool) : Prop :=
  (forall e s k, settles e = true -> latch (valueOf (on e s) k) = true) /\
  (forall e s, settles e = true -> latch s = true -> on e s = ret s) /\
  (forall evs s k, latch s = true ->
     effectsOf (deliver on evs s) k = [] /\
     latch (valueOf (deliver on evs s) k) = true) /\
  (forall evs s k,
     (List.length (filter counts (effectsOf (deliver on evs s) k)) <= 1)%nat) /\
  (forall pre e post s k, settles e = true ->
     effectsOf (deliver on (pre ++ e :: post) s) k
     = effectsOf (deliver on (pre ++ [e]) s) k).

(** No effect follows the writing of a terminal status. *)
Fixpoint terminalIsLast (fx : list Effect) : bool :=
  match fx with
  | [] => true
  | WriteJobStatus s :: r =>
      if isTerminal (js_status s) then
        match r with [] => true | _ :: _ => false end
      else terminalIsLast r
  | _ :: r => terminalIsLast r
  end.

(** What a job writes once its events are delivered: nothing, or one
    terminal status for its own id; and the terminal status is its last
    effect. *)
Definition jobWrites (j : Job) (fx : list Effect) : Prop :=
  terminalIsLast fx = true /\
  (statusWrites (js_jobId (job_initialStatus j)) fx = [] \/
   exists s, statusWrites (js_jobId (job_initialStatus j)) fx = [s] /\
             isTerminal (js_status s) = true).

(** What a call of a supervisor amounts to: an error and one [Spawn], or a
    pid, a job for the id of [jobMeta], and the two first status records
    among the effects. *)
Definition supervisorCall
    (sup : jsstring -> jsstring -> BackgroundJobMeta -> M (BackgroundResult * option Job))
    : Prop :=
  forall fullPrompt model jobMeta k,
    (exists err sp,
        valueOf (sup fullPrompt model jobMeta) k = (BgError err, None) /\
        effectsOf (sup fullPrompt model jobMeta) k = [sp] /\ isSpawn sp = true)
    \/
    (exists pid j sp s1 ms inp s2,
        valueOf (sup fullPrompt model jobMeta) k = (BgPid pid, Some j) /\
        effectsOf (sup fullPrompt model jobMeta) k
        = [sp; Unref; WriteJobStatus s1; SetTimeout ms; StdinWrite inp; StdinEnd;
           WriteJobStatus s2] /\
        isSpawn sp = true /\
        js_jobId (job_initialStatus j) = meta_jobId jobMeta /\
        js_jobId s1 = meta_jobId jobMeta /\ js_status s1 = spawned /\
        js_jobId s2 = meta_jobId jobMeta /\ js_status s2 = running).

(** Whatever the decoder pushes is truthy. *)
Definition allTruthy {num : NumberSemantics} (l : list value) : Prop :=
  Forall (fun v => truthy (Some v) = true) l.

(** An output of three lines: a message record, a line that is not JSON,
    and an output_text record. *)
Definition twoRecords : jsstring :=
  uq "{'type':'message','content':'a'}" ++ [LF] ++ u "progress" ++ [LF]
    ++ uq "{'type':'output_text','text':'b'}".

(** The variables of an execution when its child closes with the output [s]
    and the error output [e] accumulated and nothing settled yet. *)
Definition atClose (s e : jsstring) : Closure :=
  {| settled := false; stdout := s; stderr := e; promise := Pending |}.

Definition bgAtClose (s e : jsstring) : JobClosure :=
  {| bg_settled := false; bg_stdout := s; bg_stderr := e |}.

(** A world to run concrete inputs in: the CLI is there, prompts are
    persisted, and the children are the given ones. *)
Definition sampleWorld (children : nat -> SpawnResult) : World :=
  {| spawnResult := children;
     clock := fun n => u "T" ++ ofNat n;
     detectCli := fun _ => {| available := true; det_error := []; installHint := [] |};
     resolveSystemPrompt := fun _ => None;
     buildPromptWithSystemContext := fun p _ _ => p;
     fs := {| path_resolve := fun f => u "/repo/" ++ f;
              path_relative := fun _ f => f;
              path_sep := u "/";
              cwd := u "/repo";
              realpathSync := fun f => Some f;
              statSync := fun _ => Some {| st_isFile := true; st_size := 2 |};
              readFileSync := fun _ => Some (u "ok");
              megabytes := fun _ => u "0.0" |};
     persistPrompt := fun _ =>
       Some {| pr_id := u "id1"; pr_slug := u "slug"; pr_filePath := u "prompt-id1.md" |};
     getExpectedResponsePath := fun _ _ id => u "response-" ++ id ++ u ".md";
     getStatusFilePath := fun _ _ id => u "status-" ++ id ++ u ".json" |}.

(** A child with the pid 4242 and the given events. *)
Definition childWith (evs : list Event) : SpawnResult :=
  Spawned {| child_pid := Some 4242%Z; child_events := evs |}.

Definition sampleJob (p : Provider) (evs : list Event) : Job :=
  {| job_provider := p;
     job_initialStatus :=
       {| js_provider := p; js_jobId := u "id1"; js_slug := u "slug";
          js_status := spawned; js_pid := 4242%Z;
          js_promptFile := u "prompt-id1.md"; js_responseFile := u "response-id1.md";
          js_model := u "m"; js_agentRole := u "designer"; js_spawnedAt := u "T0";
          js_completedAt := None; js_error := None |};
     job_model := u "m";
     job_meta :=
       {| meta_provider := p; meta_jobId := u "id1"; meta_slug := u "slug";
          meta_agentRole := u "designer"; meta_model := u "m";
          meta_promptFile := u "prompt-id1.md"; meta_responseFile := u "response-id1.md" |};
     job_pid := 4242%Z;
     job_events := evs |}.

(** The role is missing, or outside the valid set. *)
Definition invalidRole (roles : list jsstring) (r : option jsstring) : Prop :=
  match r with
  | None => True
  | Some s => ~ In s roles
  end.

(** [model = DEFAULT] in the parameter list of a handler. *)
Definition requested (default : jsstring) (args : AskArgs) : jsstring :=
  match model args with
  | Some m => m
  | None => default
  end.

(** The context files of a request are not more than [MAX_CONTEXT_FILES]. *)
Definition filesOk (args : AskArgs) : bool :=
  match files args with
  | Some l => (List.length l <=? MAX_CONTEXT_FILES)%nat
  | None => true
  end.

(** The effects a handler has before it branches into the background or the
    synchronous path. *)
Definition isPrelude (e : Effect) : bool :=
  match e with
  | DetectCli _ | ResolveSystemPrompt _ | ReadFile _ | PersistPrompt _ => true
  | _ => false
  end.

Definition isPersistPrompt (e : Effect) : bool :=
  match e with
  | PersistPrompt _ => true
  | _ => false
  end.

Definition isPersistResponse (e : Effect) : bool :=
  match e with
  | PersistResponse _ => true
  | _ => false
  end.

(** The effects of the callbacks of an executor: they spawn nothing and
    persist nothing. *)
Definition isInternal (e : Effect) : bool :=
  match e with
  | ClearTimeout | ChildKill | Resolve _ | Reject _ | Uncaught _ => true
  | _ => false
  end.

(** The call of [spawn] that [executeGemini] makes for a model. *)
Definition geminiSpawn (m : jsstring) : Effect :=
  Spawn (u "gemini") (geminiArgs m) false.

(** The promise [executeGemini] returns for what [spawn] gave it. *)
Definition geminiOutcome (penv : ProcessEnv) (r : SpawnResult) : Promise :=
  match r with
  | SpawnThrows e => Rejected e
  | Spawned child =>
      promise (valueOf (deliver (executeGemini_on penv) (child_events child) newClosure) start)
  end.

Definition rejection (p : Promise) : jsstring :=
  match p with
  | Rejected m => m
  | _ => []
  end.

Definition isRejected (p : Promise) : bool :=
  match p with
  | Rejected _ => true
  | _ => false
  end.

(** The error lines of the attempts on [models], the first of which is the
    [n]-th call of [spawn]. *)
Fixpoint failureLines (penv : ProcessEnv) (w : World) (n : nat) (models : list jsstring)
    : list jsstring :=
  match models with
  | [] => []
  | m :: r =>
      (m ++ u ": " ++ rejection (geminiOutcome penv (spawnResult w n)))
        :: failureLines penv w (S n) r
  end.

(** Every attempt on [models] is rejected, the first being the [n]-th call
    of [spawn]. *)
Fixpoint allRejected (penv : ProcessEnv) (w : World) (n : nat) (models : list jsstring)
    : bool :=
  match models with
  | [] => true
  | _ :: r =>
      isRejected (geminiOutcome penv (spawnResult w n)) && allRejected penv w (S n) r
  end.

(** The call of [spawn] that [executeGeminiBackground] makes for a model. *)
Definition geminiBackgroundSpawn (m : jsstring) : Effect :=
  Spawn (u "gemini") (geminiArgs m) true.

(** A world in which every child writes [quota] to its error output and
    exits with code 1. *)
Definition failingWorld : World :=
  sampleWorld (fun _ => childWith [OnStderr (u "quota"); OnClose (Some 1%Z)]).

(** A request for the third model of the canonical list. *)
Definition sampleRequest (bg : bool) : AskArgs :=
  {| prompt := u "hi"; agent_role := Some (u "designer");
     model := Some (u "gemini-2.5-pro"); files := None; background := bg |}.

Definition sampleMeta (p : Provider) : BackgroundJobMeta :=
  {| meta_provider := p; meta_jobId := u "id1"; meta_slug := u "slug";
     meta_agentRole := u "designer"; meta_model := u "m";
     meta_promptFile := u "prompt-id1.md"; meta_responseFile := u "response-id1.md" |}.

(** A world whose children run into the timeout and exit with code 0
    afterwards. *)
Definition lateWorld : World :=
  sampleWorld (fun _ => childWith [OnStdout (u "partial"); OnTimeout; OnClose (Some 0%Z)]).

Section Runs.
Context {num : NumberSemantics}.
Variable penv : ProcessEnv.
Variable w : World.

(** A background supervisor is called; then the event loop delivers the
    events of the job it left, if it left one. *)
Definition thenEvents (m : M (BackgroundResult * option Job)) : M BackgroundResult :=
  bind m (fun rj =>
    match snd rj with
    | Some j => bind (runJob penv w j) (fun _ => ret (fst rj))
    | None => ret (fst rj)
    end).

(** What the specification asks of a background supervisor [sup], for every
    call and every behaviour of the child.  In order: the call itself
    writes [spawned] then [running] when it returns a pid, and nothing when
    it returns an error; with the events of the job delivered, the statuses
    written for the job id are a prefix of [spawned], [running] and one
    terminal status; at most one of them is terminal; no effect of the job
    follows a terminal status; and when a settling event reaches the job
    and no callback is left by an exception, the three statuses are all
    written. *)
Definition StatusDiscipline
    (sup : jsstring -> jsstring -> BackgroundJobMeta -> M (BackgroundResult * option Job))
    : Prop :=
  forall (fullPrompt model : jsstring) (jobMeta : BackgroundJobMeta) (k : Counters),
    let id := meta_jobId jobMeta in
    let call := sup fullPrompt model jobMeta in
    let fx := effectsOf (thenEvents call) k in
    map js_status (statusWrites id (effectsOf call k))
    = match fst (valueOf call k) with
      | BgPid _ => [spawned; running]
      | BgError _ => []
      end /\
    (exists t, isTerminal t = true /\
               prefix (map js_status (statusWrites id fx)) [spawned; running; t]) /\
    (List.length (filter (fun s => isTerminal (js_status s)) (statusWrites id fx)) <= 1)%nat /\
    (forall fx1 s fx2,
       fx = fx1 ++ WriteJobStatus s :: fx2 -> isTerminal (js_status s) = true ->
       fx2 = []) /\
    (forall j, snd (valueOf call k) = Some j ->
       existsb settles (job_events j) = true ->
       (forall m, ~ In (Uncaught m) fx) ->
       exists t, isTerminal t = true /\
                 map js_status (statusWrites id fx) = [spawned; running; t]).

End Runs.

(** ** Vocabulary of the further properties *)

(** The output and the error output that a list of events carries, in
    order. *)
Fixpoint stdoutOf (evs : list Event) : jsstring :=
  match evs with
  | [] => []
  | OnStdout d :: r => d ++ stdoutOf r
  | _ :: r => stdoutOf r
  end.

Fixpoint stderrOf (evs : list Event) : jsstring :=
  match evs with
  | [] => []
  | OnStderr d :: r => d ++ stderrOf r
  | _ :: r => stderrOf r
  end.

(** No event of the list settles. *)
Definition dataOnly (evs : list Event) : bool :=
  forallb (fun e => negb (settles e)) evs.

(** The first event of a list that settles, if there is one. *)
Definition firstSettling (evs : list Event) : option Event := find settles evs.

Definition isKill (e : Effect) : bool :=
  match e with
  | ChildKill | ProcessKill _ => true
  | _ => false
  end.

(** The call of [spawn] that [executeCodex] makes for a model, and the one
    [executeCodexBackground] makes. *)
Definition codexSpawn (m : jsstring) : Effect :=
  Spawn (u "codex") [u "exec"; u "-m"; m; u "--json"; u "--full-auto"] false.

Definition codexBackgroundSpawn (m : jsstring) : Effect :=
  Spawn (u "codex") [u "exec"; u "-m"; m; u "--json"; u "--full-auto"] true.

(** The promise [executeCodex] returns for what [spawn] gave it. *)
Definition codexOutcome {num : NumberSemantics} (penv : ProcessEnv) (r : SpawnResult)
    : Promise :=
  match r with
  | SpawnThrows e => Rejected e
  | Spawned child =>
      promise (valueOf (deliver (executeCodex_on penv) (child_events child) newClosure) start)
  end.

(** The kill that a timeout of a background job sends. *)
Definition groupKill (penv : ProcessEnv) (pid : Z) : Effect :=
  if str_eqb (platform penv) (u "win32") then ChildKill else ProcessKill (- pid).

(** The events of a list before the first that settles. *)
Fixpoint beforeSettling (evs : list Event) : list Event :=
  match evs with
  | [] => []
  | e :: r => if settles e then [] else e :: beforeSettling r
  end.

(** *** What a handler computes before it branches *)

Section RequestVocabulary.
Variable penv : ProcessEnv.
Variable w : World.

(** The files a request names. *)
Definition readsOf (args : AskArgs) : list jsstring :=
  match files args with
  | Some l => l
  | None => []
  end.

(** The file context, the full prompt and the prompt record of a request
    whose files are within the cap. *)
Definition fileContextOf (args : AskArgs) : option jsstring :=
  match files args with
  | Some (f :: r) => Some (join [LF; LF] (map (fileText w) (f :: r)))
  | _ => None
  end.

Definition fullPromptOf (args : AskArgs) : jsstring :=
  buildPromptWithSystemContext w (prompt args) (fileContextOf args)
    (resolveSystemPrompt w (roleText (agent_role args))).

Definition promptRecordOf (p : Provider) (default : jsstring) (args : AskArgs)
    : PromptRecord :=
  {| pp_provider := p; pp_agentRole := roleText (agent_role args);
     pp_model := requested default args;
     pp_files := files args; pp_prompt := prompt args;
     pp_fullPrompt := fullPromptOf args |}.

(** The effects of a handler up to the persisting of the prompt. *)
Definition preludeOf (p : Provider) (default : jsstring) (args : AskArgs) : list Effect :=
  [DetectCli p; ResolveSystemPrompt (roleText (agent_role args))]
    ++ map ReadFile (readsOf args) ++ [PersistPrompt (promptRecordOf p default args)].

(** The parameter block of the synchronous answers. *)
Definition linesOf (p : Provider) (default : jsstring) (args : AskArgs) : jsstring :=
  paramLines (roleText (agent_role args)) (files args)
    (persistPrompt w (promptRecordOf p default args))
    match persistPrompt w (promptRecordOf p default args) with
    | Some pr => Some (getExpectedResponsePath w p (pr_slug pr) (pr_id pr))
    | None => None
    end.

(** The job meta a handler passes to the supervisor for the model [m]. *)
Definition metaOf (p : Provider) (args : AskArgs) (m : jsstring) (pr : PromptResult)
    : BackgroundJobMeta :=
  {| meta_provider := p; meta_jobId := pr_id pr; meta_slug := pr_slug pr;
     meta_agentRole := roleText (agent_role args); meta_model := m;
     meta_promptFile := pr_filePath pr;
     meta_responseFile := getExpectedResponsePath w p (pr_slug pr) (pr_id pr) |}.

(** A request that passes the three checks of a handler: the role, the
    CLI, the cap on context files. *)
Definition accepted (p : Provider) (roles : list jsstring) (args : AskArgs) : bool :=
  validRole roles (agent_role args) && available (detectCli w p) && filesOk args.

End RequestVocabulary.

(** What [handleAskCodex] answers once the promise of [executeCodex] has
    the state [p]. *)
Definition codexAnswer (lines : jsstring) (p : Promise) : Handled :=
  match p with
  | Fulfilled response =>
      Returns {| content := [lines ++ separator ++ response]; isError := false |} None
  | Rejected message =>
      Returns (errorResult (lines ++ separator ++ u "Codex CLI error: " ++ message)) None
  | Pending => NeverReturns
  end.

(** The first record of a job, and the job a supervisor leaves on the event
    loop: for the provider [p], the model [m], the pid of the child and the
    time [t] of the dispatch. *)
Definition initialStatusOf (p : Provider) (m : jsstring) (jobMeta : BackgroundJobMeta)
    (pid : Z) (t : jsstring) : JobStatus :=
  {| js_provider := p;
     js_jobId := meta_jobId jobMeta;
     js_slug := meta_slug jobMeta;
     js_status := spawned;
     js_pid := pid;
     js_promptFile := meta_promptFile jobMeta;
     js_responseFile := meta_responseFile jobMeta;
     js_model := m;
     js_agentRole := meta_agentRole jobMeta;
     js_spawnedAt := t;
     js_completedAt := None;
     js_error := None |}.

Definition dispatched (p : Provider) (m : jsstring) (jobMeta : BackgroundJobMeta)
    (pid : Z) (t : jsstring) (evs : list Event) : Job :=
  {| job_provider := p;
     job_initialStatus := initialStatusOf p m jobMeta pid t;
     job_model := m;
     job_meta := jobMeta;
     job_pid := pid;
     job_events := evs |}.

(** The pid of a child that a supervisor accepts: there is one, and it is
    not 0. *)
Definition usablePid (child : Child) : option Z :=
  match child_pid child with
  | Some pid => if (pid =? 0)%Z then None else Some pid
  | None => None
  end.

(** A world in which no CLI is installed. *)
Definition offlineWorld : World :=
  {| spawnResult := fun _ => childWith [];
     clock := clock (sampleWorld (fun _ => childWith []));
     detectCli := fun _ =>
       {| available := false; det_error := u "not found"; installHint := u "npm i -g cli" |};
     resolveSystemPrompt := fun _ => None;
     buildPromptWithSystemContext := fun p _ _ => p;
     fs := fs (sampleWorld (fun _ => childWith []));
     persistPrompt := fun _ => None;
     getExpectedResponsePath := fun _ _ id => id;
     getStatusFilePath := fun _ _ id => id |}.

(** The effects of one synchronous attempt: a spawn that is not detached,
    the timer, the full prompt on the standard input, and what the
    callbacks do. *)
Definition attemptEffect (fullPrompt : jsstring) (e : Effect) : Prop :=
  match e with
  | Spawn _ _ detached => detached = false
  | StdinWrite d => d = fullPrompt
  | SetTimeout _ | StdinEnd | ClearTimeout | ChildKill
  | Resolve _ | Reject _ | Uncaught _ => True
  | _ => False
  end.

(** A response record that answers the prompt record [pr] of a request. *)
Definition answers (p : Provider) (role : jsstring) (promptResult : option PromptResult)
    (rr : ResponseRecord) : Prop :=
  exists pr, promptResult = Some pr /\
             rr_provider rr = p /\ rr_agentRole rr = role /\
             rr_promptId rr = pr_id pr /\ rr_slug rr = pr_slug pr.

(** What holds of every effect of a request to the provider [p], from the
    call of the handler to the last event of its job. *)
Definition requestEffect (w : World) (p : Provider) (default : jsstring) (args : AskArgs)
    (e : Effect) : Prop :=
  match e with
  | DetectCli q => q = p
  | ResolveSystemPrompt role => role = roleText (agent_role args)
  | ReadFile f => In f (readsOf args)
  | PersistPrompt record => record = promptRecordOf w p default args
  | StdinWrite d => d = fullPromptOf w args
  | PersistResponse rr =>
      answers p (roleText (agent_role args))
        (persistPrompt w (promptRecordOf w p default args)) rr
  | WriteJobStatus s =>
      background args = true /\
      exists pr, persistPrompt w (promptRecordOf w p default args) = Some pr /\
                 js_jobId s = pr_id pr /\ js_provider s = p
  | Spawn _ _ detached => detached = background args
  | Unref | ProcessKill _ => background args = true
  | _ => True
  end.

(** The effects that only a background job has. *)
Definition isJobEffect (e : Effect) : bool :=
  match e with
  | Spawn _ _ detached => detached
  | Unref | ProcessKill _ | WriteJobStatus _ => true
  | _ => false
  end.

(** ** The standalone servers *)

(** [request.params] of a [tools/call] request: the name of the tool and
    its arguments, if it has any. *)
Record CallToolParams : Type := {
  tool_name : jsstring;
  tool_arguments : option AskArgs
}.

(** The fields destructured from [args ?? {}] when there are no arguments:
    all are [undefined].  The prompt is never read: the role check of the
    handler fails first. *)
Definition noArguments : AskArgs :=
  {| prompt := u "undefined"; agent_role := None; model := None; files := None;
     background := false |}.

Section Servers.
Context {num : NumberSemantics}.
Variable penv : ProcessEnv.
Variable w : World.

(** The [CallToolRequestSchema] handler of [codex-standalone-server.ts]. *)
Definition callCodexTool (params : CallToolParams) : M Handled :=
  if negb (str_eqb (tool_name params) (u "ask_codex")) then
    ret (Returns {| content := [u "Unknown tool: " ++ tool_name params];
                    isError := true |} None)
  else
    handleAskCodex penv w
      match tool_arguments params with
      | Some args => args
      | None => noArguments
      end.

(** The [CallToolRequestSchema] handler of the standalone Gemini server. *)
Definition callGeminiTool (params : CallToolParams) : M Handled :=
  if negb (str_eqb (tool_name params) (u "ask_gemini")) then
    ret (Returns {| content := [u "Unknown tool: " ++ tool_name params];
                    isError := true |} None)
  else
    handleAskGemini penv w
      match tool_arguments params with
      | Some args => args
      | None => noArguments
      end.

End Servers.

(** ** Sample requests and worlds *)

(** A request to Codex without context files, and the same request with
    twenty-one of them. *)
Definition codexRequest (bg : bool) : AskArgs :=
  {| prompt := u "hi"; agent_role := Some (u "architect"); model := None;
     files := None; background := bg |}.

Definition crowdedRequest : AskArgs :=
  {| prompt := u "hi"; agent_role := Some (u "architect"); model := None;
     files := Some (repeat (u "a.txt") 21); background := false |}.

(** A world in which prompts cannot be persisted. *)
Definition unpersistedWorld : World :=
  {| spawnResult := fun _ => childWith [];
     clock := clock (sampleWorld (fun _ => childWith []));
     detectCli := detectCli (sampleWorld (fun _ => childWith []));
     resolveSystemPrompt := fun _ => None;
     buildPromptWithSystemContext := fun p _ _ => p;
     fs := fs (sampleWorld (fun _ => childWith []));
     persistPrompt := fun _ => None;
     getExpectedResponsePath := fun _ _ id => id;
     getStatusFilePath := fun _ _ id => id |}.

(** A world in which the command is not found: the children have no pid,
    and their one event is the error. *)
Definition pidlessWorld : World :=
  sampleWorld (fun _ => Spawned {| child_pid := None;
                                   child_events := [OnError (u "spawn codex ENOENT")] |}).

(** A world whose first child fails and whose later children answer. *)
Definition recoveringWorld : World :=
  sampleWorld (fun n => match n with
                        | O => childWith [OnStderr (u "quota"); OnClose (Some 1%Z)]
                        | S _ => childWith [OnStdout (u "answer"); OnClose (Some 0%Z)]
                        end).

(** A world whose children answer with one message record. *)
Definition answeringWorld : World :=
  sampleWorld (fun _ => childWith [OnStdout (uq "{'type':'message','content':'done'}");
                                   OnClose (Some 0%Z)]).

(** The prompt record that [sampleWorld] returns. *)
Definition sampleRecord : PromptResult :=
  {| pr_id := u "id1"; pr_slug := u "slug"; pr_filePath := u "prompt-id1.md" |}.

(** An output of one record whose text is an object with a member named
    [toString], and a world whose children print it and exit with code 0. *)
Definition throwingOutput : jsstring :=
  uq "{'type':'output_text','text':{'toString':1}}".

Definition throwingWorld : World :=
  sampleWorld (fun _ => childWith [OnStdout throwingOutput; OnClose (Some 0%Z)]).

Definition isUncaught (e : Effect) : bool :=
  match e with
  | Uncaught _ => true
  | _ => false
  end.


(** * Properties *)

Unset Implicit Arguments.

(** Literals stay folded when a goal is simplified. *)
Arguments u : simpl never.
Arguments ofZ : simpl never.
Arguments timeoutOf : simpl never.

(** ** Strings *)

Lemma str_eqb_eq (a b : jsstring) : str_eqb a b = true <-> a = b.
Proof.
  revert b. induction a as [|x a IH]; intros [|y b]; cbn; split; intro H;
    try reflexivity; try discriminate.
  - apply andb_true_iff in H. destruct H as [H1 H2].
    apply N.eqb_eq in H1. apply IH in H2. subst. reflexivity.
  - injection H as -> ->. rewrite N.eqb_refl. cbn. apply IH. reflexivity.
Qed.

Lemma str_eqb_refl (a : jsstring) : str_eqb a a = true.
Proof. apply str_eqb_eq. reflexivity. Qed.

Lemma str_eqb_neq (a b : jsstring) : str_eqb a b = false <-> a <> b.
Proof.
  split.
  - intros H E. apply str_eqb_eq in E. congruence.
  - intros H. destruct (str_eqb a b) eqn:E; [|reflexivity].
    apply str_eqb_eq in E. contradiction.
Qed.

Lemma truthy_str_false (s : jsstring) : truthy_str s = false <-> s = [].
Proof. destruct s; cbn; split; intro H; congruence. Qed.

Lemma truthy_str_true (s : jsstring) : truthy_str s = true <-> s <> [].
Proof. destruct s; cbn; split; intro H; congruence. Qed.

Lemma dropWhile_nil (p : N -> bool) (s : jsstring) :
  dropWhile p s = [] <-> Forall (fun c => p c = true) s.
Proof.
  induction s as [|c r IH]; cbn.
  - split; [constructor | reflexivity].
  - destruct (p c) eqn:E.
    + rewrite IH. split; intro H; [constructor; assumption | inversion H; assumption].
    + split; [discriminate | intro H; inversion H; congruence].
Qed.

Lemma dropWhile_head (p : N -> bool) (s : jsstring) (c : N) (r : jsstring) :
  dropWhile p s = c :: r -> p c = false.
Proof.
  induction s as [|x s IH]; cbn; [discriminate|].
  destruct (p x) eqn:E; [exact IH|].
  intros H. injection H as -> _. exact E.
Qed.

Lemma dropWhile_suffix (p : N -> bool) (s : jsstring) :
  exists pre, s = pre ++ dropWhile p s /\ Forall (fun c => p c = true) pre.
Proof.
  induction s as [|x s [pre [E F]]]; cbn.
  - exists []. split; [reflexivity | constructor].
  - destruct (p x) eqn:Px.
    + exists (x :: pre). split; [cbn; f_equal; exact E | constructor; assumption].
    + exists []. split; [reflexivity | constructor].
Qed.

(** A string trims to nothing exactly when all of it is white space. *)
Lemma trim_nil (s : jsstring) :
  trim s = [] <-> Forall (fun c => isStrWhiteSpace c = true) s.
Proof.
  unfold trim, trimEnd, trimStart. split.
  - intros H.
    destruct (dropWhile isStrWhiteSpace s) as [|c r] eqn:E.
    + apply dropWhile_nil. exact E.
    + exfalso.
      assert (R : rev (rev (dropWhile isStrWhiteSpace (rev (c :: r)))) = rev [])
        by (rewrite H; reflexivity).
      rewrite rev_involutive in R. cbn [rev] in R.
      apply dropWhile_nil in R.
      apply dropWhile_head in E.
      rewrite Forall_forall in R.
      specialize (R c). rewrite R in E; [discriminate|].
      apply in_or_app. right. left. reflexivity.
  - intros H. apply dropWhile_nil in H. rewrite H. reflexivity.
Qed.

(** ** Computations *)

Lemma effectsOf_bind (A B : Type) (m : M A) (f : A -> M B) (k : Counters) :
  effectsOf (bind m f) k
  = effectsOf m k ++ effectsOf (f (valueOf m k)) (countersOf m k).
Proof. reflexivity. Qed.

Lemma valueOf_bind (A B : Type) (m : M A) (f : A -> M B) (k : Counters) :
  valueOf (bind m f) k = valueOf (f (valueOf m k)) (countersOf m k).
Proof. reflexivity. Qed.

Lemma countersOf_bind (A B : Type) (m : M A) (f : A -> M B) (k : Counters) :
  countersOf (bind m f) k = countersOf (f (valueOf m k)) (countersOf m k).
Proof. reflexivity. Qed.

Lemma deliver_cons (S : Type) (on : Event -> S -> M S) (e : Event)
    (r : list Event) (s : S) :
  deliver on (e :: r) s = bind (on e s) (fun s' => deliver on r s').
Proof. reflexivity. Qed.

(** ** The settlement latch *)

(** Callbacks with a latch: a data event only updates the state and leaves
    the latch as it is; the callback of a settling event returns at once
    when the latch is set, and sets it otherwise. *)
Section Latch.
Variable S : Type.
Variable on : Event -> S -> M S.
Variable latch : S -> bool.
Hypothesis data_event :
  forall e s, settles e = false -> exists s', on e s = ret s' /\ latch s' = latch s.
Hypothesis latched :
  forall e s, settles e = true -> latch s = true -> on e s = ret s.
Hypothesis latching :
  forall e s k, settles e = true -> latch (valueOf (on e s) k) = true.

Lemma latch_event_settled (e : Event) (s : S) (k : Counters) :
  latch s = true ->
  effectsOf (on e s) k = [] /\ countersOf (on e s) k = k /\
  latch (valueOf (on e s) k) = true.
Proof.
  intros L. destruct (settles e) eqn:E.
  - rewrite (latched e s E L). cbn. auto.
  - destruct (data_event e s E) as [s' [-> L']]. cbn. rewrite L'. auto.
Qed.

(** Once the latch is set, no event has an effect. *)
Lemma deliver_settled (evs : list Event) (s : S) (k : Counters) :
  latch s = true ->
  effectsOf (deliver on evs s) k = [] /\ countersOf (deliver on evs s) k = k /\
  latch (valueOf (deliver on evs s) k) = true.
Proof.
  revert s. induction evs as [|e r IH]; intros s L.
  - cbn. auto.
  - destruct (latch_event_settled e s k L) as [E [C L']].
    rewrite deliver_cons, effectsOf_bind, countersOf_bind, valueOf_bind, E, C.
    destruct (IH _ L') as [E2 [C2 L2]]. rewrite E2, C2, L2. auto.
Qed.

(** The effects of a run are those of the callback of its first settling
    event, which finds the latch unset; a run without one has none. *)
Lemma deliver_first (evs : list Event) (s : S) (k : Counters) :
  latch s = false ->
  (forallb (fun e => negb (settles e)) evs = true /\
   effectsOf (deliver on evs s) k = [] /\
   latch (valueOf (deliver on evs s) k) = false)
  \/
  (exists pre e post s',
     evs = pre ++ e :: post /\
     forallb (fun e => negb (settles e)) pre = true /\
     settles e = true /\
     latch s' = false /\
     s' = valueOf (deliver on pre s) k /\
     effectsOf (deliver on evs s) k = effectsOf (on e s') k /\
     latch (valueOf (deliver on evs s) k) = true).
Proof.
  revert s. induction evs as [|e r IH]; intros s L.
  - left. cbn. auto.
  - destruct (settles e) eqn:E.
    + right. exists [], e, r, s. cbn [app forallb].
      repeat split; try assumption; try reflexivity.
      * rewrite deliver_cons, effectsOf_bind.
        destruct (deliver_settled r (valueOf (on e s) k) (countersOf (on e s) k)
                    (latching e s k E)) as [E2 _].
        rewrite E2. apply app_nil_r.
      * rewrite deliver_cons, valueOf_bind.
        apply (deliver_settled r _ _ (latching e s k E)).
    + destruct (data_event e s E) as [s1 [Eq L1]].
      rewrite L in L1.
      destruct (IH s1 L1) as [[F [Ef Lf]] | [pre [e' [post [s' H]]]]].
      * left. cbn [forallb]. rewrite E, F.
        rewrite deliver_cons, effectsOf_bind, valueOf_bind, Eq.
        split; [reflexivity | split; assumption].
      * destruct H as [Hev [Hpre [Hs [Hl [Hs' [Hfx Hla]]]]]].
        right. exists (e :: pre), e', post, s'.
        cbn [forallb app]. rewrite E, Hpre, Hev.
        repeat split; try assumption; try reflexivity.
        -- rewrite deliver_cons, valueOf_bind, Eq. subst s'. reflexivity.
        -- rewrite <- Hev. rewrite deliver_cons, effectsOf_bind, Eq. exact Hfx.
        -- rewrite <- Hev. rewrite deliver_cons, valueOf_bind, Eq. exact Hla.
Qed.

(** What comes after a settling event adds nothing. *)
Lemma deliver_after (pre : list Event) (e : Event) (post : list Event)
    (s : S) (k : Counters) :
  settles e = true ->
  effectsOf (deliver on (pre ++ e :: post) s) k
  = effectsOf (deliver on (pre ++ [e]) s) k.
Proof.
  intros E. revert s k. induction pre as [|x pre IH]; intros s k.
  - cbn [app]. rewrite !deliver_cons, !effectsOf_bind. cbn [deliver].
    destruct (deliver_settled post _ (countersOf (on e s) k) (latching e s k E)) as [E2 _].
    rewrite E2. reflexivity.
  - cbn [app]. rewrite !deliver_cons, !effectsOf_bind, IH. reflexivity.
Qed.

End Latch.

(** ** [JSON.parse] has fuel enough *)

Lemma dropWhile_length (p : N -> bool) (s : jsstring) :
  (List.length (dropWhile p s) <= List.length s)%nat.
Proof.
  induction s as [|c r IH]; cbn; [lia|]. destruct (p c); cbn; lia.
Qed.

Lemma skipWs_length (s : jsstring) : (List.length (skipWs s) <= List.length s)%nat.
Proof. apply dropWhile_length. Qed.

Lemma skipWs_cons (s : jsstring) (c : N) (r : jsstring) :
  skipWs s = c :: r -> (List.length r < List.length s)%nat.
Proof.
  intros E. pose proof (skipWs_length s) as L. rewrite E in L. cbn in L. lia.
Qed.

Lemma stringChars_length (n : nat) :
  forall s acc str r,
    (List.length s <= n)%nat -> stringChars s acc = Some (str, r) ->
    (List.length r < List.length s)%nat.
Proof.
  induction n as [|n IH]; intros s acc str r L E.
  - destruct s; [discriminate E | cbn in L; lia].
  - destruct s as [|c s]; [discriminate E|]. cbn [stringChars] in E. cbn in L.
    destruct (c =? 34)%N; [injection E as _ <-; cbn; lia|].
    destruct (c =? 92)%N.
    + destruct s as [|e s]; [discriminate E|]. cbn in L.
      destruct (simpleEscape e).
      * apply IH in E; [cbn; lia | lia].
      * destruct (e =? 117)%N; [|discriminate E].
        destruct s as [|h1 [|h2 [|h3 [|h4 s]]]]; try discriminate E.
        destruct (hex4 h1 h2 h3 h4); [|discriminate E].
        cbn in L. apply IH in E; [cbn; lia | lia].
    + destruct (c <? 32)%N; [discriminate E|].
      apply IH in E; [cbn; lia | lia].
Qed.

Lemma stripPrefix_length (lit s r : jsstring) :
  stripPrefix lit s = Some r -> (List.length r <= List.length s)%nat.
Proof.
  revert s. induction lit as [|a lit IH]; intros s E; cbn in E.
  - injection E as <-. lia.
  - destruct s as [|b s]; [discriminate E|].
    destruct (N.eqb a b); [|discriminate E]. apply IH in E. cbn. lia.
Qed.

Lemma optionalChar_length (cs : list N) (s : jsstring) :
  (List.length (snd (optionalChar cs s)) <= List.length s)%nat.
Proof.
  unfold optionalChar. destruct s as [|c r]; [cbn; lia|].
  destruct (existsb (N.eqb c) cs); cbn; lia.
Qed.

Lemma digits1_length (s ds r : jsstring) :
  digits1 s = Some (ds, r) -> (List.length r <= List.length s)%nat.
Proof.
  unfold digits1. destruct (takeWhile isDigit s); [discriminate|].
  intros E. injection E as _ <-. apply dropWhile_length.
Qed.

Lemma numberLit_length (s lit r : jsstring) :
  numberLit s = Some (lit, r) -> (List.length r < List.length s)%nat.
Proof.
  unfold numberLit. pose proof (optionalChar_length [45%N] s) as L0.
  destruct (intPart (snd (optionalChar [45%N] s))) as [[i s2]|] eqn:I; [|discriminate].
  assert (L1 : (List.length s2 < List.length (snd (optionalChar [45%N] s)))%nat).
  { unfold intPart in I. destruct (snd (optionalChar [45%N] s)) as [|c t]; [discriminate I|].
    destruct (c =? 48)%N; [injection I as _ <-; cbn; lia|].
    destruct (isDigit c); [|discriminate I].
    injection I as _ <-. pose proof (dropWhile_length isDigit t). cbn. lia. }
  destruct (fracPart s2) as [[f s3]|] eqn:Fr; [|discriminate].
  assert (L2 : (List.length s3 <= List.length s2)%nat).
  { unfold fracPart in Fr. destruct s2 as [|c t]; [injection Fr as _ <-; lia|].
    destruct (c =? 46)%N; [|injection Fr as _ <-; lia].
    destruct (digits1 t) as [[ds r']|] eqn:D; [|discriminate Fr].
    injection Fr as _ <-. apply digits1_length in D. cbn. lia. }
  destruct (expPart s3) as [[x s4]|] eqn:Ex; [|discriminate].
  assert (L3 : (List.length s4 <= List.length s3)%nat).
  { unfold expPart in Ex. destruct s3 as [|c t]; [injection Ex as _ <-; lia|].
    destruct ((c =? 101)%N || (c =? 69)%N); [|injection Ex as _ <-; lia].
    destruct (digits1 (snd (optionalChar [43%N; 45%N] t))) as [[ds r']|] eqn:D;
      [|discriminate Ex].
    injection Ex as _ <-. apply digits1_length in D.
    pose proof (optionalChar_length [43%N; 45%N] t). cbn. lia. }
  intros E. injection E as _ <-. lia.
Qed.

(** Every parsing function consumes input. *)
Lemma parse_progress (f : nat) :
  (forall s v r, parseValue f s = Got v r -> (List.length r < List.length s)%nat) /\
  (forall s acc v r, parseElements f s acc = Got v r -> (List.length r < List.length s)%nat) /\
  (forall s acc v r, parseMembers f s acc = Got v r -> (List.length r < List.length s)%nat).
Proof.
  induction f as [|f [IHv [IHe IHm]]]; [repeat split; intros; discriminate|].
  repeat split.
  - intros s v r. cbn [parseValue].
    destruct (skipWs s) as [|c t] eqn:W; [discriminate|].
    apply skipWs_cons in W.
    destruct (c =? 123)%N.
    { destruct (skipWs t) as [|c' t'] eqn:W'; [discriminate|].
      apply skipWs_cons in W'.
      destruct (c' =? 125)%N; [intros E; injection E as _ <-; lia|].
      intros E. apply IHm in E. lia. }
    destruct (c =? 91)%N.
    { destruct (skipWs t) as [|c' t'] eqn:W'; [discriminate|].
      apply skipWs_cons in W'.
      destruct (c' =? 93)%N; [intros E; injection E as _ <-; lia|].
      intros E. apply IHe in E. lia. }
    destruct (c =? 34)%N.
    { destruct (stringChars t []) as [[str r']|] eqn:Sc; [|discriminate].
      apply (stringChars_length (List.length t)) in Sc; [|lia].
      intros E. injection E as _ <-. lia. }
    destruct (c =? 116)%N.
    { destruct (stripPrefix (u "rue") t) as [r'|] eqn:Sp; [|discriminate].
      apply stripPrefix_length in Sp. intros E. injection E as _ <-. lia. }
    destruct (c =? 102)%N.
    { destruct (stripPrefix (u "alse") t) as [r'|] eqn:Sp; [|discriminate].
      apply stripPrefix_length in Sp. intros E. injection E as _ <-. lia. }
    destruct (c =? 110)%N.
    { destruct (stripPrefix (u "ull") t) as [r'|] eqn:Sp; [|discriminate].
      apply stripPrefix_length in Sp. intros E. injection E as _ <-. lia. }
    destruct (numberLit (c :: t)) as [[lit r']|] eqn:Nl; [|discriminate].
    apply numberLit_length in Nl. cbn in Nl.
    intros E. injection E as _ <-. lia.
  - intros s acc v r. cbn [parseElements].
    destruct (parseValue f s) as [| |v1 r1] eqn:Pv; try discriminate.
    apply IHv in Pv.
    destruct (skipWs r1) as [|c t] eqn:W; [discriminate|].
    apply skipWs_cons in W.
    destruct (c =? 44)%N; [intros E; apply IHe in E; lia|].
    destruct (c =? 93)%N; [|discriminate].
    intros E. injection E as _ <-. lia.
  - intros s acc v r. cbn [parseMembers].
    destruct (skipWs s) as [|q t] eqn:W; [discriminate|].
    apply skipWs_cons in W.
    destruct (q =? 34)%N; [|discriminate].
    destruct (stringChars t []) as [[key r1]|] eqn:Sc; [|discriminate].
    apply (stringChars_length (List.length t)) in Sc; [|lia].
    destruct (skipWs r1) as [|colon r2] eqn:W1; [discriminate|].
    apply skipWs_cons in W1.
    destruct (colon =? 58)%N; [|discriminate].
    destruct (parseValue f r2) as [| |v1 r3] eqn:Pv; try discriminate.
    apply IHv in Pv.
    destruct (skipWs r3) as [|c r4] eqn:W3; [discriminate|].
    apply skipWs_cons in W3.
    destruct (c =? 44)%N; [intros E; apply IHm in E; lia|].
    destruct (c =? 125)%N; [|discriminate].
    intros E. injection E as _ <-. lia.
Qed.

(** With fuel for twice the length of the input, no parsing function runs
    out of it. *)
Lemma parse_fuel (f : nat) :
  (forall s, (2 * List.length s + 1 <= f)%nat -> parseValue f s <> More) /\
  (forall s acc, (2 * List.length s + 2 <= f)%nat -> parseElements f s acc <> More) /\
  (forall s acc, (2 * List.length s + 2 <= f)%nat -> parseMembers f s acc <> More).
Proof.
  induction f as [|f [IHv [IHe IHm]]]; [repeat split; intros; lia|].
  repeat split.
  - intros s L. cbn [parseValue].
    destruct (skipWs s) as [|c t] eqn:W; [discriminate|].
    apply skipWs_cons in W.
    destruct (c =? 123)%N.
    { destruct (skipWs t) as [|c' t'] eqn:W'; [discriminate|].
      destruct (c' =? 125)%N; [discriminate|]. apply IHm. lia. }
    destruct (c =? 91)%N.
    { destruct (skipWs t) as [|c' t'] eqn:W'; [discriminate|].
      destruct (c' =? 93)%N; [discriminate|]. apply IHe. lia. }
    destruct (c =? 34)%N; [destruct (stringChars t []) as [[? ?]|]; discriminate|].
    destruct (c =? 116)%N; [destruct (stripPrefix (u "rue") t); discriminate|].
    destruct (c =? 102)%N; [destruct (stripPrefix (u "alse") t); discriminate|].
    destruct (c =? 110)%N; [destruct (stripPrefix (u "ull") t); discriminate|].
    destruct (numberLit (c :: t)) as [[? ?]|]; discriminate.
  - intros s acc L. cbn [parseElements].
    destruct (parseValue f s) as [| |v1 r1] eqn:Pv; [discriminate | |].
    + exfalso. revert Pv. apply IHv. lia.
    + apply (proj1 (parse_progress f)) in Pv.
      destruct (skipWs r1) as [|c t] eqn:W; [discriminate|].
      apply skipWs_cons in W.
      destruct (c =? 44)%N; [apply IHe; lia|].
      destruct (c =? 93)%N; discriminate.
  - intros s acc L. cbn [parseMembers].
    destruct (skipWs s) as [|q t] eqn:W; [discriminate|].
    apply skipWs_cons in W.
    destruct (q =? 34)%N; [|discriminate].
    destruct (stringChars t []) as [[key r1]|] eqn:Sc; [|discriminate].
    apply (stringChars_length (List.length t)) in Sc; [|lia].
    destruct (skipWs r1) as [|colon r2] eqn:W1; [discriminate|].
    apply skipWs_cons in W1.
    destruct (colon =? 58)%N; [|discriminate].
    destruct (parseValue f r2) as [| |v1 r3] eqn:Pv; [discriminate | |].
    + exfalso. revert Pv. apply IHv. lia.
    + apply (proj1 (parse_progress f)) in Pv.
      destruct (skipWs r3) as [|c r4] eqn:W3; [discriminate|].
      apply skipWs_cons in W3.
      destruct (c =? 44)%N; [apply IHm; lia|].
      destruct (c =? 125)%N; discriminate.
Qed.

(** [JSON_parse] gives [None] only for a text that is not JSON: its fuel
    never runs out. *)
Lemma parseValue_fuel (text : jsstring) :
  parseValue (2 * List.length text + 1) text <> More.
Proof. apply (proj1 (parse_fuel (2 * List.length text + 1))). lia. Qed.

(** ** The timeout *)

Lemma timeoutOf_range (v : option jsstring) :
  (5000 <= timeoutOf v <= 3600000)%Z.
Proof.
  unfold timeoutOf.
  destruct (parseInt10 (orDefault v (u "3600000"))) as [n|]; [destruct (n =? 0)%Z|]; lia.
Qed.

Lemma timeoutOf_default (v : option jsstring) :
  unsetOrUnparsable v = true -> timeoutOf v = 3600000%Z.
Proof.
  unfold unsetOrUnparsable, timeoutOf.
  destruct v as [[|c r]|]; cbn [orDefault].
  - intros _. reflexivity.
  - destruct (parseInt10 (c :: r)); [discriminate | reflexivity].
  - intros _. reflexivity.
Qed.

(** C9.  Whatever the timeout variables hold, [CODEX_TIMEOUT] and
    [GEMINI_TIMEOUT] lie between 5000 and 3600000 milliseconds, and each is
    exactly 3600000 when its variable is unset or does not parse as a
    number. *)
Theorem timeout_clamped (e : ProcessEnv) :
  (5000 <= CODEX_TIMEOUT e <= 3600000)%Z /\
  (5000 <= GEMINI_TIMEOUT e <= 3600000)%Z /\
  (unsetOrUnparsable (OMC_CODEX_TIMEOUT e) = true -> CODEX_TIMEOUT e = 3600000%Z) /\
  (unsetOrUnparsable (OMC_GEMINI_TIMEOUT e) = true -> GEMINI_TIMEOUT e = 3600000%Z).
Proof.
  unfold CODEX_TIMEOUT, GEMINI_TIMEOUT.
  repeat split; try apply timeoutOf_range; apply timeoutOf_default.
Qed.

Lemma timeout_clamped_witness :
  unsetOrUnparsable (OMC_CODEX_TIMEOUT sampleEnv) = true /\
  unsetOrUnparsable (OMC_GEMINI_TIMEOUT sampleEnv) = true /\
  CODEX_TIMEOUT sampleEnv = 3600000%Z /\
  GEMINI_TIMEOUT sampleEnv = 3600000%Z.
Proof.
  split; [reflexivity | split; [reflexivity | split]].
  - apply (proj1 (proj2 (proj2 (timeout_clamped sampleEnv)))). reflexivity.
  - apply (proj2 (proj2 (proj2 (timeout_clamped sampleEnv)))). reflexivity.
Defined.

(** Values on both sides of the range, and zero, which is falsy. *)
Example timeout_examples :
  map timeoutOf [Some (u "0"); Some (u "-5"); Some (u "1"); Some (u "6000");
                 Some (u "99999999999"); Some (u " 7000ms"); Some []]
  = [3600000; 5000; 5000; 6000; 3600000; 7000; 3600000]%Z.
Proof. reflexivity. Qed.

(** ** At-most-once settlement *)

Lemma latch_at_most_once (S : Type) (on : Event -> S -> M S) (latch : S -> bool)
    (counts : Effect -> bool) :
  (forall e s, settles e = false -> exists s', on e s = ret s' /\ latch s' = latch s) ->
  (forall e s, settles e = true -> latch s = true -> on e s = ret s) ->
  (forall e s k, settles e = true -> latch (valueOf (on e s) k) = true) ->
  (forall e s k, (List.length (filter counts (effectsOf (on e s) k)) <= 1)%nat) ->
  SettlesAtMostOnce on latch counts.
Proof.
  intros D L G O. unfold SettlesAtMostOnce. repeat split.
  - exact G.
  - exact L.
  - apply (deliver_settled S on latch D L evs s k H).
  - apply (deliver_settled S on latch D L evs s k H).
  - intros evs s k. destruct (latch s) eqn:Ls.
    + destruct (deliver_settled S on latch D L evs s k Ls) as [E _].
      rewrite E. cbn. lia.
    + destruct (deliver_first S on latch D L G evs s k Ls)
        as [[_ [E _]] | [pre [e [post [s' [_ [_ [_ [_ [_ [E _]]]]]]]]]]].
      * rewrite E. cbn. lia.
      * rewrite E. apply O.
  - intros pre e post s k E. apply (deliver_after S on latch D L G pre e post s k E).
Qed.

(** Unfolds one callback down to its effects. *)
Ltac callback :=
  unfold executeCodex_on, executeCodex_onClose, executeCodex_onError,
    executeCodex_onStdinError, executeCodex_onTimeout,
    executeGemini_on, executeGemini_onClose, executeGemini_onError,
    executeGemini_onStdinError, executeGemini_onTimeout,
    executeCodexBackground_on, executeCodexBackground_onClose,
    executeCodexBackground_onError, executeCodexBackground_onStdinError,
    executeCodexBackground_onTimeout,
    executeGeminiBackground_on, executeGeminiBackground_onClose,
    executeGeminiBackground_onError, executeGeminiBackground_onStdinError,
    executeGeminiBackground_onTimeout, killGroup, resolve, reject.

Ltac branches :=
  repeat match goal with
         | |- context [if ?b then _ else _] => destruct b
         | |- context [match parseCodexOutput ?s with _ => _ end] =>
             destruct (parseCodexOutput s)
         end.

Section Settlement.
Context {num : NumberSemantics}.
Variable penv : ProcessEnv.
Variable w : World.

Ltac data_events :=
  intros [d|d|c|m|m|] s E; try discriminate; eexists; split; reflexivity.

Ltac latched_events latch :=
  intros [d|d|c|m|m|] s E L; try discriminate; callback; rewrite L; reflexivity.

Ltac latching_events latch :=
  intros [d|d|c|m|m|] s k E; try discriminate; callback;
  destruct (latch s) eqn:L; cbn [negb]; try exact L; branches; reflexivity.

Ltac one_resolution :=
  intros [d|d|c|m|m|] s k; callback; branches; cbn; lia.

Lemma executeCodex_data (e : Event) (s : Closure) :
  settles e = false ->
  exists s', executeCodex_on penv e s = ret s' /\ settled s' = settled s.
Proof. revert e s. data_events. Qed.

Lemma executeCodex_latched (e : Event) (s : Closure) :
  settles e = true -> settled s = true -> executeCodex_on penv e s = ret s.
Proof. revert e s. latched_events settled. Qed.

Lemma executeCodex_latching (e : Event) (s : Closure) (k : Counters) :
  settles e = true -> settled (valueOf (executeCodex_on penv e s) k) = true.
Proof. revert e s k. latching_events settled. Qed.

Lemma executeGemini_data (e : Event) (s : Closure) :
  settles e = false ->
  exists s', executeGemini_on penv e s = ret s' /\ settled s' = settled s.
Proof. revert e s. data_events. Qed.

Lemma executeGemini_latched (e : Event) (s : Closure) :
  settles e = true -> settled s = true -> executeGemini_on penv e s = ret s.
Proof. revert e s. latched_events settled. Qed.

Lemma executeGemini_latching (e : Event) (s : Closure) (k : Counters) :
  settles e = true -> settled (valueOf (executeGemini_on penv e s) k) = true.
Proof. revert e s k. latching_events settled. Qed.

Lemma executeCodexBackground_data (j : Job) (e : Event) (s : JobClosure) :
  settles e = false ->
  exists s', executeCodexBackground_on penv w j e s = ret s' /\ bg_settled s' = bg_settled s.
Proof. revert e s. data_events. Qed.

Lemma executeCodexBackground_latched (j : Job) (e : Event) (s : JobClosure) :
  settles e = true -> bg_settled s = true -> executeCodexBackground_on penv w j e s = ret s.
Proof. revert e s. latched_events bg_settled. Qed.

Lemma executeCodexBackground_latching (j : Job) (e : Event) (s : JobClosure) (k : Counters) :
  settles e = true -> bg_settled (valueOf (executeCodexBackground_on penv w j e s) k) = true.
Proof. revert e s k. latching_events bg_settled. Qed.

Lemma executeGeminiBackground_data (j : Job) (e : Event) (s : JobClosure) :
  settles e = false ->
  exists s', executeGeminiBackground_on penv w j e s = ret s' /\ bg_settled s' = bg_settled s.
Proof. revert e s. data_events. Qed.

Lemma executeGeminiBackground_latched (j : Job) (e : Event) (s : JobClosure) :
  settles e = true -> bg_settled s = true -> executeGeminiBackground_on penv w j e s = ret s.
Proof. revert e s. latched_events bg_settled. Qed.

Lemma executeGeminiBackground_latching (j : Job) (e : Event) (s : JobClosure) (k : Counters) :
  settles e = true -> bg_settled (valueOf (executeGeminiBackground_on penv w j e s) k) = true.
Proof. revert e s k. latching_events bg_settled. Qed.

Lemma executeCodex_settles :
  SettlesAtMostOnce (executeCodex_on penv) settled isSettlement.
Proof.
  apply latch_at_most_once.
  - exact executeCodex_data.
  - exact executeCodex_latched.
  - exact executeCodex_latching.
  - one_resolution.
Qed.

Lemma executeGemini_settles :
  SettlesAtMostOnce (executeGemini_on penv) settled isSettlement.
Proof.
  apply latch_at_most_once.
  - exact executeGemini_data.
  - exact executeGemini_latched.
  - exact executeGemini_latching.
  - one_resolution.
Qed.

Lemma executeCodexBackground_settles (j : Job) :
  SettlesAtMostOnce (executeCodexBackground_on penv w j) bg_settled isStatusWrite.
Proof.
  apply latch_at_most_once.
  - exact (executeCodexBackground_data j).
  - exact (executeCodexBackground_latched j).
  - exact (executeCodexBackground_latching j).
  - one_resolution.
Qed.

Lemma executeGeminiBackground_settles (j : Job) :
  SettlesAtMostOnce (executeGeminiBackground_on penv w j) bg_settled isStatusWrite.
Proof.
  apply latch_at_most_once.
  - exact (executeGeminiBackground_data j).
  - exact (executeGeminiBackground_latched j).
  - exact (executeGeminiBackground_latching j).
  - one_resolution.
Qed.

(** C1.  In [executeCodex], [executeGemini] and the two background
    supervisors, the timeout, close, spawn-error and stdin-error callbacks
    settle the operation at most once: each sets the latch, and once it is
    set every later event has no effect, so that no run of events resolves
    or rejects the promise twice, or writes two terminal statuses. *)
Theorem settlement_at_most_once :
  SettlesAtMostOnce (executeCodex_on penv) settled isSettlement /\
  SettlesAtMostOnce (executeGemini_on penv) settled isSettlement /\
  (forall j, SettlesAtMostOnce (executeCodexBackground_on penv w j) bg_settled isStatusWrite) /\
  (forall j, SettlesAtMostOnce (executeGeminiBackground_on penv w j) bg_settled isStatusWrite).
Proof.
  split; [exact executeCodex_settles|].
  split; [exact executeGemini_settles|].
  split; [exact executeCodexBackground_settles | exact executeGeminiBackground_settles].
Qed.

End Settlement.

(** ** The status records of a background job *)

Lemma terminalIsLast_spec (fx : list Effect) :
  terminalIsLast fx = true ->
  forall fx1 s fx2,
    fx = fx1 ++ WriteJobStatus s :: fx2 -> isTerminal (js_status s) = true -> fx2 = [].
Proof.
  induction fx as [|e r IH]; intros T fx1 s fx2 E Hs.
  - destruct fx1; discriminate.
  - destruct fx1 as [|e1 fx1]; cbn [app] in E; injection E as -> ->.
    + cbn in T. rewrite Hs in T. destruct fx2; [reflexivity | discriminate].
    + apply (IH) with (fx1 := fx1) (s := s); [|reflexivity | exact Hs].
      destruct e1; cbn in T; try exact T.
      destruct (isTerminal (js_status s0)); [|exact T].
      destruct fx1; discriminate.
Qed.

Lemma prefix_refl (A : Type) (l : list A) : prefix l l.
Proof. exists []. symmetry. apply app_nil_r. Qed.

Lemma prefix_app (A : Type) (l k : list A) : prefix l (l ++ k).
Proof. exists k. reflexivity. Qed.

Lemma prefix_nil (A : Type) (l : list A) : prefix [] l.
Proof. exists l. reflexivity. Qed.


Section StatusRecords.
Context {num : NumberSemantics}.
Variable penv : ProcessEnv.
Variable w : World.

Ltac job_writes :=
  intros E L; unfold jobWrites;
  match goal with e : Event |- _ => destruct e; try discriminate end;
  callback; rewrite L; cbn [negb]; branches; cbn; rewrite ?str_eqb_refl;
  (split; [reflexivity | first [left; reflexivity | right; eexists; split; reflexivity]]).

Lemma executeCodexBackground_writes (j : Job) (e : Event) (s : JobClosure) (k : Counters) :
  settles e = true -> bg_settled s = false ->
  jobWrites j (effectsOf (executeCodexBackground_on penv w j e s) k).
Proof. job_writes. Qed.

Lemma executeGeminiBackground_writes (j : Job) (e : Event) (s : JobClosure) (k : Counters) :
  settles e = true -> bg_settled s = false ->
  jobWrites j (effectsOf (executeGeminiBackground_on penv w j e s) k).
Proof. job_writes. Qed.

Lemma jobWrites_nil (j : Job) : jobWrites j [].
Proof. split; [reflexivity | left; reflexivity]. Qed.

Lemma runJob_writes (j : Job) (k : Counters) :
  jobWrites j (effectsOf (runJob penv w j) k).
Proof.
  unfold runJob. destruct (job_provider j).
  - destruct (deliver_first _ _ bg_settled
                (executeCodexBackground_data penv w j)
                (executeCodexBackground_latched penv w j)
                (executeCodexBackground_latching penv w j)
                (job_events j) newJobClosure k eq_refl)
      as [[_ [E _]] | [pre [e [post [s' [_ [_ [Se [Ls [_ [E _]]]]]]]]]]]; rewrite E.
    + apply jobWrites_nil.
    + apply executeCodexBackground_writes; assumption.
  - destruct (deliver_first _ _ bg_settled
                (executeGeminiBackground_data penv w j)
                (executeGeminiBackground_latched penv w j)
                (executeGeminiBackground_latching penv w j)
                (job_events j) newJobClosure k eq_refl)
      as [[_ [E _]] | [pre [e [post [s' [_ [_ [Se [Ls [_ [E _]]]]]]]]]]]; rewrite E.
    + apply jobWrites_nil.
    + apply executeGeminiBackground_writes; assumption.
Qed.

(** A settling callback that finds the latch unset writes its terminal
    status unless an exception leaves it. *)
Ltac job_completes :=
  intros E L;
  match goal with e : Event |- _ => destruct e; try discriminate end;
  callback; rewrite L; cbn [negb]; branches; cbn; rewrite ?str_eqb_refl;
  first [left; eexists; split; reflexivity | right; eexists; right; left; reflexivity].

Lemma executeCodexBackground_completes (j : Job) (e : Event) (s : JobClosure) (k : Counters) :
  settles e = true -> bg_settled s = false ->
  (exists t, statusWrites (js_jobId (job_initialStatus j))
               (effectsOf (executeCodexBackground_on penv w j e s) k) = [t]
             /\ isTerminal (js_status t) = true)
  \/ (exists m, In (Uncaught m) (effectsOf (executeCodexBackground_on penv w j e s) k)).
Proof. job_completes. Qed.

Lemma executeGeminiBackground_completes (j : Job) (e : Event) (s : JobClosure) (k : Counters) :
  settles e = true -> bg_settled s = false ->
  (exists t, statusWrites (js_jobId (job_initialStatus j))
               (effectsOf (executeGeminiBackground_on penv w j e s) k) = [t]
             /\ isTerminal (js_status t) = true)
  \/ (exists m, In (Uncaught m) (effectsOf (executeGeminiBackground_on penv w j e s) k)).
Proof. job_completes. Qed.

Lemma not_all_data (evs : list Event) :
  existsb settles evs = true -> forallb (fun e => negb (settles e)) evs = true -> False.
Proof.
  induction evs as [|e r IH]; cbn; [discriminate|].
  destruct (settles e); cbn; [discriminate | exact IH].
Qed.

Lemma runJob_completes (j : Job) (k : Counters) :
  existsb settles (job_events j) = true ->
  (exists t, statusWrites (js_jobId (job_initialStatus j)) (effectsOf (runJob penv w j) k) = [t]
             /\ isTerminal (js_status t) = true)
  \/ (exists m, In (Uncaught m) (effectsOf (runJob penv w j) k)).
Proof.
  intros X. unfold runJob. destruct (job_provider j).
  - destruct (deliver_first _ _ bg_settled
                (executeCodexBackground_data penv w j)
                (executeCodexBackground_latched penv w j)
                (executeCodexBackground_latching penv w j)
                (job_events j) newJobClosure k eq_refl)
      as [[F _] | [pre [e [post [s' [_ [_ [Se [Ls [_ [E _]]]]]]]]]]].
    + destruct (not_all_data _ X F).
    + rewrite E. apply executeCodexBackground_completes; assumption.
  - destruct (deliver_first _ _ bg_settled
                (executeGeminiBackground_data penv w j)
                (executeGeminiBackground_latched penv w j)
                (executeGeminiBackground_latching penv w j)
                (job_events j) newJobClosure k eq_refl)
      as [[F _] | [pre [e [post [s' [_ [_ [Se [Ls [_ [E _]]]]]]]]]]].
    + destruct (not_all_data _ X F).
    + rewrite E. apply executeGeminiBackground_completes; assumption.
Qed.

End StatusRecords.

Lemma statusWrites_app (id : jsstring) (a b : list Effect) :
  statusWrites id (a ++ b) = statusWrites id a ++ statusWrites id b.
Proof.
  induction a as [|e a IH]; [reflexivity|].
  destruct e; cbn; try exact IH.
  destruct (str_eqb (js_jobId s) id); cbn; rewrite IH; reflexivity.
Qed.

Lemma terminalIsLast_app (a b : list Effect) :
  forallb (fun e => match e with
                    | WriteJobStatus s => negb (isTerminal (js_status s))
                    | _ => true
                    end) a = true ->
  terminalIsLast b = true -> terminalIsLast (a ++ b) = true.
Proof.
  intros A B. induction a as [|e a IH]; [exact B|].
  cbn in A. apply andb_true_iff in A. destruct A as [A1 A2].
  destruct e; cbn; try (apply IH; exact A2).
  destruct (isTerminal (js_status s)); [discriminate | apply IH; exact A2].
Qed.

Section StatusSequence.
Context {num : NumberSemantics}.
Variable penv : ProcessEnv.
Variable w : World.

Lemma discipline_of_job (id : jsstring) (pre jfx : list Effect) (j : Job) (r : BackgroundResult) :
  js_jobId (job_initialStatus j) = id ->
  map js_status (statusWrites id pre) = [spawned; running] ->
  forallb (fun e => match e with
                    | WriteJobStatus s => negb (isTerminal (js_status s))
                    | Uncaught _ => false
                    | _ => true
                    end) pre = true ->
  jobWrites j jfx ->
  ((exists t, statusWrites id jfx = [t] /\ isTerminal (js_status t) = true)
   \/ (exists m, In (Uncaught m) jfx) \/ existsb settles (job_events j) = false) ->
  let fx := pre ++ jfx in
  (exists t, isTerminal t = true /\
             prefix (map js_status (statusWrites id fx)) [spawned; running; t]) /\
  (List.length (filter (fun s => isTerminal (js_status s)) (statusWrites id fx)) <= 1)%nat /\
  (forall fx1 s fx2,
     fx = fx1 ++ WriteJobStatus s :: fx2 -> isTerminal (js_status s) = true -> fx2 = []) /\
  (existsb settles (job_events j) = true ->
   (forall m, ~ In (Uncaught m) fx) ->
   exists t, isTerminal t = true /\
             map js_status (statusWrites id fx) = [spawned; running; t]).
Proof.
  intros Hid Hpre Hnt [Hlast Hw] Hc fx. subst fx. rewrite Hid in Hw.
  assert (Hfilter : filter (fun s => isTerminal (js_status s)) (statusWrites id pre) = []).
  { destruct (statusWrites id pre) as [|a [|b [|c l]]]; try discriminate.
    cbn in Hpre. injection Hpre as Ha Hb. cbn. rewrite Ha, Hb. reflexivity. }
  repeat split.
  - rewrite statusWrites_app, map_app, Hpre.
    destruct Hw as [-> | [s [-> Hs]]].
    + exists completed. split; [reflexivity | exists [completed]; reflexivity].
    + exists (js_status s). split; [exact Hs | apply prefix_refl].
  - rewrite statusWrites_app, filter_app, Hfilter.
    destruct Hw as [-> | [s [-> Hs]]]; cbn; [lia|].
    destruct (isTerminal (js_status s)); cbn; lia.
  - apply terminalIsLast_spec. apply terminalIsLast_app; [|exact Hlast].
    clear -Hnt. induction pre as [|e pre IH]; [reflexivity|].
    cbn in Hnt. apply andb_true_iff in Hnt. destruct Hnt as [H1 H2].
    cbn. rewrite (IH H2). destruct e; try reflexivity; try discriminate.
    rewrite H1. reflexivity.
  - intros X U. rewrite statusWrites_app, map_app, Hpre.
    destruct Hc as [[t [-> Ht]] | [[m Hm] | N]].
    + exists (js_status t). split; [exact Ht | reflexivity].
    + exfalso. apply (U m). apply in_or_app. right. exact Hm.
    + congruence.
Qed.

End StatusSequence.

Section StatusTheorem.
Context {num : NumberSemantics}.
Variable penv : ProcessEnv.
Variable w : World.

Ltac supervisor_call k :=
  intros fullPrompt model jobMeta k;
  unfold executeCodexBackground, executeGeminiBackground;
  rewrite ?valueOf_bind, ?effectsOf_bind;
  match goal with
  | |- context [valueOf (spawn w ?c ?a ?d) k] =>
      change (valueOf (spawn w c a d) k) with (spawnResult w (spawns k));
      change (effectsOf (spawn w c a d) k) with [Spawn c a d];
      generalize (countersOf (spawn w c a d) k); intros k1
  end;
  destruct (spawnResult w (spawns k)) as [err | child];
  [ | destruct (child_pid child) as [pid|]; [destruct (pid =? 0)%Z | ] ];
  first [ left; do 2 eexists; repeat split; reflexivity
        | right; do 7 eexists;
          rewrite ?valueOf_bind, ?effectsOf_bind;
          repeat split; reflexivity ].

Lemma executeCodexBackground_call : supervisorCall (executeCodexBackground penv w).
Proof. supervisor_call k. Qed.

Lemma executeGeminiBackground_call : supervisorCall (executeGeminiBackground penv w).
Proof. supervisor_call k. Qed.

Lemma discipline_of_call
    (sup : jsstring -> jsstring -> BackgroundJobMeta -> M (BackgroundResult * option Job)) :
  supervisorCall sup -> StatusDiscipline penv w sup.
Proof.
  intros C fullPrompt model jobMeta k id call fx. subst id call fx.
  unfold thenEvents. rewrite effectsOf_bind.
  destruct (C fullPrompt model jobMeta k)
    as [[err [sp [V [E S]]]] | [pid [j [sp [s1 [ms [inp [s2 H]]]]]]]].
  - rewrite V, E. cbn [fst snd]. destruct sp; try discriminate. cbn.
    repeat split.
    + exists completed. split; [reflexivity | apply prefix_nil].
    + lia.
    + intros fx1 s fx2 F. destruct fx1 as [|a [|b l]]; discriminate.
    + intros j F. discriminate.
  - destruct H as [V [E [S [J [I1 [St1 [I2 St2]]]]]]].
    rewrite V, E. cbn [fst snd]. rewrite effectsOf_bind.
    change (effectsOf (ret (BgPid pid)) _) with (@nil Effect). rewrite app_nil_r.
    assert (P : map js_status
                  (statusWrites (meta_jobId jobMeta)
                     [sp; Unref; WriteJobStatus s1; SetTimeout ms; StdinWrite inp;
                      StdinEnd; WriteJobStatus s2]) = [spawned; running]).
    { destruct sp; try discriminate. cbn. rewrite I1, I2, str_eqb_refl. cbn.
      rewrite St1, St2. reflexivity. }
    split; [exact P|].
    pose proof (discipline_of_job (meta_jobId jobMeta)
                  [sp; Unref; WriteJobStatus s1; SetTimeout ms; StdinWrite inp;
                   StdinEnd; WriteJobStatus s2]
                  (effectsOf (runJob penv w j)
                     (countersOf (sup fullPrompt model jobMeta) k)) j (BgPid pid) J P) as D.
    cbv zeta in D.
    assert (Hnt : forallb (fun e => match e with
                    | WriteJobStatus s => negb (isTerminal (js_status s))
                    | Uncaught _ => false
                    | _ => true
                    end)
                    [sp; Unref; WriteJobStatus s1; SetTimeout ms; StdinWrite inp;
                     StdinEnd; WriteJobStatus s2] = true).
    { destruct sp; try discriminate. cbn. rewrite St1, St2. reflexivity. }
    specialize (D Hnt (runJob_writes penv w j _)).
    assert (Hc : (exists t, statusWrites (meta_jobId jobMeta)
                      (effectsOf (runJob penv w j)
                         (countersOf (sup fullPrompt model jobMeta) k)) = [t]
                    /\ isTerminal (js_status t) = true)
                 \/ (exists m, In (Uncaught m)
                      (effectsOf (runJob penv w j)
                         (countersOf (sup fullPrompt model jobMeta) k)))
                 \/ existsb settles (job_events j) = false).
    { destruct (existsb settles (job_events j)) eqn:X; [|right; right; reflexivity].
      rewrite <- J.
      destruct (runJob_completes penv w j (countersOf (sup fullPrompt model jobMeta) k) X)
        as [T | U]; [left; exact T | right; left; exact U]. }
    specialize (D Hc). destruct D as [D1 [D2 [D3 D4]]].
    repeat split; try assumption.
    intros j' F X U. injection F as <-. apply D4; assumption.
Qed.

(** The status discipline of both background supervisors, for every
    behaviour of the child: the call writes [spawned] and then [running]
    before any event is delivered; the status records of the job id are a
    prefix of [spawned], [running], one terminal status; at most one
    terminal status is written, and the job has no effect after it.  The
    terminal status is there once a settling event is delivered, unless a
    callback is left by an exception. *)
Theorem status_sequence :
  StatusDiscipline penv w (executeCodexBackground penv w) /\
  StatusDiscipline penv w (executeGeminiBackground penv w).
Proof.
  split; apply discipline_of_call.
  - exact executeCodexBackground_call.
  - exact executeGeminiBackground_call.
Qed.

End StatusTheorem.

Lemma settlement_at_most_once_witness :
  settles OnTimeout = true /\
  effectsOf
    (deliver (@executeCodex_on literalNumbers sampleEnv)
       ([OnStdout (u "partial")] ++ OnTimeout :: [OnClose (Some 0%Z); OnError (u "late")])
       newClosure) start
  = [ChildKill; Reject (u "Codex timed out after 3600000ms")].
Proof.
  split; [reflexivity|].
  rewrite (proj2 (proj2 (proj2 (proj2
             (proj1 (@settlement_at_most_once literalNumbers sampleEnv lateWorld)))))
             [OnStdout (u "partial")] OnTimeout [OnClose (Some 0%Z); OnError (u "late")]
             newClosure start eq_refl).
  reflexivity.
Defined.

Lemma status_sequence_witness :
  existsb settles [OnStdout (u "partial"); OnTimeout; OnClose (Some 0%Z)] = true /\
  exists t,
    isTerminal t = true /\
    map js_status
      (statusWrites (u "id1")
         (effectsOf
            (@thenEvents literalNumbers sampleEnv lateWorld
               (executeCodexBackground sampleEnv lateWorld (u "p") (u "m") (sampleMeta codex)))
            start))
    = [spawned; running; t].
Proof.
  split; [reflexivity|].
  apply (proj2 (proj2 (proj2 (proj2
           (proj1 (@status_sequence literalNumbers sampleEnv lateWorld)
              (u "p") (u "m") (sampleMeta codex) start))))
           (sampleJob codex [OnStdout (u "partial"); OnTimeout; OnClose (Some 0%Z)])).
  - reflexivity.
  - reflexivity.
  - intros m. vm_compute. intros H.
    repeat (destruct H as [H|H]; [discriminate H|]). exact H.
Defined.

(** A child that exits with code 0 after the timeout fired: the job is
    [timeout], and the late exit writes nothing. *)
Example late_exit_after_timeout :
  map js_status
    (statusWrites (u "id1")
       (effectsOf
          (@thenEvents literalNumbers sampleEnv lateWorld
             (executeGeminiBackground sampleEnv lateWorld (u "p") (u "m") (sampleMeta gemini)))
          start))
  = [spawned; running; timeout].
Proof. vm_compute. reflexivity. Qed.

(** C2.  A job of Codex whose child prints one record with an object as
    its text and exits with code 0 never gets a terminal status.  The close
    callback sets the latch and clears the timer, then the decoder throws at
    [messages.join]: neither the response nor a status is written, the
    records of the job stay [spawned], [running], and the latch keeps every
    later event from writing one.  The same child under the supervisor of
    Gemini, which does not decode, is [completed]. *)
Theorem terminal_status_missing :
  existsb settles [OnStdout throwingOutput; OnClose (Some 0%Z)] = true /\
  map js_status
    (statusWrites (u "id1")
       (effectsOf
          (@thenEvents literalNumbers sampleEnv throwingWorld
             (executeCodexBackground sampleEnv throwingWorld (u "p") (u "m")
                (sampleMeta codex)))
          start))
  = [spawned; running] /\
  filter (fun e => isPersistResponse e || isUncaught e)
    (effectsOf
       (@thenEvents literalNumbers sampleEnv throwingWorld
          (executeCodexBackground sampleEnv throwingWorld (u "p") (u "m")
             (sampleMeta codex)))
       start)
  = [Uncaught (u "Cannot convert object to primitive value")] /\
  effectsOf
    (@runJob literalNumbers sampleEnv throwingWorld
       (sampleJob codex [OnStdout throwingOutput; OnClose (Some 0%Z); OnTimeout;
                         OnError (u "late")]))
    start
  = [ClearTimeout; Uncaught (u "Cannot convert object to primitive value")] /\
  map js_status
    (statusWrites (u "id1")
       (effectsOf
          (@thenEvents literalNumbers sampleEnv throwingWorld
             (executeGeminiBackground sampleEnv throwingWorld (u "p") (u "m")
                (sampleMeta gemini)))
          start))
  = [spawned; running; completed].
Proof. repeat split; vm_compute; reflexivity. Qed.

(** ** How a close event is classified *)

Section Classification.
Context {num : NumberSemantics}.
Variable penv : ProcessEnv.
Variable w : World.


(** C10.  A close with a non-zero exit code (or none) and an output that is
    empty or all white space is a failure in the two executors and the two
    supervisors: the promise is rejected, the job is written [failed]. *)
Theorem blank_output_fails (code : option Z) (s e : jsstring) (j : Job) (k : Counters) :
  isZeroCode code = false ->
  Forall (fun c => isStrWhiteSpace c = true) s ->
  promise (valueOf (executeCodex_onClose code (atClose s e)) k)
  = Rejected (u "Codex exited with code " ++ showCode code ++ u ": "
                ++ orStr e (u "No output")) /\
  promise (valueOf (executeGemini_onClose code (atClose s e)) k)
  = Rejected (u "Gemini exited with code " ++ showCode code ++ u ": "
                ++ orStr e (u "No output")) /\
  effectsOf (executeCodexBackground_onClose w j code (bgAtClose s e)) k
  = [ClearTimeout;
     WriteJobStatus
       (withStatus (job_initialStatus j) failed (Some (clock w (clockReads k)))
          (Some (u "Codex exited with code " ++ showCode code ++ u ": "
                   ++ orStr e (u "No output"))))] /\
  effectsOf (executeGeminiBackground_onClose w j code (bgAtClose s e)) k
  = [ClearTimeout;
     WriteJobStatus
       (withStatus (job_initialStatus j) failed (Some (clock w (clockReads k)))
          (Some (u "Gemini exited with code " ++ showCode code ++ u ": "
                   ++ orStr e (u "No output"))))].
Proof.
  intros C B. apply trim_nil in B.
  unfold executeCodex_onClose, executeGemini_onClose,
    executeCodexBackground_onClose, executeGeminiBackground_onClose, atClose, bgAtClose.
  cbn [settled negb stdout stderr settle promise bg_settled bg_stdout bg_stderr bgSettle].
  rewrite C, B. cbn [truthy_str orb].
  repeat split.
Qed.

End Classification.



Lemma blank_output_fails_witness :
  isZeroCode (Some 1%Z) = false /\
  Forall (fun c => isStrWhiteSpace c = true) (u " " ++ [LF]) /\
  promise (valueOf (executeGemini_onClose (Some 1%Z) (atClose (u " " ++ [LF]) [])) start)
  = Rejected (u "Gemini exited with code 1: No output").
Proof.
  split; [reflexivity|].
  assert (B : Forall (fun c => isStrWhiteSpace c = true) (u " " ++ [LF]))
    by (repeat constructor).
  split; [exact B|].
  apply (@blank_output_fails literalNumbers (sampleWorld (fun _ => childWith []))
           (Some 1%Z) (u " " ++ [LF]) [] (sampleJob gemini []) start eq_refl B).
Defined.

(** ** The output decoder *)

Section DecoderProperties.
Context {num : NumberSemantics}.

Lemma pushIfTruthy_app (x : option value) (acc : list value) :
  pushIfTruthy x acc = acc ++ pushIfTruthy x [].
Proof.
  unfold pushIfTruthy. destruct x as [v|]; [|symmetry; apply app_nil_r].
  destruct (truthy (Some v)); [reflexivity | symmetry; apply app_nil_r].
Qed.

Lemma forParts_app (parts acc : list value) :
  forParts parts acc = (acc ++ fst (forParts parts []), snd (forParts parts [])).
Proof.
  revert acc. induction parts as [|part rest IH]; intros acc; cbn [forParts].
  - cbn. rewrite app_nil_r. reflexivity.
  - destruct (getProp part (u "type")) as [ty|]; [|cbn; rewrite app_nil_r; reflexivity].
    destruct (strictEqStr ty (u "text")); [|apply IH].
    destruct (getProp part (u "text")) as [tx|]; [|cbn; rewrite app_nil_r; reflexivity].
    rewrite (IH (pushIfTruthy tx acc)), (IH (pushIfTruthy tx [])).
    cbn [fst snd]. rewrite (pushIfTruthy_app tx acc), app_assoc. reflexivity.
Qed.

Lemma onMessage_app (event : value) (ty : option value) (acc : list value) :
  onMessage event ty acc
  = (acc ++ fst (onMessage event ty []), snd (onMessage event ty [])).
Proof.
  unfold onMessage.
  destruct (strictEqStr ty (u "message")); [|cbn; rewrite app_nil_r; reflexivity].
  destruct (getProp event (u "content")) as [content|];
    [|cbn; rewrite app_nil_r; reflexivity].
  destruct (truthy content); [|cbn; rewrite app_nil_r; reflexivity].
  destruct content as [[| | | s0 | parts | ]|];
    try (cbn; rewrite app_nil_r; reflexivity).
  - reflexivity.
  - apply forParts_app.
Qed.

Lemma onOutputText_app (event : value) (ty : option value) (acc : list value) :
  onOutputText event ty acc = acc ++ onOutputText event ty [].
Proof.
  unfold onOutputText.
  destruct (strictEqStr ty (u "output_text")); [|symmetry; apply app_nil_r].
  destruct (getProp event (u "text")) as [tx|]; [|symmetry; apply app_nil_r].
  apply pushIfTruthy_app.
Qed.

Lemma tryLine_app (acc : list value) (line : jsstring) :
  tryLine acc line = acc ++ tryLine [] line.
Proof.
  unfold tryLine.
  destruct (JSON_parse line) as [event|]; [|symmetry; apply app_nil_r].
  destruct (getProp event (u "type")) as [ty|]; [|symmetry; apply app_nil_r].
  cbv zeta. rewrite (onMessage_app event ty acc). cbn [fst snd].
  destruct (snd (onMessage event ty [])); [reflexivity|].
  rewrite onOutputText_app, (onOutputText_app event ty (fst _)), app_assoc.
  reflexivity.
Qed.

Lemma fold_tryLine (lines : list jsstring) (acc : list value) :
  fold_left tryLine lines acc = acc ++ flat_map (tryLine []) lines.
Proof.
  revert acc. induction lines as [|l r IH]; intros acc; cbn.
  - symmetry. apply app_nil_r.
  - rewrite IH, (tryLine_app acc l), app_assoc. reflexivity.
Qed.

(** The messages are those of the lines, in the order of the lines. *)
Lemma collectMessages_lines (output : jsstring) :
  collectMessages output = flat_map (tryLine []) (outputLines output).
Proof. unfold collectMessages. apply fold_tryLine. Qed.

Lemma pushIfTruthy_truthy (x : option value) (acc : list value) :
  allTruthy acc -> allTruthy (pushIfTruthy x acc).
Proof.
  intros A. unfold pushIfTruthy. destruct x as [v|]; [|exact A].
  destruct (truthy (Some v)) eqn:T; [|exact A].
  apply Forall_app. split; [exact A | constructor; [exact T | constructor]].
Qed.

Lemma forParts_truthy (parts acc : list value) :
  allTruthy acc -> allTruthy (fst (forParts parts acc)).
Proof.
  revert acc. induction parts as [|part rest IH]; intros acc A; cbn [forParts].
  - exact A.
  - destruct (getProp part (u "type")) as [ty|]; [|exact A].
    destruct (strictEqStr ty (u "text")); [|apply IH; exact A].
    destruct (getProp part (u "text")) as [tx|]; [|exact A].
    apply IH. apply pushIfTruthy_truthy. exact A.
Qed.

Lemma tryLine_truthy (acc : list value) (line : jsstring) :
  allTruthy acc -> allTruthy (tryLine acc line).
Proof.
  intros A. unfold tryLine.
  destruct (JSON_parse line) as [event|]; [|exact A].
  destruct (getProp event (u "type")) as [ty|]; [|exact A].
  cbv zeta.
  assert (B : allTruthy (fst (onMessage event ty acc))).
  { unfold onMessage.
    destruct (strictEqStr ty (u "message")); [|exact A].
    destruct (getProp event (u "content")) as [content|]; [|exact A].
    destruct (truthy content) eqn:T; [|exact A].
    destruct content as [[| | | s0 | parts | ]|]; try exact A.
    - apply Forall_app. split; [exact A | constructor; [exact T | constructor]].
    - apply forParts_truthy. exact A. }
  destruct (snd (onMessage event ty acc)); [exact B|].
  unfold onOutputText.
  destruct (strictEqStr ty (u "output_text")); [|exact B].
  destruct (getProp event (u "text")) as [tx|]; [|exact B].
  apply pushIfTruthy_truthy. exact B.
Qed.

Lemma collectMessages_truthy (output : jsstring) : allTruthy (collectMessages output).
Proof.
  unfold collectMessages.
  assert (G : forall lines acc, allTruthy acc -> allTruthy (fold_left tryLine lines acc)).
  { induction lines as [|l r IH]; intros acc A; [exact A|].
    cbn. apply IH. apply tryLine_truthy. exact A. }
  apply G. constructor.
Qed.

Lemma arrayJoin_strings (sep : jsstring) (texts : list jsstring) :
  arrayJoin sep (map Str texts) = Return (join sep texts).
Proof.
  induction texts as [|t r IH]; [reflexivity|].
  cbn [map arrayJoin toString]. destruct r as [|t' r]; [reflexivity|].
  cbn [map] in *. rewrite IH. reflexivity.
Qed.

Lemma join_nonempty (sep : jsstring) (texts : list jsstring) :
  Forall (fun t => t <> []) texts -> texts <> [] -> join sep texts <> [].
Proof.
  intros F N. destruct texts as [|t r]; [contradiction|].
  inversion F as [|? ? Ht _]; subst.
  destruct t as [|c t]; [contradiction|].
  destruct r; cbn; discriminate.
Qed.

(** A join of segments none of which is an array or an object returns a
    string. *)
Lemma arrayJoin_primitives (sep : jsstring) (l : list value) :
  Forall (fun v => match v with Array _ | Object _ => False | _ => True end) l ->
  exists joined, arrayJoin sep l = Return joined.
Proof.
  induction 1 as [|x r Hx Hr [jr IH]]; [exists []; reflexivity|].
  cbn [arrayJoin].
  assert (X : exists sx, match x with Null => Return [] | _ => toString x end = Return sx).
  { destruct x as [|[|]| | | |]; try contradiction; eexists; reflexivity. }
  destruct X as [sx ->].
  destruct r as [|y t]; [exists sx; reflexivity|].
  rewrite IH. eexists. reflexivity.
Qed.

(** C6, as the code has it.  Whenever the collected segments join to a
    string, as they do when none of them is an array or an object: the
    decoder returns its input unchanged when no segment was collected, and
    whenever the segments join to the empty string; it returns the joined
    segments otherwise.  Segments that are strings are never empty, so if
    all are strings and there is at least one, the result is their join,
    which is not empty.  The segments are those of the lines, in the order
    of the lines. *)
Theorem decoder_result (s : jsstring) :
  (collectMessages s = [] -> parseCodexOutput s = Return s) /\
  (forall joined, arrayJoin [LF] (collectMessages s) = Return joined ->
     parseCodexOutput s = Return (match joined with [] => s | _ :: _ => joined end)) /\
  (forall texts, collectMessages s = map Str texts -> texts <> [] ->
     join [LF] texts <> [] /\ parseCodexOutput s = Return (join [LF] texts)) /\
  collectMessages s = flat_map (tryLine []) (outputLines s) /\
  (Forall (fun v => match v with Array _ | Object _ => False | _ => True end)
     (collectMessages s) ->
   exists joined, arrayJoin [LF] (collectMessages s) = Return joined).
Proof.
  unfold parseCodexOutput. split; [|split; [|split; [|split]]].
  - intros ->. reflexivity.
  - intros joined ->. destruct joined; reflexivity.
  - intros texts H H0.
    assert (N : join [LF] texts <> []).
    { revert H0. apply join_nonempty.
      pose proof (collectMessages_truthy s) as T. rewrite H in T.
      clear -T. induction texts as [|t r IH]; [constructor|].
      inversion T as [|? ? Ht Tr]; subst. constructor; [|apply IH; exact Tr].
      intros ->. discriminate Ht. }
    split; [exact N|].
    rewrite H, arrayJoin_strings.
    destruct (join [LF] texts); [contradiction | reflexivity].
  - apply collectMessages_lines.
  - apply arrayJoin_primitives.
Qed.

End DecoderProperties.

(** C6, as the specification states it, fails: the line
    [{"type":"output_text","text":[]}] contributes one segment, the empty
    array; the segments join to the empty string, and the decoder returns
    the input, not the join. *)
Lemma empty_array_segment :
  @collectMessages literalNumbers (uq "{'type':'output_text','text':[]}") = [Array []] /\
  @arrayJoin literalNumbers [LF] [Array []] = Return [] /\
  @parseCodexOutput literalNumbers (uq "{'type':'output_text','text':[]}")
  = Return (uq "{'type':'output_text','text':[]}") /\
  uq "{'type':'output_text','text':[]}" <> [].
Proof. repeat split; try reflexivity. discriminate. Qed.

Lemma decoder_result_witness :
  @collectMessages literalNumbers twoRecords = map Str [u "a"; u "b"] /\
  [u "a"; u "b"] <> [] /\
  @parseCodexOutput literalNumbers twoRecords = Return (u "a" ++ [LF] ++ u "b") /\
  @collectMessages literalNumbers (u "not json at all") = [] /\
  @parseCodexOutput literalNumbers (u "not json at all") = Return (u "not json at all").
Proof.
  split; [reflexivity|]. split; [discriminate|].
  split.
  - apply (proj2 (proj1 (proj2 (proj2 (@decoder_result literalNumbers twoRecords)))
                    [u "a"; u "b"] eq_refl ltac:(discriminate))).
  - split; [reflexivity|].
    apply (proj1 (@decoder_result literalNumbers (u "not json at all")) eq_refl).
Defined.

(** A text that is an object with a member named [toString] cannot be
    converted to a string: the join throws, the decoder with it, and the
    close callback of [executeCodex] is left by the exception after it set
    the latch, with the promise still pending. *)
Example decoder_throws :
  @parseCodexOutput literalNumbers (uq "{'type':'output_text','text':{'toString':1}}")
  = Throw (u "Cannot convert object to primitive value") /\
  @executeCodex_onClose literalNumbers (Some 0%Z)
     (atClose (uq "{'type':'output_text','text':{'toString':1}}") []) start
  = ({| settled := true;
        stdout := uq "{'type':'output_text','text':{'toString':1}}";
        stderr := [];
        promise := Pending |},
     start,
     [ClearTimeout; Uncaught (u "Cannot convert object to primitive value")]).
Proof. split; vm_compute; reflexivity. Qed.

(** ** Role validation *)

Lemma existsb_str_eqb (s : jsstring) (l : list jsstring) :
  existsb (str_eqb s) l = true <-> In s l.
Proof.
  rewrite existsb_exists. split.
  - intros [x [I E]]. apply str_eqb_eq in E. subst. exact I.
  - intros I. exists s. split; [exact I | apply str_eqb_refl].
Qed.

Lemma validRole_false (roles : list jsstring) (r : option jsstring) :
  invalidRole roles r -> validRole roles r = false.
Proof.
  destruct r as [s|]; cbn; [|reflexivity].
  intros N. destruct (existsb (str_eqb s) roles) eqn:E.
  - apply existsb_str_eqb in E. contradiction.
  - apply andb_false_r.
Qed.

Lemma validRole_true (roles : list jsstring) (r : option jsstring) :
  validRole roles r = true -> exists s, r = Some s /\ In s roles.
Proof.
  destruct r as [s|]; cbn; [|discriminate].
  intros V. apply andb_true_iff in V. destruct V as [_ V].
  exists s. split; [reflexivity | apply existsb_str_eqb; exact V].
Qed.

Section RoleValidation.
Context {num : NumberSemantics}.
Variable penv : ProcessEnv.
Variable w : World.

(** C7.  A request whose role is missing or outside the valid set of the
    provider is answered at once with an error result: the handler has no
    effect at all (no process is spawned, the CLI is not detected, no file
    is read, no prompt is persisted) and leaves no job. *)
Theorem invalid_role_rejected (args : AskArgs) (k : Counters) :
  (invalidRole CODEX_VALID_ROLES (agent_role args) ->
   handleAskCodex penv w args k
   = (Returns
        (errorResult
           (u "Invalid agent_role: " ++ [quote] ++ roleText (agent_role args) ++ [quote]
              ++ u ". Codex requires one of: " ++ join (u ", ") CODEX_VALID_ROLES))
        None, k, [])) /\
  (invalidRole GEMINI_VALID_ROLES (agent_role args) ->
   forall fallbacks,
     handleAskGeminiWith penv w fallbacks args k
     = (Returns
          (errorResult
             (u "Invalid agent_role: " ++ [quote] ++ roleText (agent_role args) ++ [quote]
                ++ u ". Gemini requires one of: " ++ join (u ", ") GEMINI_VALID_ROLES))
          None, k, [])).
Proof.
  split.
  - intros I. apply validRole_false in I. unfold handleAskCodex. rewrite I.
    reflexivity.
  - intros I fallbacks. apply validRole_false in I. unfold handleAskGeminiWith. rewrite I.
    reflexivity.
Qed.

End RoleValidation.

Lemma invalid_role_rejected_witness :
  invalidRole CODEX_VALID_ROLES (Some (u "designer")) /\
  invalidRole GEMINI_VALID_ROLES None /\
  effectsOf
    (@handleAskCodex literalNumbers sampleEnv (sampleWorld (fun _ => childWith []))
       {| prompt := u "hi"; agent_role := Some (u "designer"); model := None;
          files := None; background := true |}) start = [] /\
  handleAskGemini sampleEnv (sampleWorld (fun _ => childWith []))
    {| prompt := u "hi"; agent_role := None; model := None;
       files := Some [u "a.txt"]; background := false |} start
  = (Returns
       (errorResult
          (u "Invalid agent_role: " ++ [quote] ++ u "undefined" ++ [quote]
             ++ u ". Gemini requires one of: designer, writer, vision"))
       None, start, []).
Proof.
  assert (A : invalidRole CODEX_VALID_ROLES (Some (u "designer"))).
  { cbn. intros H. repeat (destruct H as [H|H]; [discriminate H|]). exact H. }
  split; [exact A|]. split; [exact I|]. split.
  - unfold effectsOf.
    rewrite (proj1 (@invalid_role_rejected literalNumbers sampleEnv
                      (sampleWorld (fun _ => childWith []))
                      {| prompt := u "hi"; agent_role := Some (u "designer"); model := None;
                         files := None; background := true |} start) A).
    reflexivity.
  - apply (proj2 (@invalid_role_rejected literalNumbers sampleEnv
                    (sampleWorld (fun _ => childWith []))
                    {| prompt := u "hi"; agent_role := None; model := None;
                       files := Some [u "a.txt"]; background := false |} start) I).
Defined.

(** ** The fallback chain *)

Lemma indexOf_Some (x : jsstring) (l : list jsstring) (i : nat) :
  indexOf x l = Some i <->
  nth_error l i = Some x /\ (forall j, (j < i)%nat -> nth_error l j <> Some x).
Proof.
  revert i. induction l as [|y r IH]; intros i; cbn [indexOf].
  - split; [discriminate | intros [H _]; destruct i; discriminate].
  - destruct (str_eqb y x) eqn:E.
    + apply str_eqb_eq in E. subst y. split.
      * intros H. injection H as <-. split; [reflexivity | intros j Hj; lia].
      * intros [H F]. destruct i as [|i]; [reflexivity|].
        exfalso. apply (F 0%nat); [lia | reflexivity].
    + apply str_eqb_neq in E. split.
      * destruct (indexOf x r) as [i'|] eqn:I; [|discriminate].
        intros H. injection H as <-.
        destruct (proj1 (IH i') eq_refl) as [N F]. split; [exact N|].
        intros [|j] Hj; cbn; [congruence | apply F; lia].
      * intros [H F]. destruct i as [|i]; [cbn in H; congruence|].
        cbn in H.
        assert (I : indexOf x r = Some i).
        { apply IH. split; [exact H|]. intros j Hj. apply (F (S j)). lia. }
        rewrite I. reflexivity.
Qed.

Lemma indexOf_None (x : jsstring) (l : list jsstring) :
  indexOf x l = None <-> ~ In x l.
Proof.
  induction l as [|y r IH]; cbn [indexOf In].
  - split; [intros _ [] | reflexivity].
  - destruct (str_eqb y x) eqn:E.
    + apply str_eqb_eq in E. split; [discriminate | intros N; exfalso; apply N; left; exact E].
    + apply str_eqb_neq in E. destruct (indexOf x r) as [i|].
      * split; [discriminate|]. intros N. exfalso.
        destruct IH as [_ IH]. assert (C : Some i = None); [|discriminate C].
        apply IH. intros I. apply N. right. exact I.
      * split; [|reflexivity]. intros _ [H|H]; [contradiction|].
        destruct IH as [IH _]. apply (IH eq_refl H).
Qed.

Lemma NoDup_first (l : list jsstring) (x : jsstring) (i : nat) :
  NoDup l -> nth_error l i = Some x ->
  forall j, (j < i)%nat -> nth_error l j <> Some x.
Proof.
  intros D H j Hj E.
  assert (L : (j < List.length l)%nat) by (apply nth_error_Some; congruence).
  rewrite NoDup_nth_error in D.
  specialize (D j i L). rewrite H, E in D. specialize (D eq_refl). lia.
Qed.


Lemma internal_quiet (l : list Effect) :
  forallb isInternal l = true ->
  forallb (fun e => negb (isSpawn e) && negb (isPersistResponse e)) l = true.
Proof.
  induction l as [|e r IH]; [reflexivity|].
  cbn. intros F. apply andb_true_iff in F. destruct F as [F1 F2].
  rewrite (IH F2). destruct e; try discriminate; reflexivity.
Qed.

Section FallbackDriver.
Variable penv : ProcessEnv.
Variable w : World.

Lemma executeGemini_on_pure (e : Event) (c : Closure) (k : Counters) :
  countersOf (executeGemini_on penv e c) k = k /\
  valueOf (executeGemini_on penv e c) k = valueOf (executeGemini_on penv e c) start /\
  forallb isInternal (effectsOf (executeGemini_on penv e c) k) = true.
Proof.
  destruct e; callback; branches; repeat split.
Qed.

Lemma deliver_gemini_pure (evs : list Event) (c : Closure) (k : Counters) :
  countersOf (deliver (executeGemini_on penv) evs c) k = k /\
  valueOf (deliver (executeGemini_on penv) evs c) k
  = valueOf (deliver (executeGemini_on penv) evs c) start /\
  forallb isInternal (effectsOf (deliver (executeGemini_on penv) evs c) k) = true.
Proof.
  revert c k. induction evs as [|e r IH]; intros c k.
  - repeat split.
  - rewrite !deliver_cons, !countersOf_bind, !valueOf_bind, !effectsOf_bind.
    destruct (executeGemini_on_pure e c k) as [C [V F]].
    destruct (executeGemini_on_pure e c start) as [C0 _].
    rewrite C, C0, V.
    destruct (IH (valueOf (executeGemini_on penv e c) start) k) as [C1 [V1 F1]].
    repeat split; [exact C1 | exact V1 |].
    rewrite forallb_app, F, F1. reflexivity.
Qed.

(** One attempt: the promise is the one the spawned child leads to, one
    more child was spawned, and the only [Spawn] among the effects is the
    first of them; nothing is persisted. *)
Lemma executeGemini_run (fullPrompt m : jsstring) (k : Counters) :
  valueOf (executeGemini penv w fullPrompt m) k = geminiOutcome penv (spawnResult w (spawns k)) /\
  countersOf (executeGemini penv w fullPrompt m) k
  = {| spawns := S (spawns k); clockReads := clockReads k |} /\
  exists rest,
    effectsOf (executeGemini penv w fullPrompt m) k = geminiSpawn m :: rest /\
    forallb (fun e => negb (isSpawn e) && negb (isPersistResponse e)) rest = true.
Proof.
  unfold executeGemini. rewrite valueOf_bind, countersOf_bind, effectsOf_bind.
  change (valueOf (spawn w (u "gemini") (geminiArgs m) false) k)
    with (spawnResult w (spawns k)).
  change (countersOf (spawn w (u "gemini") (geminiArgs m) false) k)
    with {| spawns := S (spawns k); clockReads := clockReads k |}.
  change (effectsOf (spawn w (u "gemini") (geminiArgs m) false) k)
    with [geminiSpawn m].
  destruct (spawnResult w (spawns k)) as [err | child]; cbn [geminiOutcome].
  - repeat split. eexists. split; reflexivity.
  - set (k1 := {| spawns := S (spawns k); clockReads := clockReads k |}).
    rewrite !valueOf_bind, !countersOf_bind, !effectsOf_bind.
    destruct (deliver_gemini_pure (child_events child) newClosure k1) as [C [V F]].
    cbn [emit ret valueOf countersOf effectsOf fst snd] in *.
    repeat split.
    + rewrite V. reflexivity.
    + exact C.
    + eexists. split; [reflexivity|].
      cbn [app forallb isSpawn isPersistResponse negb andb].
      rewrite app_nil_r. apply internal_quiet. exact F.
Qed.

Lemma quiet_no_spawn (l : list Effect) :
  forallb (fun e => negb (isSpawn e) && negb (isPersistResponse e)) l = true ->
  filter isSpawn l = [] /\ filter isPersistResponse l = [].
Proof.
  induction l as [|e r IH]; [split; reflexivity|].
  cbn. intros F. apply andb_true_iff in F. destruct F as [F1 F2].
  apply andb_true_iff in F1. destruct F1 as [S P].
  destruct (IH F2) as [I1 I2].
  destruct (isSpawn e); [discriminate|]. destruct (isPersistResponse e); [discriminate|].
  split; assumption.
Qed.

(** The synchronous driver attempts the models of the chain in order, and
    stops at the first that does not fail. *)
Lemma tryModels_attempts (fullPrompt lines requestedModel role : jsstring)
    (promptResult : option PromptResult) (models errors : list jsstring) (k : Counters) :
  exists n,
    filter isSpawn
      (effectsOf (tryModels penv w fullPrompt lines requestedModel role promptResult
                    models errors) k)
    = map geminiSpawn (firstn n models).
Proof.
  revert errors k. induction models as [|m r IH]; intros errors k.
  - exists 0%nat. reflexivity.
  - cbn [tryModels]. rewrite effectsOf_bind.
    destruct (executeGemini_run fullPrompt m k) as [V [C [rest [E Q]]]].
    rewrite V, C, E. destruct (quiet_no_spawn rest Q) as [Q1 _].
    cbn [app filter geminiSpawn isSpawn]. rewrite filter_app, Q1. cbn [app].
    destruct (geminiOutcome penv (spawnResult w (spawns k))) as [|v|msg].
    + exists 1%nat. reflexivity.
    + exists 1%nat. destruct promptResult; reflexivity.
    + destruct (IH (errors ++ [m ++ u ": " ++ msg])
                  {| spawns := S (spawns k); clockReads := clockReads k |}) as [n Hn].
      exists (S n). rewrite Hn. reflexivity.
Qed.

(** When every attempt is rejected, all the chain is attempted, nothing is
    persisted, and the error result lists one line for each model, in
    order. *)
Lemma tryModels_all_rejected (fullPrompt lines requestedModel role : jsstring)
    (promptResult : option PromptResult) (models errors : list jsstring) (k : Counters) :
  allRejected penv w (spawns k) models = true ->
  valueOf (tryModels penv w fullPrompt lines requestedModel role promptResult models errors) k
  = Returns
      (errorResult
         (lines ++ separator ++ u "Gemini CLI error: all models failed." ++ [LF]
            ++ join [LF] (errors ++ failureLines penv w (spawns k) models)))
      None /\
  filter isSpawn
    (effectsOf (tryModels penv w fullPrompt lines requestedModel role promptResult
                  models errors) k)
  = map geminiSpawn models /\
  filter isPersistResponse
    (effectsOf (tryModels penv w fullPrompt lines requestedModel role promptResult
                  models errors) k)
  = [].
Proof.
  revert errors k. induction models as [|m r IH]; intros errors k A.
  - cbn. rewrite app_nil_r. repeat split.
  - cbn [allRejected] in A. apply andb_true_iff in A. destruct A as [A1 A2].
    cbn [tryModels]. rewrite valueOf_bind, effectsOf_bind.
    destruct (executeGemini_run fullPrompt m k) as [V [C [rest [E Q]]]].
    rewrite V, C, E. destruct (quiet_no_spawn rest Q) as [Q1 Q2].
    cbn [app filter geminiSpawn isSpawn isPersistResponse].
    rewrite !filter_app, Q1, Q2. cbn [app].
    destruct (geminiOutcome penv (spawnResult w (spawns k))) as [|v|msg] eqn:G;
      try discriminate A1.
    destruct (IH (errors ++ [m ++ u ": " ++ msg])
                {| spawns := S (spawns k); clockReads := clockReads k |} A2)
      as [I1 [I2 I3]].
    cbn [spawns] in I1. rewrite I1, I2, I3.
    cbn [failureLines map]. rewrite G. cbn [rejection].
    rewrite <- app_assoc. repeat split.
Qed.

End FallbackDriver.

(** ** The request handler of Gemini *)

Section GeminiHandler.
Variable penv : ProcessEnv.
Variable w : World.

Lemma readAll_effects (fs : list jsstring) (k : Counters) :
  effectsOf (readAll w fs) k = map ReadFile fs /\ countersOf (readAll w fs) k = k.
Proof.
  revert k. induction fs as [|f r IH]; intros k; [split; reflexivity|].
  cbn [readAll]. unfold validateAndReadFile.
  rewrite !effectsOf_bind, !countersOf_bind.
  change (countersOf (emit (ReadFile f)) k) with k.
  change (countersOf (ret (fileText w f)) k) with k.
  destruct (IH k) as [E C]. rewrite E, C.
  split; [|reflexivity].
  change (effectsOf (emit (ReadFile f)) k) with [ReadFile f].
  change (effectsOf (ret (fileText w f)) k) with (@nil Effect).
  change (effectsOf (ret ?x) k) with (@nil Effect).
  cbn [app map]. rewrite app_nil_r. reflexivity.
Qed.

Lemma buildFileContext_ok (args : AskArgs) (k : Counters) :
  filesOk args = true ->
  exists fileContext reads,
    valueOf (buildFileContext w (files args)) k = inr fileContext /\
    countersOf (buildFileContext w (files args)) k = k /\
    effectsOf (buildFileContext w (files args)) k = map ReadFile reads.
Proof.
  unfold filesOk, buildFileContext. destruct (files args) as [[|f r]|].
  - intros _. exists None, []. repeat split.
  - intros F. apply Nat.leb_le in F.
    destruct (MAX_CONTEXT_FILES <? List.length (f :: r))%nat eqn:E;
      [apply Nat.ltb_lt in E; lia|].
    destruct (readAll_effects (f :: r) k) as [Ef Cf].
    eexists. exists (f :: r).
    rewrite valueOf_bind, countersOf_bind, effectsOf_bind, Ef, Cf.
    cbn [ret valueOf countersOf effectsOf fst snd]. rewrite app_nil_r.
    repeat split.
  - intros _. exists None, []. repeat split.
Qed.

Lemma buildFileContext_too_many (args : AskArgs) (k : Counters) :
  filesOk args = false ->
  exists n, buildFileContext w (files args) k = (inl n, k, []).
Proof.
  unfold filesOk, buildFileContext. destruct (files args) as [[|f r]|]; try discriminate.
  intros F. apply Nat.leb_gt in F.
  destruct (MAX_CONTEXT_FILES <? List.length (f :: r))%nat eqn:E;
    [|apply Nat.ltb_ge in E; lia].
  eexists. reflexivity.
Qed.

Lemma run_eq (A : Type) (m : M A) (k : Counters) :
  m k = (valueOf m k, countersOf m k, effectsOf m k).
Proof. unfold valueOf, countersOf, effectsOf. destruct (m k) as [[a c] e]. reflexivity. Qed.

Lemma gemini_prelude (fallbacks : list jsstring) (args : AskArgs) (k : Counters) :
  validRole GEMINI_VALID_ROLES (agent_role args) = true ->
  available (detectCli w gemini) = true ->
  filesOk args = true ->
  exists pre fullPrompt lines role record,
    forallb isPrelude pre = true /\
    filter isPersistPrompt pre = [PersistPrompt record] /\
    filter isSpawn pre = [] /\
    filter isPersistResponse pre = [] /\
    (background args = false ->
     let T := tryModels penv w fullPrompt lines (requested (GEMINI_DEFAULT_MODEL penv) args)
                role (persistPrompt w record)
                (modelsToTry fallbacks (requested (GEMINI_DEFAULT_MODEL penv) args)) [] in
     valueOf (handleAskGeminiWith penv w fallbacks args) k = valueOf T k /\
     effectsOf (handleAskGeminiWith penv w fallbacks args) k = pre ++ effectsOf T k) /\
    (background args = true -> persistPrompt w record = None ->
     valueOf (handleAskGeminiWith penv w fallbacks args) k
     = Returns (errorResult (u "Failed to persist prompt for background execution")) None /\
     effectsOf (handleAskGeminiWith penv w fallbacks args) k = pre) /\
    (background args = true -> forall pr, persistPrompt w record = Some pr ->
     exists meta text,
       let B := executeGeminiBackground penv w fullPrompt
                  (hd [] (modelsToTry fallbacks (requested (GEMINI_DEFAULT_MODEL penv) args)))
                  meta in
       meta_jobId meta = pr_id pr /\
       valueOf (handleAskGeminiWith penv w fallbacks args) k
       = match fst (valueOf B k) with
         | BgError e =>
             Returns (errorResult (u "Failed to spawn background job: " ++ e)) None
         | BgPid pid =>
             Returns {| content := [text pid]; isError := false |} (snd (valueOf B k))
         end /\
       countersOf (handleAskGeminiWith penv w fallbacks args) k = countersOf B k /\
       effectsOf (handleAskGeminiWith penv w fallbacks args) k = pre ++ effectsOf B k).
Proof.
  intros V A F. unfold handleAskGeminiWith, requested. rewrite V, A. cbn [negb].
  destruct (buildFileContext_ok args k F) as [fileContext [reads [Bv [Bc Be]]]].
  rewrite ?valueOf_bind, ?effectsOf_bind, ?countersOf_bind.
  change (countersOf (emit (DetectCli gemini)) k) with k.
  change (countersOf (emit (ResolveSystemPrompt (roleText (agent_role args)))) k) with k.
  change (effectsOf (emit (DetectCli gemini)) k) with [DetectCli gemini].
  change (effectsOf (emit (ResolveSystemPrompt (roleText (agent_role args)))) k)
    with [ResolveSystemPrompt (roleText (agent_role args))].
  rewrite Bv, Bc, Be.
  rewrite ?valueOf_bind, ?effectsOf_bind, ?countersOf_bind.
  match goal with
  | |- context [emit (PersistPrompt ?r)] =>
      set (record := r);
      change (countersOf (emit (PersistPrompt record)) k) with k;
      change (effectsOf (emit (PersistPrompt record)) k) with [PersistPrompt record]
  end.
  exists ([DetectCli gemini] ++ [ResolveSystemPrompt (roleText (agent_role args))]
            ++ map ReadFile reads ++ [PersistPrompt record]).
  do 3 eexists. exists record.
  assert (R1 : forallb isPrelude (map ReadFile reads) = true)
    by (clear; induction reads; [reflexivity | assumption]).
  assert (R2 : filter isPersistPrompt (map ReadFile reads) = [])
    by (clear; induction reads; [reflexivity | assumption]).
  assert (R3 : filter isSpawn (map ReadFile reads) = [])
    by (clear; induction reads; [reflexivity | assumption]).
  assert (R4 : filter isPersistResponse (map ReadFile reads) = [])
    by (clear; induction reads; [reflexivity | assumption]).
  split; [cbn [app forallb isPrelude andb]; rewrite forallb_app, R1; reflexivity|].
  split; [cbn [app filter isPersistPrompt]; rewrite filter_app, R2; reflexivity|].
  split; [cbn [app filter isSpawn]; rewrite filter_app, R3; reflexivity|].
  split; [cbn [app filter isPersistResponse]; rewrite filter_app, R4; reflexivity|].
  split; [|split].
  - intros ->. cbv zeta. split; [reflexivity|].
    rewrite !app_assoc. reflexivity.
  - intros -> ->. split; [reflexivity|].
    change (effectsOf (ret _) k) with (@nil Effect).
    rewrite app_nil_r. reflexivity.
  - intros -> pr ->.
    match goal with
    | |- context [executeGeminiBackground penv w _ _ ?m] => exists m
    end.
    eexists. cbv zeta.
    rewrite ?valueOf_bind, ?effectsOf_bind, ?countersOf_bind.
    split; [reflexivity|].
    match goal with
    | |- context [fst (valueOf ?B k)] => destruct (fst (valueOf B k)) eqn:E
    end.
    + split; [reflexivity|]. split; [reflexivity|].
      change (effectsOf (ret _) _) with (@nil Effect).
      rewrite app_nil_r, !app_assoc. reflexivity.
    + split; [reflexivity|]. split; [reflexivity|].
      change (effectsOf (ret _) _) with (@nil Effect).
      rewrite app_nil_r, !app_assoc. reflexivity.
Qed.


(** A request that fails the availability check or the cap on context
    files is answered with an error before anything is persisted or
    spawned. *)
Lemma gemini_early (fallbacks : list jsstring) (args : AskArgs) (k : Counters) :
  validRole GEMINI_VALID_ROLES (agent_role args) = true ->
  available (detectCli w gemini) && filesOk args = false ->
  exists r,
    valueOf (handleAskGeminiWith penv w fallbacks args) k = Returns r None /\
    isError r = true /\
    forallb isPrelude (effectsOf (handleAskGeminiWith penv w fallbacks args) k) = true /\
    filter isPersistPrompt (effectsOf (handleAskGeminiWith penv w fallbacks args) k) = [] /\
    filter isSpawn (effectsOf (handleAskGeminiWith penv w fallbacks args) k) = [] /\
    filter isPersistResponse (effectsOf (handleAskGeminiWith penv w fallbacks args) k) = [].
Proof.
  intros V E. unfold handleAskGeminiWith. rewrite V. cbn [negb].
  destruct (available (detectCli w gemini)) eqn:A; cbn [andb negb] in *.
  - destruct (buildFileContext_too_many args k E) as [n B].
    eexists. unfold valueOf, effectsOf, bind. cbn [emit fst snd]. rewrite B.
    cbn. repeat split.
  - eexists. repeat split.
Qed.

(** The models attempted by the synchronous path are a prefix of the chain,
    in order. *)
Lemma gemini_sync_attempts (fallbacks : list jsstring) (args : AskArgs) (k : Counters) :
  background args = false ->
  exists n,
    filter isSpawn (effectsOf (handleAskGeminiWith penv w fallbacks args) k)
    = map geminiSpawn
        (firstn n (modelsToTry fallbacks (requested (GEMINI_DEFAULT_MODEL penv) args))).
Proof.
  intros B.
  destruct (validRole GEMINI_VALID_ROLES (agent_role args)) eqn:V.
  - destruct (available (detectCli w gemini) && filesOk args) eqn:E.
    + apply andb_true_iff in E. destruct E as [A F].
      destruct (gemini_prelude fallbacks args k V A F)
        as [pre [fullPrompt [lines [role [record [_ [_ [S [_ [T _]]]]]]]]]].
      destruct (T B) as [_ Tf]. rewrite Tf, filter_app, S. cbn [app].
      apply tryModels_attempts.
    + destruct (gemini_early fallbacks args k V E) as [r [_ [_ [_ [_ [S _]]]]]].
      exists 0%nat. rewrite S. reflexivity.
  - exists 0%nat. unfold handleAskGeminiWith. rewrite V. reflexivity.
Qed.

Lemma gemini_all_rejected (fallbacks : list jsstring) (args : AskArgs) (k : Counters) :
  background args = false ->
  validRole GEMINI_VALID_ROLES (agent_role args) = true ->
  available (detectCli w gemini) = true ->
  filesOk args = true ->
  allRejected penv w (spawns k)
    (modelsToTry fallbacks (requested (GEMINI_DEFAULT_MODEL penv) args)) = true ->
  exists lines,
    valueOf (handleAskGeminiWith penv w fallbacks args) k
    = Returns
        (errorResult
           (lines ++ separator ++ u "Gemini CLI error: all models failed." ++ [LF]
              ++ join [LF]
                   (failureLines penv w (spawns k)
                      (modelsToTry fallbacks (requested (GEMINI_DEFAULT_MODEL penv) args)))))
        None /\
    filter isSpawn (effectsOf (handleAskGeminiWith penv w fallbacks args) k)
    = map geminiSpawn (modelsToTry fallbacks (requested (GEMINI_DEFAULT_MODEL penv) args)) /\
    filter isPersistResponse (effectsOf (handleAskGeminiWith penv w fallbacks args) k) = [].
Proof.
  intros B V A F R.
  destruct (gemini_prelude fallbacks args k V A F)
    as [pre [fullPrompt [lines [role [record [_ [_ [S [P [T _]]]]]]]]]].
  destruct (T B) as [Tv Tf].
  destruct (tryModels_all_rejected penv w fullPrompt lines
              (requested (GEMINI_DEFAULT_MODEL penv) args) role (persistPrompt w record)
              (modelsToTry fallbacks (requested (GEMINI_DEFAULT_MODEL penv) args)) [] k R)
    as [R1 [R2 R3]].
  exists lines. rewrite Tv, Tf, !filter_app, S, P, R1, R2, R3. repeat split.
Qed.

(** C5.  A synchronous request that passes validation and whose every
    attempt is rejected gets one error result; its text ends with one line
    [model: message] for each model of the chain, in the order of the
    attempts; every model of the chain was attempted, in order, and no
    response was persisted. *)
Theorem all_models_fail (fallbacks : list jsstring) (args : AskArgs) (k : Counters) :
  background args = false ->
  validRole GEMINI_VALID_ROLES (agent_role args) = true ->
  available (detectCli w gemini) = true ->
  filesOk args = true ->
  allRejected penv w (spawns k)
    (modelsToTry fallbacks (requested (GEMINI_DEFAULT_MODEL penv) args)) = true ->
  exists lines r,
    valueOf (handleAskGeminiWith penv w fallbacks args) k = Returns r None /\
    isError r = true /\
    content r
    = [lines ++ separator ++ u "Gemini CLI error: all models failed." ++ [LF]
         ++ join [LF]
              (failureLines penv w (spawns k)
                 (modelsToTry fallbacks (requested (GEMINI_DEFAULT_MODEL penv) args)))] /\
    filter isSpawn (effectsOf (handleAskGeminiWith penv w fallbacks args) k)
    = map geminiSpawn (modelsToTry fallbacks (requested (GEMINI_DEFAULT_MODEL penv) args)) /\
    filter isPersistResponse (effectsOf (handleAskGeminiWith penv w fallbacks args) k) = [].
Proof.
  intros B V A F R.
  destruct (gemini_all_rejected fallbacks args k B V A F R) as [lines [Hv [Hs Hp]]].
  exists lines. eexists. split; [exact Hv|]. repeat split; assumption.
Qed.

End GeminiHandler.

(** C4.  When the requested model is in the canonical list, the chain is
    the list from its first occurrence on (the only one when the list has
    no duplicates); when it is not, the chain is the model followed by the
    whole list.  The synchronous path attempts a prefix of the chain, in
    order, and all of it when every attempt is rejected. *)
Theorem fallback_chain (fallbacks : list jsstring) (m : jsstring) :
  (forall i, nth_error fallbacks i = Some m ->
             (forall j, (j < i)%nat -> nth_error fallbacks j <> Some m) ->
             modelsToTry fallbacks m = skipn i fallbacks) /\
  (forall i, NoDup fallbacks -> nth_error fallbacks i = Some m ->
             modelsToTry fallbacks m = skipn i fallbacks) /\
  (~ In m fallbacks -> modelsToTry fallbacks m = m :: fallbacks) /\
  (forall penv w args k,
     requested (GEMINI_DEFAULT_MODEL penv) args = m ->
     background args = false ->
     exists n,
       filter isSpawn (effectsOf (handleAskGeminiWith penv w fallbacks args) k)
       = map geminiSpawn (firstn n (modelsToTry fallbacks m))) /\
  (forall penv w args k,
     requested (GEMINI_DEFAULT_MODEL penv) args = m ->
     background args = false ->
     validRole GEMINI_VALID_ROLES (agent_role args) = true ->
     available (detectCli w gemini) = true ->
     filesOk args = true ->
     allRejected penv w (spawns k) (modelsToTry fallbacks m) = true ->
     filter isSpawn (effectsOf (handleAskGeminiWith penv w fallbacks args) k)
     = map geminiSpawn (modelsToTry fallbacks m)).
Proof.
  assert (First : forall i, nth_error fallbacks i = Some m ->
             (forall j, (j < i)%nat -> nth_error fallbacks j <> Some m) ->
             modelsToTry fallbacks m = skipn i fallbacks).
  { intros i N F. unfold modelsToTry.
    rewrite (proj2 (indexOf_Some m fallbacks i) (conj N F)). reflexivity. }
  split; [exact First|]. split; [|split; [|split]].
  - intros i D N. apply First; [exact N|]. apply NoDup_first; assumption.
  - intros N. unfold modelsToTry. rewrite (proj2 (indexOf_None m fallbacks) N). reflexivity.
  - intros penv w args k <- B. apply gemini_sync_attempts. exact B.
  - intros penv w args k <- B V A F R.
    destruct (gemini_all_rejected penv w fallbacks args k B V A F R) as [_ [_ [S _]]].
    exact S.
Qed.

Lemma fallback_chain_witness :
  nth_error GEMINI_MODEL_FALLBACKS 2 = Some (u "gemini-2.5-pro") /\
  NoDup GEMINI_MODEL_FALLBACKS /\
  modelsToTry GEMINI_MODEL_FALLBACKS (u "gemini-2.5-pro")
  = [u "gemini-2.5-pro"; u "gemini-2.5-flash"] /\
  ~ In (u "custom") GEMINI_MODEL_FALLBACKS /\
  modelsToTry GEMINI_MODEL_FALLBACKS (u "custom") = u "custom" :: GEMINI_MODEL_FALLBACKS /\
  filter isSpawn (effectsOf (handleAskGemini sampleEnv failingWorld (sampleRequest false)) start)
  = [geminiSpawn (u "gemini-2.5-pro"); geminiSpawn (u "gemini-2.5-flash")].
Proof.
  assert (D : NoDup GEMINI_MODEL_FALLBACKS).
  { repeat constructor; cbn; intros H;
      repeat (destruct H as [H|H]; [discriminate H|]); exact H. }
  assert (N : ~ In (u "custom") GEMINI_MODEL_FALLBACKS).
  { cbn. intros H. repeat (destruct H as [H|H]; [discriminate H|]). exact H. }
  split; [reflexivity|]. split; [exact D|]. split; [|split; [exact N|split]].
  - apply (proj1 (proj2 (fallback_chain GEMINI_MODEL_FALLBACKS (u "gemini-2.5-pro")))
             2%nat D eq_refl).
  - apply (proj1 (proj2 (proj2 (fallback_chain GEMINI_MODEL_FALLBACKS (u "custom")))) N).
  - apply (proj2 (proj2 (proj2 (proj2
             (fallback_chain GEMINI_MODEL_FALLBACKS (u "gemini-2.5-pro")))))
             sampleEnv failingWorld (sampleRequest false) start
             eq_refl eq_refl eq_refl eq_refl eq_refl eq_refl).
Defined.

Lemma all_models_fail_witness :
  allRejected sampleEnv failingWorld 0
    (modelsToTry GEMINI_MODEL_FALLBACKS (u "gemini-2.5-pro")) = true /\
  failureLines sampleEnv failingWorld 0
    (modelsToTry GEMINI_MODEL_FALLBACKS (u "gemini-2.5-pro"))
  = [u "gemini-2.5-pro: Gemini exited with code 1: quota";
     u "gemini-2.5-flash: Gemini exited with code 1: quota"] /\
  exists lines r,
    valueOf (handleAskGemini sampleEnv failingWorld (sampleRequest false)) start
    = Returns r None /\
    isError r = true /\
    content r
    = [lines ++ separator ++ u "Gemini CLI error: all models failed." ++ [LF]
         ++ join [LF]
              (failureLines sampleEnv failingWorld 0
                 (modelsToTry GEMINI_MODEL_FALLBACKS (u "gemini-2.5-pro")))] /\
    filter isSpawn (effectsOf (handleAskGemini sampleEnv failingWorld (sampleRequest false)) start)
    = map geminiSpawn (modelsToTry GEMINI_MODEL_FALLBACKS (u "gemini-2.5-pro")) /\
    filter isPersistResponse
      (effectsOf (handleAskGemini sampleEnv failingWorld (sampleRequest false)) start) = [].
Proof.
  split; [reflexivity|]. split; [reflexivity|].
  apply (all_models_fail sampleEnv failingWorld GEMINI_MODEL_FALLBACKS (sampleRequest false)
           start eq_refl eq_refl eq_refl eq_refl eq_refl).
Defined.

(** The whole result of that request. *)
Example all_models_fail_text :
  valueOf (handleAskGemini sampleEnv failingWorld (sampleRequest false)) start
  = Returns
      (errorResult
         (u "**Agent Role:** designer" ++ [LF]
            ++ u "**Prompt File:** prompt-id1.md" ++ [LF]
            ++ u "**Response File:** response-id1.md" ++ [LF; LF]
            ++ u "---" ++ [LF; LF]
            ++ u "Gemini CLI error: all models failed." ++ [LF]
            ++ u "gemini-2.5-pro: Gemini exited with code 1: quota" ++ [LF]
            ++ u "gemini-2.5-flash: Gemini exited with code 1: quota"))
      None.
Proof. reflexivity. Qed.

(** ** The background path of Gemini *)

Section BackgroundPath.
Context {num : NumberSemantics}.
Variable penv : ProcessEnv.
Variable w : World.

(** The callbacks of a job spawn nothing and persist no prompt. *)
Ltac job_quiet :=
  intros E L;
  match goal with e : Event |- _ => destruct e; try discriminate end;
  callback; rewrite L; cbn [negb]; branches; split; reflexivity.

Lemma executeCodexBackground_quiet (j : Job) (e : Event) (s : JobClosure) (k : Counters) :
  settles e = true -> bg_settled s = false ->
  filter isSpawn (effectsOf (executeCodexBackground_on penv w j e s) k) = [] /\
  filter isPersistPrompt (effectsOf (executeCodexBackground_on penv w j e s) k) = [].
Proof. job_quiet. Qed.

Lemma executeGeminiBackground_quiet (j : Job) (e : Event) (s : JobClosure) (k : Counters) :
  settles e = true -> bg_settled s = false ->
  filter isSpawn (effectsOf (executeGeminiBackground_on penv w j e s) k) = [] /\
  filter isPersistPrompt (effectsOf (executeGeminiBackground_on penv w j e s) k) = [].
Proof. job_quiet. Qed.

(** Whatever happens to a job, failure included, nothing is spawned for it
    again. *)
Lemma runJob_quiet (j : Job) (k : Counters) :
  filter isSpawn (effectsOf (runJob penv w j) k) = [] /\
  filter isPersistPrompt (effectsOf (runJob penv w j) k) = [].
Proof.
  unfold runJob. destruct (job_provider j).
  - destruct (deliver_first _ _ bg_settled
                (executeCodexBackground_data penv w j)
                (executeCodexBackground_latched penv w j)
                (executeCodexBackground_latching penv w j)
                (job_events j) newJobClosure k eq_refl)
      as [[_ [E _]] | [pre [e [post [s' [_ [_ [Se [Ls [_ [E _]]]]]]]]]]]; rewrite E.
    + split; reflexivity.
    + apply executeCodexBackground_quiet; assumption.
  - destruct (deliver_first _ _ bg_settled
                (executeGeminiBackground_data penv w j)
                (executeGeminiBackground_latched penv w j)
                (executeGeminiBackground_latching penv w j)
                (job_events j) newJobClosure k eq_refl)
      as [[_ [E _]] | [pre [e [post [s' [_ [_ [Se [Ls [_ [E _]]]]]]]]]]]; rewrite E.
    + split; reflexivity.
    + apply executeGeminiBackground_quiet; assumption.
Qed.


Lemma lifecycle_effects (handler : AskArgs -> M Handled) (args : AskArgs) (k : Counters) :
  effectsOf (lifecycle penv w handler args) k
  = effectsOf (handler args) k
    ++ match valueOf (handler args) k with
       | Returns _ (Some j) => effectsOf (runJob penv w j) (countersOf (handler args) k)
       | _ => []
       end.
Proof.
  unfold lifecycle. rewrite effectsOf_bind. f_equal.
  destruct (valueOf (handler args) k) as [r [j|]|]; try reflexivity.
  rewrite effectsOf_bind. apply app_nil_r.
Qed.


End BackgroundPath.


(** What that request writes to the Job Status Store when its child fails:
    [spawned], [running], [failed], and nothing is spawned again. *)
Example background_failure_statuses :
  map js_status
    (statusWrites (u "id1")
       (effectsOf (@lifecycle literalNumbers sampleEnv failingWorld
                     (handleAskGemini sampleEnv failingWorld) (sampleRequest true)) start))
  = [spawned; running; failed].
Proof. vm_compute. reflexivity. Qed.

(** * Further properties *)

(** ** Data events *)

Section Accumulation.
Context {num : NumberSemantics}.
Variable penv : ProcessEnv.
Variable w : World.

Lemma executeCodex_data_run (pre : list Event) (c : Closure) (k : Counters) :
  dataOnly pre = true ->
  deliver (executeCodex_on penv) pre c k
  = ({| settled := settled c; stdout := stdout c ++ stdoutOf pre;
        stderr := stderr c ++ stderrOf pre; promise := promise c |}, k, []).
Proof.
  revert c. induction pre as [|e r IH]; intros c D.
  - cbn. rewrite !app_nil_r. destruct c; reflexivity.
  - cbn [dataOnly forallb] in D. apply andb_true_iff in D. destruct D as [E D].
    rewrite deliver_cons. unfold bind.
    destruct e; try discriminate E; cbn [executeCodex_on ret fst snd];
      rewrite (IH _ D); cbn [addStdout addStderr settled stdout stderr promise
                               stdoutOf stderrOf fst snd app];
      rewrite <- ?app_assoc; reflexivity.
Qed.

Lemma executeGemini_data_run (pre : list Event) (c : Closure) (k : Counters) :
  dataOnly pre = true ->
  deliver (executeGemini_on penv) pre c k
  = ({| settled := settled c; stdout := stdout c ++ stdoutOf pre;
        stderr := stderr c ++ stderrOf pre; promise := promise c |}, k, []).
Proof.
  revert c. induction pre as [|e r IH]; intros c D.
  - cbn. rewrite !app_nil_r. destruct c; reflexivity.
  - cbn [dataOnly forallb] in D. apply andb_true_iff in D. destruct D as [E D].
    rewrite deliver_cons. unfold bind.
    destruct e; try discriminate E; cbn [executeGemini_on ret fst snd];
      rewrite (IH _ D); cbn [addStdout addStderr settled stdout stderr promise
                               stdoutOf stderrOf fst snd app];
      rewrite <- ?app_assoc; reflexivity.
Qed.

Lemma executeCodexBackground_data_run (j : Job) (pre : list Event) (c : JobClosure)
    (k : Counters) :
  dataOnly pre = true ->
  deliver (executeCodexBackground_on penv w j) pre c k
  = ({| bg_settled := bg_settled c; bg_stdout := bg_stdout c ++ stdoutOf pre;
        bg_stderr := bg_stderr c ++ stderrOf pre |}, k, []).
Proof.
  revert c. induction pre as [|e r IH]; intros c D.
  - cbn. rewrite !app_nil_r. destruct c; reflexivity.
  - cbn [dataOnly forallb] in D. apply andb_true_iff in D. destruct D as [E D].
    rewrite deliver_cons. unfold bind.
    destruct e; try discriminate E; cbn [executeCodexBackground_on ret fst snd];
      rewrite (IH _ D); cbn [bgAddStdout bgAddStderr bg_settled bg_stdout bg_stderr
                               stdoutOf stderrOf fst snd app];
      rewrite <- ?app_assoc; reflexivity.
Qed.

Lemma executeGeminiBackground_data_run (j : Job) (pre : list Event) (c : JobClosure)
    (k : Counters) :
  dataOnly pre = true ->
  deliver (executeGeminiBackground_on penv w j) pre c k
  = ({| bg_settled := bg_settled c; bg_stdout := bg_stdout c ++ stdoutOf pre;
        bg_stderr := bg_stderr c ++ stderrOf pre |}, k, []).
Proof.
  revert c. induction pre as [|e r IH]; intros c D.
  - cbn. rewrite !app_nil_r. destruct c; reflexivity.
  - cbn [dataOnly forallb] in D. apply andb_true_iff in D. destruct D as [E D].
    rewrite deliver_cons. unfold bind.
    destruct e; try discriminate E; cbn [executeGeminiBackground_on ret fst snd];
      rewrite (IH _ D); cbn [bgAddStdout bgAddStderr bg_settled bg_stdout bg_stderr
                               stdoutOf stderrOf fst snd app];
      rewrite <- ?app_assoc; reflexivity.
Qed.

End Accumulation.

Lemma deliver_app (S : Type) (on : Event -> S -> M S) (a b : list Event) (s : S)
    (k : Counters) :
  deliver on (a ++ b) s k
  = bind (deliver on a s) (fun s' => deliver on b s') k.
Proof.
  revert s k. induction a as [|e a IH]; intros s k.
  - cbn [app deliver]. unfold bind, ret. cbn.
    destruct (deliver on b s k) as [[v c] fx]. reflexivity.
  - cbn [app]. rewrite !deliver_cons. unfold bind at 1 3.
    rewrite IH. unfold bind. cbn. rewrite app_assoc. reflexivity.
Qed.

Section FirstSettlingEvent.
Context {num : NumberSemantics}.
Variable penv : ProcessEnv.
Variable w : World.

Lemma executeCodex_promise_kept (post : list Event) (c : Closure) (k : Counters) :
  settled c = true ->
  promise (valueOf (deliver (executeCodex_on penv) post c) k) = promise c.
Proof.
  revert c k. induction post as [|e r IH]; intros c k L; [reflexivity|].
  rewrite deliver_cons, valueOf_bind.
  destruct (settles e) eqn:E.
  - rewrite (executeCodex_latched penv e c E L). apply IH. exact L.
  - destruct e; try discriminate E; cbn [executeCodex_on];
      (rewrite IH; [reflexivity | exact L]).
Qed.

Lemma executeGemini_promise_kept (post : list Event) (c : Closure) (k : Counters) :
  settled c = true ->
  promise (valueOf (deliver (executeGemini_on penv) post c) k) = promise c.
Proof.
  revert c k. induction post as [|e r IH]; intros c k L; [reflexivity|].
  rewrite deliver_cons, valueOf_bind.
  destruct (settles e) eqn:E.
  - rewrite (executeGemini_latched penv e c E L). apply IH. exact L.
  - destruct e; try discriminate E; cbn [executeGemini_on];
      (rewrite IH; [reflexivity | exact L]).
Qed.

Lemma executeCodex_first (pre : list Event) (e : Event) (post : list Event) (k : Counters) :
  dataOnly pre = true ->
  settles e = true ->
  effectsOf (deliver (executeCodex_on penv) (pre ++ e :: post) newClosure) k
  = effectsOf (executeCodex_on penv e (atClose (stdoutOf pre) (stderrOf pre))) k /\
  promise (valueOf (deliver (executeCodex_on penv) (pre ++ e :: post) newClosure) k)
  = promise (valueOf (executeCodex_on penv e (atClose (stdoutOf pre) (stderrOf pre))) k).
Proof.
  intros D E. split.
  - rewrite (deliver_after _ _ settled (executeCodex_data penv)
               (executeCodex_latched penv) (executeCodex_latching penv) pre e post _ k E).
    unfold effectsOf. rewrite deliver_app. unfold bind.
    rewrite (executeCodex_data_run penv pre newClosure k D). cbn [fst snd app newClosure
      settled stdout stderr promise deliver].
    unfold bind, ret. cbn [fst snd]. rewrite app_nil_r. reflexivity.
  - unfold valueOf. rewrite deliver_app. unfold bind.
    rewrite (executeCodex_data_run penv pre newClosure k D).
    cbn [fst snd app newClosure settled stdout stderr promise].
    rewrite deliver_cons.
    change (fst (fst (bind ?m ?f k))) with (valueOf (bind m f) k).
    rewrite valueOf_bind. rewrite executeCodex_promise_kept; [reflexivity|].
    apply executeCodex_latching. exact E.
Qed.

Lemma executeGemini_first (pre : list Event) (e : Event) (post : list Event) (k : Counters) :
  dataOnly pre = true ->
  settles e = true ->
  effectsOf (deliver (executeGemini_on penv) (pre ++ e :: post) newClosure) k
  = effectsOf (executeGemini_on penv e (atClose (stdoutOf pre) (stderrOf pre))) k /\
  promise (valueOf (deliver (executeGemini_on penv) (pre ++ e :: post) newClosure) k)
  = promise (valueOf (executeGemini_on penv e (atClose (stdoutOf pre) (stderrOf pre))) k).
Proof.
  intros D E. split.
  - rewrite (deliver_after _ _ settled (executeGemini_data penv)
               (executeGemini_latched penv) (executeGemini_latching penv) pre e post _ k E).
    unfold effectsOf. rewrite deliver_app. unfold bind.
    rewrite (executeGemini_data_run penv pre newClosure k D). cbn [fst snd app newClosure
      settled stdout stderr promise deliver].
    unfold bind, ret. cbn [fst snd]. rewrite app_nil_r. reflexivity.
  - unfold valueOf. rewrite deliver_app. unfold bind.
    rewrite (executeGemini_data_run penv pre newClosure k D).
    cbn [fst snd app newClosure settled stdout stderr promise].
    rewrite deliver_cons.
    change (fst (fst (bind ?m ?f k))) with (valueOf (bind m f) k).
    rewrite valueOf_bind. rewrite executeGemini_promise_kept; [reflexivity|].
    apply executeGemini_latching. exact E.
Qed.

Lemma executeCodexBackground_first (j : Job) (pre : list Event) (e : Event)
    (post : list Event) (k : Counters) :
  dataOnly pre = true ->
  settles e = true ->
  effectsOf (deliver (executeCodexBackground_on penv w j) (pre ++ e :: post) newJobClosure) k
  = effectsOf (executeCodexBackground_on penv w j e
                 (bgAtClose (stdoutOf pre) (stderrOf pre))) k.
Proof.
  intros D E.
  rewrite (deliver_after _ _ bg_settled (executeCodexBackground_data penv w j)
             (executeCodexBackground_latched penv w j)
             (executeCodexBackground_latching penv w j) pre e post _ k E).
  unfold effectsOf. rewrite deliver_app. unfold bind.
  rewrite (executeCodexBackground_data_run penv w j pre newJobClosure k D).
  cbn [fst snd app newJobClosure bg_settled bg_stdout bg_stderr deliver].
  unfold bind, ret. cbn [fst snd]. rewrite app_nil_r. reflexivity.
Qed.

Lemma executeGeminiBackground_first (j : Job) (pre : list Event) (e : Event)
    (post : list Event) (k : Counters) :
  dataOnly pre = true ->
  settles e = true ->
  effectsOf (deliver (executeGeminiBackground_on penv w j) (pre ++ e :: post) newJobClosure) k
  = effectsOf (executeGeminiBackground_on penv w j e
                 (bgAtClose (stdoutOf pre) (stderrOf pre))) k.
Proof.
  intros D E.
  rewrite (deliver_after _ _ bg_settled (executeGeminiBackground_data penv w j)
             (executeGeminiBackground_latched penv w j)
             (executeGeminiBackground_latching penv w j) pre e post _ k E).
  unfold effectsOf. rewrite deliver_app. unfold bind.
  rewrite (executeGeminiBackground_data_run penv w j pre newJobClosure k D).
  cbn [fst snd app newJobClosure bg_settled bg_stdout bg_stderr deliver].
  unfold bind, ret. cbn [fst snd]. rewrite app_nil_r. reflexivity.
Qed.

(** X1.  The outcome of an execution is that of the callback of its first
    settling event, run on the concatenation of the output chunks received
    before it: neither the chunking nor any later event matters. *)
Theorem first_settling_event_decides (pre : list Event) (e : Event) (post : list Event)
    (j : Job) (k : Counters) :
  dataOnly pre = true ->
  settles e = true ->
  (effectsOf (deliver (executeCodex_on penv) (pre ++ e :: post) newClosure) k
   = effectsOf (executeCodex_on penv e (atClose (stdoutOf pre) (stderrOf pre))) k /\
   promise (valueOf (deliver (executeCodex_on penv) (pre ++ e :: post) newClosure) k)
   = promise (valueOf (executeCodex_on penv e (atClose (stdoutOf pre) (stderrOf pre))) k)) /\
  (effectsOf (deliver (executeGemini_on penv) (pre ++ e :: post) newClosure) k
   = effectsOf (executeGemini_on penv e (atClose (stdoutOf pre) (stderrOf pre))) k /\
   promise (valueOf (deliver (executeGemini_on penv) (pre ++ e :: post) newClosure) k)
   = promise (valueOf (executeGemini_on penv e (atClose (stdoutOf pre) (stderrOf pre))) k)) /\
  effectsOf (deliver (executeCodexBackground_on penv w j) (pre ++ e :: post) newJobClosure) k
  = effectsOf (executeCodexBackground_on penv w j e
                 (bgAtClose (stdoutOf pre) (stderrOf pre))) k /\
  effectsOf (deliver (executeGeminiBackground_on penv w j) (pre ++ e :: post) newJobClosure) k
  = effectsOf (executeGeminiBackground_on penv w j e
                 (bgAtClose (stdoutOf pre) (stderrOf pre))) k.
Proof.
  intros D E.
  split; [apply executeCodex_first; assumption|].
  split; [apply executeGemini_first; assumption|].
  split; [apply executeCodexBackground_first | apply executeGeminiBackground_first];
    assumption.
Qed.

End FirstSettlingEvent.

(** ** What a run of events comes to *)

Lemma firstSettling_none (evs : list Event) :
  firstSettling evs = None <-> dataOnly evs = true.
Proof.
  unfold firstSettling, dataOnly. induction evs as [|e r IH]; cbn; [tauto|].
  destruct (settles e); cbn; [split; discriminate | exact IH].
Qed.

Lemma firstSettling_some (evs : list Event) (e : Event) :
  firstSettling evs = Some e ->
  exists pre post, evs = pre ++ e :: post /\ dataOnly pre = true /\ settles e = true.
Proof.
  unfold firstSettling, dataOnly. induction evs as [|x r IH]; cbn; [discriminate|].
  destruct (settles x) eqn:S.
  - intros H. injection H as <-. exists [], r. repeat split. exact S.
  - intros H. destruct (IH H) as [pre [post [E [D Se]]]].
    exists (x :: pre), post. cbn. rewrite S, D, E. repeat split. exact Se.
Qed.

Lemma firstSettling_split (evs : list Event) (e : Event) :
  firstSettling evs = Some e ->
  exists post,
    evs = beforeSettling evs ++ e :: post /\
    dataOnly (beforeSettling evs) = true /\ settles e = true.
Proof.
  unfold firstSettling, dataOnly. induction evs as [|x r IH]; cbn; [discriminate|].
  destruct (settles x) eqn:S.
  - intros H. injection H as <-. exists r. repeat split. exact S.
  - intros H. destruct (IH H) as [post [E [D Se]]].
    exists post. cbn. rewrite S, D, <- E. repeat split. exact Se.
Qed.

Section Outcomes.
Context {num : NumberSemantics}.
Variable penv : ProcessEnv.
Variable w : World.

(** X2.  [executeGemini] never hangs once a close, an error, a stdin error or
    the timeout is delivered: its promise stays pending exactly when the
    child has no such event.  A [spawn] that throws rejects it. *)
Theorem executeGemini_pending_iff (fullPrompt m : jsstring) (k : Counters) :
  valueOf (executeGemini penv w fullPrompt m) k = Pending
  <-> exists child, spawnResult w (spawns k) = Spawned child /\
                    firstSettling (child_events child) = None.
Proof.
  rewrite (proj1 (executeGemini_run penv w fullPrompt m k)).
  destruct (spawnResult w (spawns k)) as [err | child]; cbn [geminiOutcome].
  - split; [discriminate | intros [c [H _]]; discriminate H].
  - destruct (firstSettling (child_events child)) as [e|] eqn:F.
    + split; [|intros [c [H N]]; injection H as <-; congruence].
      intros P. exfalso.
      destruct (firstSettling_some _ _ F) as [pre [post [E [D S]]]].
      rewrite E in P.
      rewrite (proj2 (executeGemini_first penv pre e post start D S)) in P.
      revert P. destruct e; try discriminate S; callback;
        cbn [atClose settled negb]; branches; discriminate.
    + split; [intros _; exists child; split; [reflexivity | exact F]|]. intros _.
      apply firstSettling_none in F. unfold valueOf.
      rewrite (executeGemini_data_run penv (child_events child) newClosure start F).
      reflexivity.
Qed.

End Outcomes.

Section CodexRun.
Context {num : NumberSemantics}.
Variable penv : ProcessEnv.
Variable w : World.

Lemma executeCodex_on_pure (e : Event) (c : Closure) (k : Counters) :
  countersOf (executeCodex_on penv e c) k = k /\
  valueOf (executeCodex_on penv e c) k = valueOf (executeCodex_on penv e c) start /\
  forallb isInternal (effectsOf (executeCodex_on penv e c) k) = true.
Proof.
  destruct e; callback; branches; repeat split.
Qed.

Lemma deliver_codex_pure (evs : list Event) (c : Closure) (k : Counters) :
  countersOf (deliver (executeCodex_on penv) evs c) k = k /\
  valueOf (deliver (executeCodex_on penv) evs c) k
  = valueOf (deliver (executeCodex_on penv) evs c) start /\
  forallb isInternal (effectsOf (deliver (executeCodex_on penv) evs c) k) = true.
Proof.
  revert c k. induction evs as [|e r IH]; intros c k.
  - repeat split.
  - rewrite !deliver_cons, !countersOf_bind, !valueOf_bind, !effectsOf_bind.
    destruct (executeCodex_on_pure e c k) as [C [V F]].
    destruct (executeCodex_on_pure e c start) as [C0 _].
    rewrite C, C0, V.
    destruct (IH (valueOf (executeCodex_on penv e c) start) k) as [C1 [V1 F1]].
    repeat split; [exact C1 | exact V1 |].
    rewrite forallb_app, F, F1. reflexivity.
Qed.

(** One execution of Codex: the promise is the one the spawned child leads
    to, one more child was spawned, the only [Spawn] among the effects is
    the first of them, and nothing is persisted. *)
Lemma executeCodex_run (fullPrompt m : jsstring) (k : Counters) :
  valueOf (executeCodex penv w fullPrompt m) k = codexOutcome penv (spawnResult w (spawns k)) /\
  countersOf (executeCodex penv w fullPrompt m) k
  = {| spawns := S (spawns k); clockReads := clockReads k |} /\
  exists rest,
    effectsOf (executeCodex penv w fullPrompt m) k = codexSpawn m :: rest /\
    forallb (fun e => negb (isSpawn e) && negb (isPersistResponse e)) rest = true.
Proof.
  unfold executeCodex. rewrite valueOf_bind, countersOf_bind, effectsOf_bind.
  change (valueOf (spawn w ?c ?a false) k) with (spawnResult w (spawns k)).
  change (countersOf (spawn w ?c ?a false) k)
    with {| spawns := S (spawns k); clockReads := clockReads k |}.
  change (effectsOf (spawn w (u "codex")
            [u "exec"; u "-m"; m; u "--json"; u "--full-auto"] false) k)
    with [codexSpawn m].
  destruct (spawnResult w (spawns k)) as [err | child]; cbn [codexOutcome].
  - repeat split. eexists. split; reflexivity.
  - set (k1 := {| spawns := S (spawns k); clockReads := clockReads k |}).
    rewrite !valueOf_bind, !countersOf_bind, !effectsOf_bind.
    destruct (deliver_codex_pure (child_events child) newClosure k1) as [C [V F]].
    cbn [emit ret valueOf countersOf effectsOf fst snd] in *.
    repeat split.
    + rewrite V. reflexivity.
    + exact C.
    + eexists. split; [reflexivity|].
      cbn [app forallb isSpawn isPersistResponse negb andb].
      rewrite app_nil_r. apply internal_quiet. exact F.
Qed.

End CodexRun.

Section Protocol.
Context {num : NumberSemantics}.
Variable penv : ProcessEnv.
Variable w : World.

Lemma executeCodex_on_effects (e : Event) (c : Closure) (k : Counters) :
  effectsOf (executeCodex_on penv e c) k = effectsOf (executeCodex_on penv e c) start.
Proof. destruct e; callback; branches; reflexivity. Qed.

Lemma executeGemini_on_effects (e : Event) (c : Closure) (k : Counters) :
  effectsOf (executeGemini_on penv e c) k = effectsOf (executeGemini_on penv e c) start.
Proof. destruct e; callback; branches; reflexivity. Qed.

Lemma deliver_codex_effects (evs : list Event) (c : Closure) (k : Counters) :
  effectsOf (deliver (executeCodex_on penv) evs c) k
  = effectsOf (deliver (executeCodex_on penv) evs c) start.
Proof.
  revert c k. induction evs as [|e r IH]; intros c k; [reflexivity|].
  rewrite !deliver_cons, !effectsOf_bind.
  destruct (executeCodex_on_pure penv e c k) as [C [V _]].
  destruct (executeCodex_on_pure penv e c start) as [C0 _].
  rewrite C, C0, V, (executeCodex_on_effects e c k), (IH _ k). reflexivity.
Qed.

Lemma deliver_gemini_effects (evs : list Event) (c : Closure) (k : Counters) :
  effectsOf (deliver (executeGemini_on penv) evs c) k
  = effectsOf (deliver (executeGemini_on penv) evs c) start.
Proof.
  revert c k. induction evs as [|e r IH]; intros c k; [reflexivity|].
  rewrite !deliver_cons, !effectsOf_bind.
  destruct (executeGemini_on_pure penv e c k) as [C [V _]].
  destruct (executeGemini_on_pure penv e c start) as [C0 _].
  rewrite C, C0, V, (executeGemini_on_effects e c k), (IH _ k). reflexivity.
Qed.

(** What [executeCodex] and [executeGemini] do, in order: spawn; then, if
    [spawn] threw, reject; else arm the timer, write the prompt to the
    standard input, end it, and let the callbacks run. *)
Lemma executeCodex_effects (fullPrompt m : jsstring) (k : Counters) :
  effectsOf (executeCodex penv w fullPrompt m) k
  = match spawnResult w (spawns k) with
    | SpawnThrows e => [codexSpawn m; Reject e]
    | Spawned child =>
        [codexSpawn m; SetTimeout (CODEX_TIMEOUT penv); StdinWrite fullPrompt; StdinEnd]
          ++ effectsOf (deliver (executeCodex_on penv) (child_events child) newClosure) start
    end.
Proof.
  unfold executeCodex. rewrite effectsOf_bind.
  change (valueOf (spawn w ?c ?a false) k) with (spawnResult w (spawns k)).
  change (effectsOf (spawn w (u "codex")
            [u "exec"; u "-m"; m; u "--json"; u "--full-auto"] false) k)
    with [codexSpawn m].
  destruct (spawnResult w (spawns k)) as [err | child]; [reflexivity|].
  rewrite !effectsOf_bind.
  change (effectsOf (emit ?e) ?c) with [e].
  change (effectsOf (ret ?x) ?c) with (@nil Effect).
  rewrite app_nil_r, deliver_codex_effects. reflexivity.
Qed.

Lemma executeGemini_effects (fullPrompt m : jsstring) (k : Counters) :
  effectsOf (executeGemini penv w fullPrompt m) k
  = match spawnResult w (spawns k) with
    | SpawnThrows e => [geminiSpawn m; Reject e]
    | Spawned child =>
        [geminiSpawn m; SetTimeout (GEMINI_TIMEOUT penv); StdinWrite fullPrompt; StdinEnd]
          ++ effectsOf (deliver (executeGemini_on penv) (child_events child) newClosure) start
    end.
Proof.
  unfold executeGemini. rewrite effectsOf_bind.
  change (valueOf (spawn w ?c ?a false) k) with (spawnResult w (spawns k)).
  change (effectsOf (spawn w (u "gemini") (geminiArgs m) false) k)
    with [geminiSpawn m].
  destruct (spawnResult w (spawns k)) as [err | child]; [reflexivity|].
  rewrite !effectsOf_bind.
  change (effectsOf (emit ?e) ?c) with [e].
  change (effectsOf (ret ?x) ?c) with (@nil Effect).
  rewrite app_nil_r, deliver_gemini_effects. reflexivity.
Qed.

(** The kills of a run of events: one, unless the first settling event is a
    close or there is none. *)
Lemma executeCodex_kills (evs : list Event) (k : Counters) :
  filter isKill (effectsOf (deliver (executeCodex_on penv) evs newClosure) k)
  = match firstSettling evs with
    | Some (OnClose _) | None => []
    | Some _ => [ChildKill]
    end.
Proof.
  destruct (firstSettling evs) as [e|] eqn:F.
  - destruct (firstSettling_some _ _ F) as [pre [post [E [D S]]]]. subst evs.
    rewrite (proj1 (executeCodex_first penv pre e post k D S)).
    destruct e; try discriminate S; callback; cbn [atClose settled negb]; branches;
      reflexivity.
  - apply firstSettling_none in F. unfold effectsOf.
    rewrite (executeCodex_data_run penv evs newClosure k F). reflexivity.
Qed.

Lemma executeGemini_kills (evs : list Event) (k : Counters) :
  filter isKill (effectsOf (deliver (executeGemini_on penv) evs newClosure) k)
  = match firstSettling evs with
    | Some (OnClose _) | None => []
    | Some _ => [ChildKill]
    end.
Proof.
  destruct (firstSettling evs) as [e|] eqn:F.
  - destruct (firstSettling_some _ _ F) as [pre [post [E [D S]]]]. subst evs.
    rewrite (proj1 (executeGemini_first penv pre e post k D S)).
    destruct e; try discriminate S; callback; cbn [atClose settled negb]; branches;
      reflexivity.
  - apply firstSettling_none in F. unfold effectsOf.
    rewrite (executeGemini_data_run penv evs newClosure k F). reflexivity.
Qed.

Lemma runJob_kills (j : Job) (k : Counters) :
  filter isKill (effectsOf (runJob penv w j) k)
  = match firstSettling (job_events j) with
    | Some OnTimeout => [groupKill penv (job_pid j)]
    | _ => []
    end.
Proof.
  unfold runJob, groupKill.
  destruct (firstSettling (job_events j)) as [e|] eqn:F.
  - destruct (firstSettling_some _ _ F) as [pre [post [E [D S]]]]. rewrite E.
    destruct (job_provider j).
    + rewrite (executeCodexBackground_first penv w j pre e post k D S).
      destruct e; try discriminate S; callback;
        destruct (str_eqb (platform penv) (u "win32"));
        cbn [bgAtClose bg_settled negb]; branches; reflexivity.
    + rewrite (executeGeminiBackground_first penv w j pre e post k D S).
      destruct e; try discriminate S; callback;
        destruct (str_eqb (platform penv) (u "win32"));
        cbn [bgAtClose bg_settled negb]; branches; reflexivity.
  - apply firstSettling_none in F. unfold effectsOf.
    destruct (job_provider j).
    + rewrite (executeCodexBackground_data_run penv w j _ newJobClosure k F). reflexivity.
    + rewrite (executeGeminiBackground_data_run penv w j _ newJobClosure k F). reflexivity.
Qed.

(** X3.  A child is killed at most once, and never when it closed by
    itself: the executors kill it when the first settling event is the
    timeout, a spawn error or a stdin error; a background job is killed
    only by its timeout, as a process group ([-pid]) unless the platform is
    [win32]. *)
Theorem kill_discipline (fullPrompt m : jsstring) (j : Job) (k : Counters) :
  filter isKill (effectsOf (executeCodex penv w fullPrompt m) k)
  = match spawnResult w (spawns k) with
    | Spawned child =>
        match firstSettling (child_events child) with
        | Some (OnClose _) | None => []
        | Some _ => [ChildKill]
        end
    | SpawnThrows _ => []
    end /\
  filter isKill (effectsOf (executeGemini penv w fullPrompt m) k)
  = match spawnResult w (spawns k) with
    | Spawned child =>
        match firstSettling (child_events child) with
        | Some (OnClose _) | None => []
        | Some _ => [ChildKill]
        end
    | SpawnThrows _ => []
    end /\
  filter isKill (effectsOf (runJob penv w j) k)
  = match firstSettling (job_events j) with
    | Some OnTimeout => [groupKill penv (job_pid j)]
    | _ => []
    end.
Proof.
  split; [|split; [|apply runJob_kills]].
  - rewrite executeCodex_effects.
    destruct (spawnResult w (spawns k)) as [err | child]; [reflexivity|].
    rewrite filter_app, executeCodex_kills. reflexivity.
  - rewrite executeGemini_effects.
    destruct (spawnResult w (spawns k)) as [err | child]; [reflexivity|].
    rewrite filter_app, executeGemini_kills. reflexivity.
Qed.

End Protocol.

Section CodexOutcome.
Context {num : NumberSemantics}.
Variable penv : ProcessEnv.
Variable w : World.

(** X6.  [executeCodex] leaves its promise pending in two cases only: the
    child has no settling event, or its first settling event is a close
    that counts as a success and the decoder throws on the accumulated
    output (the latch is set before the decoder runs, so nothing settles the
    promise afterwards). *)
Theorem executeCodex_pending_iff (fullPrompt m : jsstring) (k : Counters) :
  valueOf (executeCodex penv w fullPrompt m) k = Pending
  <-> exists child,
        spawnResult w (spawns k) = Spawned child /\
        match firstSettling (child_events child) with
        | None => True
        | Some (OnClose code) =>
            isZeroCode code
            || truthy_str (trim (stdoutOf (beforeSettling (child_events child)))) = true /\
            exists e, parseCodexOutput (stdoutOf (beforeSettling (child_events child)))
                      = Throw e
        | Some _ => False
        end.
Proof.
  rewrite (proj1 (executeCodex_run penv w fullPrompt m k)).
  destruct (spawnResult w (spawns k)) as [err | child]; cbn [codexOutcome].
  - split; [discriminate | intros [c [H _]]; discriminate H].
  - transitivity
      (match firstSettling (child_events child) with
       | None => True
       | Some (OnClose code) =>
           isZeroCode code
           || truthy_str (trim (stdoutOf (beforeSettling (child_events child)))) = true /\
           exists e, parseCodexOutput (stdoutOf (beforeSettling (child_events child)))
                     = Throw e
       | Some _ => False
       end);
      [|split; [intros H; exists child; split; [reflexivity | exact H]
               |intros [c [H N]]; injection H as <-; exact N]].
    destruct (firstSettling (child_events child)) as [e|] eqn:F.
    + destruct (firstSettling_split _ _ F) as [post [E [D S]]].
      rewrite E at 1.
      rewrite (proj2 (executeCodex_first penv _ e post start D S)).
      destruct e; try discriminate S; callback;
        cbn [atClose settled stdout stderr settle promise negb valueOf fst];
        try (split; [discriminate | contradiction]).
      destruct (isZeroCode code
                || truthy_str (trim (stdoutOf (beforeSettling (child_events child)))));
        [|split; [discriminate | intros [C _]; discriminate C]].
      destruct (parseCodexOutput (stdoutOf (beforeSettling (child_events child))))
        as [r | e0].
      * split; [discriminate | intros [_ [e1 C]]; discriminate C].
      * split; [intros _; split; [reflexivity | exists e0; reflexivity] | reflexivity].
    + split; [intros _; exact I|]. intros _.
      apply firstSettling_none in F. unfold valueOf.
      rewrite (executeCodex_data_run penv (child_events child) newClosure start F).
      reflexivity.
Qed.

End CodexOutcome.

Lemma first_settling_event_decides_witness :
  dataOnly [OnStdout (u "par"); OnStderr (u "warn"); OnStdout (u "tial")] = true /\
  settles OnTimeout = true /\
  promise (valueOf (deliver (executeGemini_on sampleEnv)
                      ([OnStdout (u "par"); OnStderr (u "warn"); OnStdout (u "tial")]
                         ++ OnTimeout :: [OnClose (Some 0%Z)]) newClosure) start)
  = promise (valueOf (executeGemini_on sampleEnv OnTimeout
                        (atClose (u "par" ++ u "tial") (u "warn"))) start).
Proof.
  split; [reflexivity | split; [reflexivity|]].
  apply (proj2 (proj1 (proj2
    (@first_settling_event_decides literalNumbers sampleEnv
       (sampleWorld (fun _ => childWith []))
       [OnStdout (u "par"); OnStderr (u "warn"); OnStdout (u "tial")] OnTimeout
       [OnClose (Some 0%Z)] (sampleJob gemini []) start eq_refl eq_refl)))).
Defined.

(** ** The terminal record of a background job *)

Section TerminalRecord.
Context {num : NumberSemantics}.
Variable penv : ProcessEnv.
Variable w : World.

(** The effects of a job are those of the callback of its first settling
    event, run on the output accumulated before it. *)
Lemma runJob_first (j : Job) (k : Counters) :
  effectsOf (runJob penv w j) k
  = match firstSettling (job_events j) with
    | None => []
    | Some e =>
        let c := bgAtClose (stdoutOf (beforeSettling (job_events j)))
                   (stderrOf (beforeSettling (job_events j))) in
        match job_provider j with
        | codex => effectsOf (executeCodexBackground_on penv w j e c) k
        | gemini => effectsOf (executeGeminiBackground_on penv w j e c) k
        end
    end.
Proof.
  unfold runJob. destruct (firstSettling (job_events j)) as [e|] eqn:F.
  - destruct (firstSettling_split _ _ F) as [post [E [D S]]].
    cbv zeta. destruct (job_provider j).
    + rewrite E at 1. apply executeCodexBackground_first; assumption.
    + rewrite E at 1. apply executeGeminiBackground_first; assumption.
  - apply firstSettling_none in F. unfold effectsOf.
    destruct (job_provider j).
    + rewrite (executeCodexBackground_data_run penv w j _ newJobClosure k F). reflexivity.
    + rewrite (executeGeminiBackground_data_run penv w j _ newJobClosure k F). reflexivity.
Qed.

Ltac job_cases j k :=
  rewrite (runJob_first j k);
  destruct (firstSettling (job_events j)) as [e|]; [|cbn; tauto];
  cbv zeta;
  destruct (job_provider j) eqn:P;
  destruct e; callback;
  try destruct (str_eqb (platform penv) (u "win32"));
  cbn [bgAtClose bg_settled bg_stdout bg_stderr negb bgSettle bgAddStdout bgAddStderr];
  branches.

(** X4.  A background job persists a response only together with its
    [completed] record: the response is written right before that record,
    for the job's own id, provider and model and without fallback fields;
    and a [completed] record is never written without it. *)
Theorem response_persisted_with_completed (j : Job) (k : Counters) :
  (forall rr, In (PersistResponse rr) (effectsOf (runJob penv w j) k) ->
     effectsOf (runJob penv w j) k
     = [ClearTimeout; PersistResponse rr;
        WriteJobStatus (withStatus (job_initialStatus j) completed
                          (Some (clock w (clockReads k))) None)] /\
     rr_provider rr = job_provider j /\
     rr_promptId rr = meta_jobId (job_meta j) /\
     rr_slug rr = meta_slug (job_meta j) /\
     rr_model rr = job_model j /\
     rr_usedFallback rr = None /\ rr_fallbackModel rr = None) /\
  (forall s, In (WriteJobStatus s) (effectsOf (runJob penv w j) k) ->
     js_status s = completed ->
     exists rr, In (PersistResponse rr) (effectsOf (runJob penv w j) k)).
Proof.
  split.
  - intros rr. job_cases j k; cbn; intros H;
      repeat (destruct H as [H | H]; try discriminate H; try contradiction);
      try contradiction;
      injection H as <-; repeat split.
  - intros s. job_cases j k; cbn; intros H;
      repeat (destruct H as [H | H]; try discriminate H; try contradiction);
      try contradiction;
      injection H as <-; cbn; intros C; try discriminate C;
      eexists; right; left; reflexivity.
Qed.

(** X5.  Every record a job writes after [running] is the initial record
    with three fields replaced: a terminal status, the time of the write as
    [completedAt], and an error message unless the status is
    [completed].  The job id, pid, model, files and [spawnedAt] are those of
    the initial record. *)
Theorem terminal_record_fields (j : Job) (k : Counters) (s : JobStatus) :
  In (WriteJobStatus s) (effectsOf (runJob penv w j) k) ->
  isTerminal (js_status s) = true /\
  js_completedAt s = Some (clock w (clockReads k)) /\
  (js_status s = completed -> js_error s = js_error (job_initialStatus j)) /\
  (js_status s <> completed -> exists m, js_error s = Some m) /\
  js_provider s = js_provider (job_initialStatus j) /\
  js_jobId s = js_jobId (job_initialStatus j) /\
  js_slug s = js_slug (job_initialStatus j) /\
  js_pid s = js_pid (job_initialStatus j) /\
  js_promptFile s = js_promptFile (job_initialStatus j) /\
  js_responseFile s = js_responseFile (job_initialStatus j) /\
  js_model s = js_model (job_initialStatus j) /\
  js_agentRole s = js_agentRole (job_initialStatus j) /\
  js_spawnedAt s = js_spawnedAt (job_initialStatus j).
Proof.
  job_cases j k; cbn; intros H;
    repeat (destruct H as [H | H]; try discriminate H; try contradiction);
    try contradiction;
    injection H as <-; cbn;
    (split; [reflexivity|]); (split; [reflexivity|]);
    (split; [try reflexivity; intros C; discriminate C|]);
    (split; [try (intros _; eexists; reflexivity); intros C; exfalso; apply C; reflexivity|]);
    repeat split.
Qed.

End TerminalRecord.

Lemma terminal_record_fields_witness :
  In (WriteJobStatus
        (withStatus (job_initialStatus (sampleJob gemini [OnClose (Some 0%Z)]))
           completed (Some (u "T0")) None))
     (effectsOf (@runJob literalNumbers sampleEnv (sampleWorld (fun _ => childWith []))
                   (sampleJob gemini [OnClose (Some 0%Z)])) start) /\
  isTerminal completed = true.
Proof.
  assert (I : In (WriteJobStatus
        (withStatus (job_initialStatus (sampleJob gemini [OnClose (Some 0%Z)]))
           completed (Some (u "T0")) None))
     (effectsOf (@runJob literalNumbers sampleEnv (sampleWorld (fun _ => childWith []))
                   (sampleJob gemini [OnClose (Some 0%Z)])) start)).
  { vm_compute. right. right. left. reflexivity. }
  split; [exact I|].
  apply (proj1 (@terminal_record_fields literalNumbers sampleEnv
                  (sampleWorld (fun _ => childWith []))
                  (sampleJob gemini [OnClose (Some 0%Z)]) start _ I)).
Defined.

(** ** The request handlers *)

Section HandlerShape.
Context {num : NumberSemantics}.
Variable penv : ProcessEnv.
Variable w : World.

Lemma readAll_value (fs : list jsstring) (k : Counters) :
  valueOf (readAll w fs) k = map (fileText w) fs.
Proof.
  revert k. induction fs as [|f r IH]; intros k; [reflexivity|].
  cbn [readAll map]. unfold validateAndReadFile.
  rewrite !valueOf_bind, !countersOf_bind.
  change (countersOf (emit (ReadFile f)) k) with k.
  change (valueOf (ret (fileText w f)) _) with (fileText w f).
  change (countersOf (ret (fileText w f)) k) with k.
  rewrite IH. reflexivity.
Qed.

Lemma buildFileContext_run (args : AskArgs) (k : Counters) :
  filesOk args = true ->
  buildFileContext w (files args) k
  = (inr (fileContextOf w args), k, map ReadFile (readsOf args)).
Proof.
  unfold filesOk, buildFileContext, fileContextOf, readsOf.
  destruct (files args) as [[|f r]|]; [reflexivity | | reflexivity].
  intros F. apply Nat.leb_le in F.
  destruct (MAX_CONTEXT_FILES <? List.length (f :: r))%nat eqn:E;
    [apply Nat.ltb_lt in E; lia|].
  rewrite run_eq, valueOf_bind, countersOf_bind, effectsOf_bind.
  destruct (readAll_effects w (f :: r) k) as [Ef Cf].
  rewrite Ef, Cf, readAll_value.
  change (effectsOf (ret ?x) k) with (@nil Effect). rewrite app_nil_r. reflexivity.
Qed.

Lemma buildFileContext_many (args : AskArgs) (k : Counters) :
  filesOk args = false ->
  buildFileContext w (files args) k = (inl (List.length (readsOf args)), k, []).
Proof.
  unfold filesOk, buildFileContext, readsOf.
  destruct (files args) as [[|f r]|]; try discriminate.
  intros F. apply Nat.leb_gt in F.
  destruct (MAX_CONTEXT_FILES <? List.length (f :: r))%nat eqn:E;
    [|apply Nat.ltb_ge in E; lia].
  reflexivity.
Qed.

Ltac handler_prelude p args k F :=
  pose proof (buildFileContext_run args k F) as R;
  assert (Bv : valueOf (buildFileContext w (files args)) k = inr (fileContextOf w args))
    by (unfold valueOf; rewrite R; reflexivity);
  assert (Bc : countersOf (buildFileContext w (files args)) k = k)
    by (unfold countersOf; rewrite R; reflexivity);
  assert (Be : effectsOf (buildFileContext w (files args)) k = map ReadFile (readsOf args))
    by (unfold effectsOf; rewrite R; reflexivity);
  clear R;
  rewrite ?valueOf_bind, ?effectsOf_bind, ?countersOf_bind;
  change (countersOf (emit (DetectCli p)) k) with k;
  change (countersOf (emit (ResolveSystemPrompt (roleText (agent_role args)))) k) with k;
  change (effectsOf (emit (DetectCli p)) k) with [DetectCli p];
  change (effectsOf (emit (ResolveSystemPrompt (roleText (agent_role args)))) k)
    with [ResolveSystemPrompt (roleText (agent_role args))];
  rewrite Bv, Bc, Be;
  rewrite ?valueOf_bind, ?effectsOf_bind, ?countersOf_bind;
  match goal with
  | |- context [emit (PersistPrompt ?r)] =>
      change (countersOf (emit (PersistPrompt r)) k) with k;
      change (effectsOf (emit (PersistPrompt r)) k) with [PersistPrompt r]
  end.

Lemma accepted_inv (p : Provider) (roles : list jsstring) (args : AskArgs) :
  accepted w p roles args = true ->
  validRole roles (agent_role args) = true /\
  available (detectCli w p) = true /\ filesOk args = true.
Proof.
  unfold accepted. intros H. apply andb_true_iff in H. destruct H as [H F].
  apply andb_true_iff in H. tauto.
Qed.

Lemma handleAskCodex_sync (args : AskArgs) (k : Counters) :
  accepted w codex CODEX_VALID_ROLES args = true ->
  background args = false ->
  let E := executeCodex penv w (fullPromptOf w args)
             (requested (CODEX_DEFAULT_MODEL penv) args) in
  valueOf (handleAskCodex penv w args) k
  = codexAnswer (linesOf w codex (CODEX_DEFAULT_MODEL penv) args) (valueOf E k) /\
  effectsOf (handleAskCodex penv w args) k
  = preludeOf w codex (CODEX_DEFAULT_MODEL penv) args ++ effectsOf E k
      ++ match valueOf E k,
               persistPrompt w (promptRecordOf w codex (CODEX_DEFAULT_MODEL penv) args) with
         | Fulfilled response, Some pr =>
             [PersistResponse
                {| rr_provider := codex; rr_agentRole := roleText (agent_role args);
                   rr_model := requested (CODEX_DEFAULT_MODEL penv) args;
                   rr_promptId := pr_id pr; rr_slug := pr_slug pr;
                   rr_response := response;
                   rr_usedFallback := None; rr_fallbackModel := None |}]
         | _, _ => []
         end.
Proof.
  intros A B. destruct (accepted_inv _ _ _ A) as [V [D F]].
  cbv zeta. unfold handleAskCodex. rewrite V, D, B. cbn [negb].
  handler_prelude codex args k F.
  unfold preludeOf, linesOf, promptRecordOf, fullPromptOf, requested.
  match goal with
  | |- context [valueOf ?E k] => destruct (valueOf E k)
  end;
    try match goal with
        | |- context [persistPrompt w ?r] => destruct (persistPrompt w r)
        end;
    (split; [reflexivity|]);
    rewrite ?valueOf_bind, ?effectsOf_bind, ?countersOf_bind;
    change (effectsOf (ret ?x) ?c) with (@nil Effect);
    try change (effectsOf (emit ?x) ?c) with [x];
    rewrite ?app_nil_r, <- ?app_assoc; reflexivity.
Qed.


Lemma handleAskCodex_background (args : AskArgs) (k : Counters) :
  accepted w codex CODEX_VALID_ROLES args = true ->
  background args = true ->
  match persistPrompt w (promptRecordOf w codex (CODEX_DEFAULT_MODEL penv) args) with
  | None =>
      valueOf (handleAskCodex penv w args) k
      = Returns (errorResult (u "Failed to persist prompt for background execution")) None /\
      effectsOf (handleAskCodex penv w args) k
      = preludeOf w codex (CODEX_DEFAULT_MODEL penv) args
  | Some pr =>
      let B := executeCodexBackground penv w (fullPromptOf w args)
                 (requested (CODEX_DEFAULT_MODEL penv) args)
                 (metaOf w codex args (requested (CODEX_DEFAULT_MODEL penv) args) pr) in
      match fst (valueOf B k) with
      | BgError e =>
          valueOf (handleAskCodex penv w args) k
          = Returns (errorResult (u "Failed to spawn background job: " ++ e)) None
      | BgPid pid =>
          exists r, isError r = false /\
                    valueOf (handleAskCodex penv w args) k = Returns r (snd (valueOf B k))
      end /\
      countersOf (handleAskCodex penv w args) k = countersOf B k /\
      effectsOf (handleAskCodex penv w args) k
      = preludeOf w codex (CODEX_DEFAULT_MODEL penv) args ++ effectsOf B k
  end.
Proof.
  intros A B. destruct (accepted_inv _ _ _ A) as [V [D F]].
  unfold handleAskCodex. rewrite V, D, B. cbn [negb].
  handler_prelude codex args k F.
  unfold preludeOf, promptRecordOf, fullPromptOf, requested, metaOf.
  match goal with
  | |- context [persistPrompt w ?r] => destruct (persistPrompt w r) as [pr|]
  end.
  - cbv zeta. rewrite ?valueOf_bind, ?effectsOf_bind, ?countersOf_bind.
    match goal with
    | |- context [fst (valueOf ?B k)] => destruct (fst (valueOf B k))
    end.
    + split; [eexists; split; [|reflexivity]; reflexivity|].
      split; [reflexivity|].
      change (effectsOf (ret ?x) ?c) with (@nil Effect).
      rewrite ?app_nil_r, <- ?app_assoc. reflexivity.
    + split; [reflexivity|]. split; [reflexivity|].
      change (effectsOf (ret ?x) ?c) with (@nil Effect).
      rewrite ?app_nil_r, <- ?app_assoc. reflexivity.
  - split; [reflexivity|].
    change (effectsOf (ret ?x) ?c) with (@nil Effect).
    rewrite ?app_nil_r, <- ?app_assoc. reflexivity.
Qed.

Lemma handleAskGemini_sync (fallbacks : list jsstring) (args : AskArgs) (k : Counters) :
  accepted w gemini GEMINI_VALID_ROLES args = true ->
  background args = false ->
  let T := tryModels penv w (fullPromptOf w args)
             (linesOf w gemini (GEMINI_DEFAULT_MODEL penv) args)
             (requested (GEMINI_DEFAULT_MODEL penv) args)
             (roleText (agent_role args))
             (persistPrompt w (promptRecordOf w gemini (GEMINI_DEFAULT_MODEL penv) args))
             (modelsToTry fallbacks (requested (GEMINI_DEFAULT_MODEL penv) args)) [] in
  valueOf (handleAskGeminiWith penv w fallbacks args) k = valueOf T k /\
  effectsOf (handleAskGeminiWith penv w fallbacks args) k
  = preludeOf w gemini (GEMINI_DEFAULT_MODEL penv) args ++ effectsOf T k.
Proof.
  intros A B. destruct (accepted_inv _ _ _ A) as [V [D F]].
  cbv zeta. unfold handleAskGeminiWith. rewrite V, D, B. cbn [negb].
  handler_prelude gemini args k F.
  unfold preludeOf, linesOf, promptRecordOf, fullPromptOf, requested.
  split; [reflexivity|]. rewrite <- ?app_assoc. reflexivity.
Qed.

Lemma handleAskGemini_background (fallbacks : list jsstring) (args : AskArgs)
    (k : Counters) :
  accepted w gemini GEMINI_VALID_ROLES args = true ->
  background args = true ->
  match persistPrompt w (promptRecordOf w gemini (GEMINI_DEFAULT_MODEL penv) args) with
  | None =>
      valueOf (handleAskGeminiWith penv w fallbacks args) k
      = Returns (errorResult (u "Failed to persist prompt for background execution")) None /\
      effectsOf (handleAskGeminiWith penv w fallbacks args) k
      = preludeOf w gemini (GEMINI_DEFAULT_MODEL penv) args
  | Some pr =>
      let first := hd [] (modelsToTry fallbacks (requested (GEMINI_DEFAULT_MODEL penv) args)) in
      let B := executeGeminiBackground penv w (fullPromptOf w args) first
                 (metaOf w gemini args first pr) in
      match fst (valueOf B k) with
      | BgError e =>
          valueOf (handleAskGeminiWith penv w fallbacks args) k
          = Returns (errorResult (u "Failed to spawn background job: " ++ e)) None
      | BgPid pid =>
          exists r, isError r = false /\
                    valueOf (handleAskGeminiWith penv w fallbacks args) k
                    = Returns r (snd (valueOf B k))
      end /\
      countersOf (handleAskGeminiWith penv w fallbacks args) k = countersOf B k /\
      effectsOf (handleAskGeminiWith penv w fallbacks args) k
      = preludeOf w gemini (GEMINI_DEFAULT_MODEL penv) args ++ effectsOf B k
  end.
Proof.
  intros A B. destruct (accepted_inv _ _ _ A) as [V [D F]].
  unfold handleAskGeminiWith. rewrite V, D, B. cbn [negb].
  handler_prelude gemini args k F.
  unfold preludeOf, promptRecordOf, fullPromptOf, requested, metaOf.
  match goal with
  | |- context [persistPrompt w ?r] => destruct (persistPrompt w r) as [pr|]
  end.
  - cbv zeta. rewrite ?valueOf_bind, ?effectsOf_bind, ?countersOf_bind.
    match goal with
    | |- context [fst (valueOf ?B k)] => destruct (fst (valueOf B k))
    end.
    + split; [eexists; split; [|reflexivity]; reflexivity|].
      split; [reflexivity|].
      change (effectsOf (ret ?x) ?c) with (@nil Effect).
      rewrite ?app_nil_r, <- ?app_assoc. reflexivity.
    + split; [reflexivity|]. split; [reflexivity|].
      change (effectsOf (ret ?x) ?c) with (@nil Effect).
      rewrite ?app_nil_r, <- ?app_assoc. reflexivity.
  - split; [reflexivity|].
    change (effectsOf (ret ?x) ?c) with (@nil Effect).
    rewrite ?app_nil_r, <- ?app_assoc. reflexivity.
Qed.

(** The two early refusals of a request with a valid role. *)
Lemma handleAskCodex_refused (args : AskArgs) (k : Counters) :
  validRole CODEX_VALID_ROLES (agent_role args) = true ->
  available (detectCli w codex) && filesOk args = false ->
  handleAskCodex penv w args k
  = if available (detectCli w codex) then
      (Returns (tooManyFiles (List.length (readsOf args))) None, k,
       [DetectCli codex; ResolveSystemPrompt (roleText (agent_role args))])
    else
      (Returns (notAvailable (u "Codex") (detectCli w codex)) None, k, [DetectCli codex]).
Proof.
  intros V E. unfold handleAskCodex. rewrite V. cbn [negb].
  destruct (available (detectCli w codex)) eqn:A; cbn [andb negb] in *; [|reflexivity].
  unfold bind. cbn [emit fst snd]. rewrite (buildFileContext_many args k E). reflexivity.
Qed.

Lemma handleAskGemini_refused (fallbacks : list jsstring) (args : AskArgs) (k : Counters) :
  validRole GEMINI_VALID_ROLES (agent_role args) = true ->
  available (detectCli w gemini) && filesOk args = false ->
  handleAskGeminiWith penv w fallbacks args k
  = if available (detectCli w gemini) then
      (Returns (tooManyFiles (List.length (readsOf args))) None, k,
       [DetectCli gemini; ResolveSystemPrompt (roleText (agent_role args))])
    else
      (Returns (notAvailable (u "Gemini") (detectCli w gemini)) None, k, [DetectCli gemini]).
Proof.
  intros V E. unfold handleAskGeminiWith. rewrite V. cbn [negb].
  destruct (available (detectCli w gemini)) eqn:A; cbn [andb negb] in *; [|reflexivity].
  unfold bind. cbn [emit fst snd]. rewrite (buildFileContext_many args k E). reflexivity.
Qed.

End HandlerShape.

Section HandlerProperties.
Context {num : NumberSemantics}.
Variable penv : ProcessEnv.
Variable w : World.

Lemma preludeOf_prelude (p : Provider) (default : jsstring) (args : AskArgs) :
  forallb isPrelude (preludeOf w p default args) = true.
Proof.
  unfold preludeOf. cbn [app forallb isPrelude andb]. rewrite forallb_app.
  cbn [forallb isPrelude andb]. rewrite andb_true_r.
  induction (readsOf args) as [|f r IH]; [reflexivity | exact IH].
Qed.

Lemma prelude_filter (P : Effect -> bool) (l : list Effect) :
  (forall e, isPrelude e = true -> P e = false) ->
  forallb isPrelude l = true -> filter P l = [].
Proof.
  intros H. induction l as [|e r IH]; [reflexivity|].
  cbn. intros F. apply andb_true_iff in F. destruct F as [F1 F2].
  rewrite (H e F1). exact (IH F2).
Qed.

Lemma preludeOf_filter (P : Effect -> bool) (p : Provider) (default : jsstring)
    (args : AskArgs) :
  (forall e, isPrelude e = true -> P e = false) ->
  filter P (preludeOf w p default args) = [].
Proof. intros H. apply prelude_filter; [exact H | apply preludeOf_prelude]. Qed.

Ltac not_prelude := intros e; destruct e; try reflexivity; discriminate.

(** X7.  More context files than the cap: both handlers answer with the
    error that names the cap and the number of files, after they detected
    the CLI and resolved the system prompt and before any file is read;
    nothing is persisted and no process is spawned. *)
Theorem too_many_files_refused (fallbacks : list jsstring) (args : AskArgs)
    (l : list jsstring) (k : Counters) :
  files args = Some l ->
  (20 < List.length l)%nat ->
  (validRole CODEX_VALID_ROLES (agent_role args) = true ->
   available (detectCli w codex) = true ->
   handleAskCodex penv w args k
   = (Returns (errorResult (u "Too many context files (max 20, got "
                              ++ ofNat (List.length l) ++ u ")")) None,
      k, [DetectCli codex; ResolveSystemPrompt (roleText (agent_role args))])) /\
  (validRole GEMINI_VALID_ROLES (agent_role args) = true ->
   available (detectCli w gemini) = true ->
   handleAskGeminiWith penv w fallbacks args k
   = (Returns (errorResult (u "Too many context files (max 20, got "
                              ++ ofNat (List.length l) ++ u ")")) None,
      k, [DetectCli gemini; ResolveSystemPrompt (roleText (agent_role args))])).
Proof.
  intros Fl L.
  assert (F : filesOk args = false).
  { unfold filesOk. rewrite Fl. apply Nat.leb_gt. exact L. }
  assert (R : readsOf args = l) by (unfold readsOf; rewrite Fl; reflexivity).
  split; intros V A.
  - rewrite (handleAskCodex_refused penv w args k V) by (rewrite A, F; reflexivity).
    rewrite A, R. reflexivity.
  - rewrite (handleAskGemini_refused penv w fallbacks args k V) by (rewrite A, F; reflexivity).
    rewrite A, R. reflexivity.
Qed.

(** X8.  The CLI is not there: both handlers answer with the error of the
    detection and its install hint, and do nothing else: no system prompt
    is resolved, no file read, nothing persisted or spawned. *)
Theorem cli_unavailable_refused (fallbacks : list jsstring) (args : AskArgs) (k : Counters) :
  (validRole CODEX_VALID_ROLES (agent_role args) = true ->
   available (detectCli w codex) = false ->
   handleAskCodex penv w args k
   = (Returns (errorResult (u "Codex CLI is not available: "
                              ++ det_error (detectCli w codex) ++ [LF; LF]
                              ++ installHint (detectCli w codex))) None,
      k, [DetectCli codex])) /\
  (validRole GEMINI_VALID_ROLES (agent_role args) = true ->
   available (detectCli w gemini) = false ->
   handleAskGeminiWith penv w fallbacks args k
   = (Returns (errorResult (u "Gemini CLI is not available: "
                              ++ det_error (detectCli w gemini) ++ [LF; LF]
                              ++ installHint (detectCli w gemini))) None,
      k, [DetectCli gemini])).
Proof.
  split; intros V A.
  - rewrite (handleAskCodex_refused penv w args k V) by (rewrite A; reflexivity).
    rewrite A. reflexivity.
  - rewrite (handleAskGemini_refused penv w fallbacks args k V) by (rewrite A; reflexivity).
    rewrite A. reflexivity.
Qed.

(** X9.  A background request whose prompt could not be persisted is
    answered with an error, and its effects end with the attempt to persist:
    no process is spawned and no status is written. *)
Theorem background_needs_prompt_record (fallbacks : list jsstring) (args : AskArgs)
    (k : Counters) :
  background args = true ->
  (accepted w codex CODEX_VALID_ROLES args = true ->
   persistPrompt w (promptRecordOf w codex (CODEX_DEFAULT_MODEL penv) args) = None ->
   valueOf (lifecycle penv w (handleAskCodex penv w) args) k
   = Returns (errorResult (u "Failed to persist prompt for background execution")) None /\
   effectsOf (lifecycle penv w (handleAskCodex penv w) args) k
   = preludeOf w codex (CODEX_DEFAULT_MODEL penv) args) /\
  (accepted w gemini GEMINI_VALID_ROLES args = true ->
   persistPrompt w (promptRecordOf w gemini (GEMINI_DEFAULT_MODEL penv) args) = None ->
   valueOf (lifecycle penv w (handleAskGeminiWith penv w fallbacks) args) k
   = Returns (errorResult (u "Failed to persist prompt for background execution")) None /\
   effectsOf (lifecycle penv w (handleAskGeminiWith penv w fallbacks) args) k
   = preludeOf w gemini (GEMINI_DEFAULT_MODEL penv) args).
Proof.
  intros B. split; intros A N.
  - pose proof (handleAskCodex_background penv w args k A B) as H.
    rewrite N in H. destruct H as [Hv He].
    rewrite lifecycle_effects. unfold lifecycle. rewrite valueOf_bind, Hv, He.
    split; [reflexivity | apply app_nil_r].
  - pose proof (handleAskGemini_background penv w fallbacks args k A B) as H.
    rewrite N in H. destruct H as [Hv He].
    rewrite lifecycle_effects. unfold lifecycle. rewrite valueOf_bind, Hv, He.
    split; [reflexivity | apply app_nil_r].
Qed.

(** X10.  The synchronous path of [handleAskCodex] makes one attempt: one
    process is spawned, for the requested model; the answer is the decoded
    response under the parameter block, or the error of the attempt after
    [Codex CLI error: ]; and a response is persisted exactly when the
    attempt succeeded and the prompt had been persisted. *)
Theorem codex_single_attempt (args : AskArgs) (k : Counters) :
  accepted w codex CODEX_VALID_ROLES args = true ->
  background args = false ->
  let outcome := codexOutcome penv (spawnResult w (spawns k)) in
  valueOf (handleAskCodex penv w args) k
  = match outcome with
    | Fulfilled response =>
        Returns {| content := [linesOf w codex (CODEX_DEFAULT_MODEL penv) args
                                 ++ separator ++ response];
                   isError := false |} None
    | Rejected message =>
        Returns (errorResult (linesOf w codex (CODEX_DEFAULT_MODEL penv) args
                                ++ separator ++ u "Codex CLI error: " ++ message)) None
    | Pending => NeverReturns
    end /\
  filter isSpawn (effectsOf (handleAskCodex penv w args) k)
  = [codexSpawn (requested (CODEX_DEFAULT_MODEL penv) args)] /\
  filter isPersistResponse (effectsOf (handleAskCodex penv w args) k)
  = match outcome,
          persistPrompt w (promptRecordOf w codex (CODEX_DEFAULT_MODEL penv) args) with
    | Fulfilled response, Some pr =>
        [PersistResponse
           {| rr_provider := codex; rr_agentRole := roleText (agent_role args);
              rr_model := requested (CODEX_DEFAULT_MODEL penv) args;
              rr_promptId := pr_id pr; rr_slug := pr_slug pr;
              rr_response := response;
              rr_usedFallback := None; rr_fallbackModel := None |}]
    | _, _ => []
    end.
Proof.
  intros A B. cbv zeta.
  destruct (handleAskCodex_sync penv w args k A B) as [Hv He].
  destruct (executeCodex_run penv w (fullPromptOf w args)
              (requested (CODEX_DEFAULT_MODEL penv) args) k) as [V [_ [rest [E Q]]]].
  rewrite V in Hv, He. rewrite Hv, He, E. clear Hv He V E.
  destruct (quiet_no_spawn rest Q) as [Q1 Q2].
  split; [reflexivity|].
  rewrite !filter_app.
  rewrite (preludeOf_filter isSpawn) by not_prelude.
  rewrite (preludeOf_filter isPersistResponse) by not_prelude.
  cbn [app filter codexSpawn isSpawn isPersistResponse]. rewrite Q1, Q2. cbn [app].
  destruct (codexOutcome penv (spawnResult w (spawns k))) as [|response|message];
    [split; reflexivity | | split; reflexivity].
  destruct (persistPrompt w (promptRecordOf w codex (CODEX_DEFAULT_MODEL penv) args));
    split; reflexivity.
Qed.


(** The loop stops at the first model whose attempt is fulfilled. *)
Lemma tryModels_first_success (fullPrompt lines requestedModel role : jsstring)
    (promptResult : option PromptResult) (pre : list jsstring) (m : jsstring)
    (post errors : list jsstring) (k : Counters) (response : jsstring) :
  allRejected penv w (spawns k) pre = true ->
  geminiOutcome penv (spawnResult w (spawns k + List.length pre)) = Fulfilled response ->
  valueOf (tryModels penv w fullPrompt lines requestedModel role promptResult
             (pre ++ m :: post) errors) k
  = Returns
      {| content :=
           [lines ++ separator
              ++ (if negb (str_eqb m requestedModel) then
                    u "[Fallback: used " ++ m ++ u " instead of " ++ requestedModel
                      ++ u "]" ++ [LF; LF]
                  else [])
              ++ response];
         isError := false |} None /\
  filter isSpawn
    (effectsOf (tryModels penv w fullPrompt lines requestedModel role promptResult
                  (pre ++ m :: post) errors) k)
  = map geminiSpawn (pre ++ [m]) /\
  filter isPersistResponse
    (effectsOf (tryModels penv w fullPrompt lines requestedModel role promptResult
                  (pre ++ m :: post) errors) k)
  = match promptResult with
    | Some pr =>
        [PersistResponse
           {| rr_provider := gemini; rr_agentRole := role; rr_model := m;
              rr_promptId := pr_id pr; rr_slug := pr_slug pr; rr_response := response;
              rr_usedFallback := Some (negb (str_eqb m requestedModel));
              rr_fallbackModel :=
                if negb (str_eqb m requestedModel) then Some m else None |}]
    | None => []
    end.
Proof.
  revert errors k. induction pre as [|x r IH]; intros errors k A G.
  - rewrite Nat.add_0_r in G. cbn [app tryModels map].
    rewrite valueOf_bind, effectsOf_bind.
    destruct (executeGemini_run penv w fullPrompt m k) as [V [C [rest [E Q]]]].
    rewrite V, C, E, G. destruct (quiet_no_spawn rest Q) as [Q1 Q2].
    rewrite valueOf_bind, effectsOf_bind.
    change (effectsOf (ret ?x) ?c) with (@nil Effect).
    change (valueOf (ret ?x) ?c) with x.
    rewrite app_nil_r, !filter_app.
    cbn [app filter geminiSpawn isSpawn isPersistResponse]. rewrite Q1, Q2. cbn [app].
    destruct promptResult; repeat split.
  - cbn [allRejected] in A. apply andb_true_iff in A. destruct A as [A1 A2].
    cbn [app tryModels map]. rewrite valueOf_bind, effectsOf_bind.
    destruct (executeGemini_run penv w fullPrompt x k) as [V [C [rest [E Q]]]].
    rewrite V, C, E. destruct (quiet_no_spawn rest Q) as [Q1 Q2].
    destruct (geminiOutcome penv (spawnResult w (spawns k))) as [|v|msg];
      try discriminate A1.
    destruct (IH (errors ++ [x ++ u ": " ++ msg])
                {| spawns := S (spawns k); clockReads := clockReads k |} A2)
      as [I1 [I2 I3]].
    { cbn [spawns List.length] in *. rewrite <- G. f_equal. f_equal. lia. }
    rewrite I1. split; [reflexivity|].
    rewrite !filter_app.
    cbn [app filter geminiSpawn isSpawn isPersistResponse]. rewrite Q1, Q2. cbn [app].
    rewrite I2, I3. split; reflexivity.
Qed.

(** X11.  The synchronous path of [handleAskGemini] stops at the first
    model that succeeds: when the attempts on the models before [m] in the
    chain are rejected and the one on [m] is fulfilled, exactly those models
    are spawned, in order; the answer carries the response, after a
    fallback note exactly when [m] is not the requested model; and the
    response persisted names [m] and says whether it was a fallback. *)
Theorem first_success_wins (fallbacks : list jsstring) (args : AskArgs)
    (pre : list jsstring) (m : jsstring) (post : list jsstring) (response : jsstring)
    (k : Counters) :
  accepted w gemini GEMINI_VALID_ROLES args = true ->
  background args = false ->
  modelsToTry fallbacks (requested (GEMINI_DEFAULT_MODEL penv) args) = pre ++ m :: post ->
  allRejected penv w (spawns k) pre = true ->
  geminiOutcome penv (spawnResult w (spawns k + List.length pre)) = Fulfilled response ->
  let usedFallback := negb (str_eqb m (requested (GEMINI_DEFAULT_MODEL penv) args)) in
  valueOf (handleAskGeminiWith penv w fallbacks args) k
  = Returns
      {| content :=
           [linesOf w gemini (GEMINI_DEFAULT_MODEL penv) args ++ separator
              ++ (if usedFallback then
                    u "[Fallback: used " ++ m ++ u " instead of "
                      ++ requested (GEMINI_DEFAULT_MODEL penv) args ++ u "]" ++ [LF; LF]
                  else [])
              ++ response];
         isError := false |} None /\
  filter isSpawn (effectsOf (handleAskGeminiWith penv w fallbacks args) k)
  = map geminiSpawn (pre ++ [m]) /\
  filter isPersistResponse (effectsOf (handleAskGeminiWith penv w fallbacks args) k)
  = match persistPrompt w (promptRecordOf w gemini (GEMINI_DEFAULT_MODEL penv) args) with
    | Some pr =>
        [PersistResponse
           {| rr_provider := gemini; rr_agentRole := roleText (agent_role args);
              rr_model := m; rr_promptId := pr_id pr; rr_slug := pr_slug pr;
              rr_response := response;
              rr_usedFallback := Some usedFallback;
              rr_fallbackModel := if usedFallback then Some m else None |}]
    | None => []
    end.
Proof.
  intros A B Ch R G. cbv zeta.
  destruct (handleAskGemini_sync penv w fallbacks args k A B) as [Hv He].
  rewrite Hv, He, Ch. clear Hv He.
  destruct (tryModels_first_success (fullPromptOf w args)
              (linesOf w gemini (GEMINI_DEFAULT_MODEL penv) args)
              (requested (GEMINI_DEFAULT_MODEL penv) args) (roleText (agent_role args))
              (persistPrompt w (promptRecordOf w gemini (GEMINI_DEFAULT_MODEL penv) args))
              pre m post [] k response R G) as [T1 [T2 T3]].
  rewrite T1. split; [reflexivity|].
  rewrite !filter_app, T2, T3.
  rewrite (preludeOf_filter isSpawn) by not_prelude.
  rewrite (preludeOf_filter isPersistResponse) by not_prelude.
  split; reflexivity.
Qed.


(** What a call of a supervisor amounts to, case by case. *)
Lemma executeCodexBackground_run (fullPrompt m : jsstring) (jobMeta : BackgroundJobMeta)
    (k : Counters) :
  executeCodexBackground penv w fullPrompt m jobMeta k
  = match spawnResult w (spawns k) with
    | SpawnThrows e =>
        (BgError (u "Failed to start background execution: " ++ e), None,
         {| spawns := S (spawns k); clockReads := clockReads k |},
         [codexBackgroundSpawn m])
    | Spawned child =>
        match usablePid child with
        | None =>
            (BgError (u "Failed to get process ID"), None,
             {| spawns := S (spawns k); clockReads := clockReads k |},
             [codexBackgroundSpawn m])
        | Some pid =>
            let t := clock w (clockReads k) in
            (BgPid pid, Some (dispatched codex m jobMeta pid t (child_events child)),
             {| spawns := S (spawns k); clockReads := S (clockReads k) |},
             [codexBackgroundSpawn m; Unref;
              WriteJobStatus (initialStatusOf codex m jobMeta pid t);
              SetTimeout (CODEX_TIMEOUT penv); StdinWrite fullPrompt; StdinEnd;
              WriteJobStatus
                (withStatus (initialStatusOf codex m jobMeta pid t) running None None)])
        end
    end.
Proof.
  unfold executeCodexBackground, usablePid, bind, spawn. cbn [fst snd].
  destruct (spawnResult w (spawns k)) as [err | child]; [reflexivity|].
  destruct (child_pid child) as [pid|]; [|reflexivity].
  destruct (pid =? 0)%Z; reflexivity.
Qed.

Lemma executeGeminiBackground_run (fullPrompt m : jsstring) (jobMeta : BackgroundJobMeta)
    (k : Counters) :
  executeGeminiBackground penv w fullPrompt m jobMeta k
  = match spawnResult w (spawns k) with
    | SpawnThrows e =>
        (BgError (u "Failed to start background execution: " ++ e), None,
         {| spawns := S (spawns k); clockReads := clockReads k |},
         [geminiBackgroundSpawn m])
    | Spawned child =>
        match usablePid child with
        | None =>
            (BgError (u "Failed to get process ID"), None,
             {| spawns := S (spawns k); clockReads := clockReads k |},
             [geminiBackgroundSpawn m])
        | Some pid =>
            let t := clock w (clockReads k) in
            (BgPid pid, Some (dispatched gemini m jobMeta pid t (child_events child)),
             {| spawns := S (spawns k); clockReads := S (clockReads k) |},
             [geminiBackgroundSpawn m; Unref;
              WriteJobStatus (initialStatusOf gemini m jobMeta pid t);
              SetTimeout (GEMINI_TIMEOUT penv); StdinWrite fullPrompt; StdinEnd;
              WriteJobStatus
                (withStatus (initialStatusOf gemini m jobMeta pid t) running None None)])
        end
    end.
Proof.
  unfold executeGeminiBackground, usablePid, bind, spawn. cbn [fst snd].
  destruct (spawnResult w (spawns k)) as [err | child]; [reflexivity|].
  destruct (child_pid child) as [pid|]; [|reflexivity].
  destruct (pid =? 0)%Z; reflexivity.
Qed.


Lemma internal_attempt (fullPrompt : jsstring) (l : list Effect) :
  forallb isInternal l = true -> Forall (attemptEffect fullPrompt) l.
Proof.
  induction l as [|e r IH]; [constructor|].
  cbn. intros F. apply andb_true_iff in F. destruct F as [F1 F2].
  constructor; [|exact (IH F2)].
  destruct e; try discriminate F1; exact I.
Qed.

Lemma executeCodex_attempt (fullPrompt m : jsstring) (k : Counters) :
  Forall (attemptEffect fullPrompt) (effectsOf (executeCodex penv w fullPrompt m) k).
Proof.
  rewrite executeCodex_effects.
  destruct (spawnResult w (spawns k)) as [err | child].
  - repeat constructor.
  - apply Forall_app. split; [repeat constructor|].
    apply internal_attempt.
    apply (deliver_codex_pure penv (child_events child) newClosure start).
Qed.

Lemma executeGemini_attempt (fullPrompt m : jsstring) (k : Counters) :
  Forall (attemptEffect fullPrompt) (effectsOf (executeGemini penv w fullPrompt m) k).
Proof.
  rewrite executeGemini_effects.
  destruct (spawnResult w (spawns k)) as [err | child].
  - repeat constructor.
  - apply Forall_app. split; [repeat constructor|].
    apply internal_attempt.
    apply (deliver_gemini_pure penv (child_events child) newClosure start).
Qed.

(** The effects of the loop over the models are those of its attempts, and
    at most one response record, which answers the prompt record; the loop
    leaves no job. *)
Lemma tryModels_effects (fullPrompt lines requestedModel role : jsstring)
    (promptResult : option PromptResult) (models errors : list jsstring) (k : Counters) :
  Forall (fun e => match e with
                   | PersistResponse rr => answers gemini role promptResult rr
                   | _ => attemptEffect fullPrompt e
                   end)
    (effectsOf (tryModels penv w fullPrompt lines requestedModel role promptResult
                  models errors) k) /\
  forall r j,
    valueOf (tryModels penv w fullPrompt lines requestedModel role promptResult
               models errors) k = Returns r j -> j = None.
Proof.
  revert errors k. induction models as [|m rest IH]; intros errors k.
  - split; [constructor|]. intros r j H. injection H as _ <-. reflexivity.
  - cbn [tryModels]. rewrite effectsOf_bind, valueOf_bind.
    assert (A : Forall (fun e => match e with
                                 | PersistResponse rr => answers gemini role promptResult rr
                                 | _ => attemptEffect fullPrompt e
                                 end)
                  (effectsOf (executeGemini penv w fullPrompt m) k)).
    { eapply Forall_impl; [|apply executeGemini_attempt].
      intros e. destruct e; cbn; tauto. }
    destruct (valueOf (executeGemini penv w fullPrompt m) k) as [|response|message].
    + split; [rewrite app_nil_r; exact A|]. intros r j H. discriminate H.
    + split.
      * apply Forall_app. split; [exact A|].
        destruct promptResult as [pr|]; repeat constructor.
        exists pr. repeat split.
      * intros r j H. rewrite valueOf_bind in H. injection H as _ <-. reflexivity.
    + destruct (IH (errors ++ [m ++ u ": " ++ message])
                  (countersOf (executeGemini penv w fullPrompt m) k)) as [I1 I2].
      split; [apply Forall_app; split; assumption | exact I2].
Qed.

(** What the callbacks of a job do: the timer, the kill, the records; and a
    response record is for the job's prompt. *)
Lemma runJob_effects (j : Job) (k : Counters) :
  Forall (fun e => match e with
                   | ClearTimeout | ChildKill | ProcessKill _ | Uncaught _ => True
                   | WriteJobStatus s =>
                       js_jobId s = js_jobId (job_initialStatus j) /\
                       js_provider s = js_provider (job_initialStatus j)
                   | PersistResponse rr =>
                       rr_provider rr = job_provider j /\
                       rr_agentRole rr = meta_agentRole (job_meta j) /\
                       rr_promptId rr = meta_jobId (job_meta j) /\
                       rr_slug rr = meta_slug (job_meta j)
                   | _ => False
                   end)
    (effectsOf (runJob penv w j) k).
Proof.
  rewrite (runJob_first penv w j k).
  destruct (firstSettling (job_events j)) as [e|]; [|constructor].
  cbv zeta.
  destruct (job_provider j) eqn:P;
    destruct e; callback;
    try destruct (str_eqb (platform penv) (u "win32"));
    cbn [bgAtClose bg_settled bg_stdout bg_stderr negb bgSettle];
    branches; repeat constructor.
Qed.


Lemma preludeOf_request (p : Provider) (default : jsstring) (args : AskArgs) :
  Forall (requestEffect w p default args) (preludeOf w p default args).
Proof.
  unfold preludeOf. cbn [app].
  constructor; [reflexivity|]. constructor; [reflexivity|].
  apply Forall_app. split; [|constructor; [reflexivity | constructor]].
  apply Forall_forall. intros e H. apply in_map_iff in H.
  destruct H as [f [<- H]]. exact H.
Qed.

Lemma attempt_request (p : Provider) (default : jsstring) (args : AskArgs)
    (l : list Effect) :
  background args = false ->
  Forall (fun e => match e with
                   | PersistResponse rr =>
                       answers p (roleText (agent_role args))
                         (persistPrompt w (promptRecordOf w p default args)) rr
                   | _ => attemptEffect (fullPromptOf w args) e
                   end) l ->
  Forall (requestEffect w p default args) l.
Proof.
  intros B. apply Forall_impl. intros e. destruct e; cbn; try tauto.
  intros ->. symmetry. exact B.
Qed.

Lemma job_request (p : Provider) (default : jsstring) (args : AskArgs) (pr : PromptResult)
    (m : jsstring) (pid : Z) (t : jsstring) (evs : list Event) (k : Counters) :
  background args = true ->
  persistPrompt w (promptRecordOf w p default args) = Some pr ->
  Forall (requestEffect w p default args)
    (effectsOf (runJob penv w (dispatched p m (metaOf w p args m pr) pid t evs)) k).
Proof.
  intros B N. eapply Forall_impl; [|apply runJob_effects].
  intros e. destruct e; cbn; try tauto.
  - intros [J P]. split; [exact B|]. exists pr. repeat split; assumption.
  - intros [P [R [J S]]]. exists pr. repeat split; assumption.
Qed.

Ltac supervisor_parts RB k :=
  match type of RB with
  | ?B0 k = ?R =>
      assert (Rv : valueOf B0 k = fst (fst R)) by (unfold valueOf; rewrite RB; reflexivity);
      assert (Rc : countersOf B0 k = snd (fst R))
        by (unfold countersOf; rewrite RB; reflexivity);
      assert (Re : effectsOf B0 k = snd R) by (unfold effectsOf; rewrite RB; reflexivity);
      clear RB
  end.

(** The effects of a request to Codex, and what it returns, in its four
    cases: refused early, answered synchronously, refused for want of a
    prompt record, dispatched. *)
Lemma codex_request (args : AskArgs) (k : Counters) :
  let fx := effectsOf (lifecycle penv w (handleAskCodex penv w) args) k in
  Forall (requestEffect w codex (CODEX_DEFAULT_MODEL penv) args) fx /\
  (forallb isPrelude fx = true \/
   exists rest, fx = preludeOf w codex (CODEX_DEFAULT_MODEL penv) args ++ rest) /\
  (background args = false ->
   forall r j, valueOf (handleAskCodex penv w args) k = Returns r j -> j = None).
Proof.
  cbv zeta. rewrite lifecycle_effects.
  destruct (validRole CODEX_VALID_ROLES (agent_role args)) eqn:V.
  - destruct (available (detectCli w codex) && filesOk args) eqn:E.
    + assert (A : accepted w codex CODEX_VALID_ROLES args = true)
        by (unfold accepted; rewrite V; exact E).
      destruct (background args) eqn:B.
      * pose proof (handleAskCodex_background penv w args k A B) as H.
        destruct (persistPrompt w (promptRecordOf w codex (CODEX_DEFAULT_MODEL penv) args))
          as [pr|] eqn:N.
        -- cbv zeta in H. destruct H as [Hv [Hc He]]. rewrite He, Hc. clear He Hc.
           pose proof (executeCodexBackground_run (fullPromptOf w args)
                         (requested (CODEX_DEFAULT_MODEL penv) args)
                         (metaOf w codex args (requested (CODEX_DEFAULT_MODEL penv) args) pr)
                         k) as RB.
           supervisor_parts RB k.
           destruct (spawnResult w (spawns k)) as [err | child];
             [|destruct (usablePid child) as [pid|]];
             cbv zeta in Rv, Rc, Re; cbn [fst snd] in Rv, Rc, Re;
             rewrite Rv in Hv; rewrite Rc, Re; cbn [fst snd] in Hv.
           ++ rewrite Hv, app_nil_r.
              split; [|split; [right; eexists; reflexivity | discriminate]].
              apply Forall_app. split; [apply preludeOf_request|].
              repeat constructor; symmetry; exact B.
           ++ destruct Hv as [r [_ Hv]]. rewrite Hv.
              split; [|split; [right; eexists; rewrite <- app_assoc; reflexivity
                              | discriminate]].
              apply Forall_app. split; [apply Forall_app; split|].
              ** apply preludeOf_request.
              ** repeat constructor; try exact B; try (symmetry; exact B);
                   try (exists pr; repeat split; assumption).
              ** apply job_request; [exact B | exact N].
           ++ rewrite Hv, app_nil_r.
              split; [|split; [right; eexists; reflexivity | discriminate]].
              apply Forall_app. split; [apply preludeOf_request|].
              repeat constructor; symmetry; exact B.
        -- destruct H as [Hv He]. rewrite Hv, He, app_nil_r.
           split; [apply preludeOf_request|].
           split; [left; apply preludeOf_prelude | discriminate].
      * destruct (handleAskCodex_sync penv w args k A B) as [Hv He].
        assert (J : forall r j, valueOf (handleAskCodex penv w args) k = Returns r j ->
                                j = None).
        { intros r j. rewrite Hv.
          destruct (valueOf (executeCodex penv w (fullPromptOf w args)
                               (requested (CODEX_DEFAULT_MODEL penv) args)) k);
            cbn [codexAnswer]; intros H; [discriminate H | | ];
            injection H as _ <-; reflexivity. }
        assert (Z : match valueOf (handleAskCodex penv w args) k with
                    | Returns _ (Some j) =>
                        effectsOf (runJob penv w j) (countersOf (handleAskCodex penv w args) k)
                    | _ => []
                    end = []).
        { destruct (valueOf (handleAskCodex penv w args) k) as [r [j|]|] eqn:Hr;
            try reflexivity.
          specialize (J r (Some j) eq_refl). discriminate J. }
        rewrite Z, app_nil_r, He.
        split; [|split; [right; eexists; reflexivity | intros _; exact J]].
        apply Forall_app. split; [apply preludeOf_request|].
        apply attempt_request; [exact B|].
        apply Forall_app. split.
        -- eapply Forall_impl; [|apply executeCodex_attempt].
           intros e. destruct e; cbn; tauto.
        -- destruct (valueOf (executeCodex penv w (fullPromptOf w args)
                                (requested (CODEX_DEFAULT_MODEL penv) args)) k);
             try constructor.
           destruct (persistPrompt w
                       (promptRecordOf w codex (CODEX_DEFAULT_MODEL penv) args)) as [pr|];
             repeat constructor.
           exists pr. repeat split.
    + pose proof (handleAskCodex_refused penv w args k V E) as RB.
      supervisor_parts RB k. rewrite Rv, Re. clear Rv Rc Re.
      destruct (available (detectCli w codex));
        cbn [fst snd app];
        (split; [repeat constructor | split; [left; reflexivity | ]]);
        intros _ r j H; injection H as _ <-; reflexivity.
  - unfold handleAskCodex. rewrite V. cbn [negb].
    cbn [valueOf countersOf effectsOf fst snd app ret].
    split; [constructor | split; [left; reflexivity|]].
    intros _ r j H; injection H as _ <-; reflexivity.
Qed.


(** The effects of a request to Gemini, and what it returns, in its four
    cases: refused early, answered synchronously, refused for want of a
    prompt record, dispatched. *)
Lemma gemini_request (fallbacks : list jsstring) (args : AskArgs) (k : Counters) :
  let fx := effectsOf (lifecycle penv w (handleAskGeminiWith penv w fallbacks) args) k in
  Forall (requestEffect w gemini (GEMINI_DEFAULT_MODEL penv) args) fx /\
  (forallb isPrelude fx = true \/
   exists rest, fx = preludeOf w gemini (GEMINI_DEFAULT_MODEL penv) args ++ rest) /\
  (background args = false ->
   forall r j, valueOf (handleAskGeminiWith penv w fallbacks args) k = Returns r j -> j = None).
Proof.
  cbv zeta. rewrite lifecycle_effects.
  destruct (validRole GEMINI_VALID_ROLES (agent_role args)) eqn:V.
  - destruct (available (detectCli w gemini) && filesOk args) eqn:E.
    + assert (A : accepted w gemini GEMINI_VALID_ROLES args = true)
        by (unfold accepted; rewrite V; exact E).
      destruct (background args) eqn:B.
      * pose proof (handleAskGemini_background penv w fallbacks args k A B) as H.
        destruct (persistPrompt w (promptRecordOf w gemini (GEMINI_DEFAULT_MODEL penv) args))
          as [pr|] eqn:N.
        -- cbv zeta in H. destruct H as [Hv [Hc He]]. rewrite He, Hc. clear He Hc.
           pose proof (executeGeminiBackground_run (fullPromptOf w args)
                         (hd [] (modelsToTry fallbacks
                                   (requested (GEMINI_DEFAULT_MODEL penv) args)))
                         (metaOf w gemini args
                            (hd [] (modelsToTry fallbacks
                                      (requested (GEMINI_DEFAULT_MODEL penv) args))) pr)
                         k) as RB.
           supervisor_parts RB k.
           destruct (spawnResult w (spawns k)) as [err | child];
             [|destruct (usablePid child) as [pid|]];
             cbv zeta in Rv, Rc, Re; cbn [fst snd] in Rv, Rc, Re;
             rewrite Rv in Hv; rewrite Rc, Re; cbn [fst snd] in Hv.
           ++ rewrite Hv, app_nil_r.
              split; [|split; [right; eexists; reflexivity | discriminate]].
              apply Forall_app. split; [apply preludeOf_request|].
              repeat constructor; symmetry; exact B.
           ++ destruct Hv as [r [_ Hv]]. rewrite Hv.
              split; [|split; [right; eexists; rewrite <- app_assoc; reflexivity
                              | discriminate]].
              apply Forall_app. split; [apply Forall_app; split|].
              ** apply preludeOf_request.
              ** repeat constructor; try exact B; try (symmetry; exact B);
                   try (exists pr; repeat split; assumption).
              ** apply job_request; [exact B | exact N].
           ++ rewrite Hv, app_nil_r.
              split; [|split; [right; eexists; reflexivity | discriminate]].
              apply Forall_app. split; [apply preludeOf_request|].
              repeat constructor; symmetry; exact B.
        -- destruct H as [Hv He]. rewrite Hv, He, app_nil_r.
           split; [apply preludeOf_request|].
           split; [left; apply preludeOf_prelude | discriminate].
      * destruct (handleAskGemini_sync penv w fallbacks args k A B) as [Hv He].
        cbv zeta in Hv, He.
        destruct (tryModels_effects (fullPromptOf w args)
                    (linesOf w gemini (GEMINI_DEFAULT_MODEL penv) args)
                    (requested (GEMINI_DEFAULT_MODEL penv) args)
                    (roleText (agent_role args))
                    (persistPrompt w (promptRecordOf w gemini (GEMINI_DEFAULT_MODEL penv) args))
                    (modelsToTry fallbacks (requested (GEMINI_DEFAULT_MODEL penv) args))
                    [] k) as [T1 T2].
        assert (J : forall r j,
                   valueOf (handleAskGeminiWith penv w fallbacks args) k = Returns r j ->
                   j = None).
        { intros r j. rewrite Hv. apply T2. }
        assert (Z : match valueOf (handleAskGeminiWith penv w fallbacks args) k with
                    | Returns _ (Some j) =>
                        effectsOf (runJob penv w j)
                          (countersOf (handleAskGeminiWith penv w fallbacks args) k)
                    | _ => []
                    end = []).
        { destruct (valueOf (handleAskGeminiWith penv w fallbacks args) k) as [r [j|]|] eqn:Hr;
            try reflexivity.
          specialize (J r (Some j) eq_refl). discriminate J. }
        rewrite Z, app_nil_r, He.
        split; [|split; [right; eexists; reflexivity | intros _; exact J]].
        apply Forall_app. split; [apply preludeOf_request|].
        apply attempt_request; [exact B | exact T1].
    + pose proof (handleAskGemini_refused penv w fallbacks args k V E) as RB.
      supervisor_parts RB k. rewrite Rv, Re. clear Rv Rc Re.
      destruct (available (detectCli w gemini));
        cbn [fst snd app];
        (split; [repeat constructor | split; [left; reflexivity | ]]);
        intros _ r j H; injection H as _ <-; reflexivity.
  - unfold handleAskGeminiWith. rewrite V. cbn [negb].
    cbn [valueOf countersOf effectsOf fst snd app ret].
    split; [constructor | split; [left; reflexivity|]].
    intros _ r j H; injection H as _ <-; reflexivity.
Qed.


Lemma prelude_no_stdin (l : list Effect) (d : jsstring) :
  forallb isPrelude l = true -> ~ In (StdinWrite d) l.
Proof.
  intros F H. rewrite forallb_forall in F. specialize (F _ H). discriminate F.
Qed.

Lemma request_no_job (p : Provider) (default : jsstring) (args : AskArgs)
    (l : list Effect) :
  background args = false ->
  Forall (requestEffect w p default args) l -> filter isJobEffect l = [].
Proof.
  intros B F. induction F as [|e r H T IH]; [reflexivity|].
  cbn [filter]. rewrite IH.
  destruct e; cbn in H |- *; try reflexivity.
  - rewrite H, B. reflexivity.
  - congruence.
  - congruence.
  - destruct H as [H _]. congruence.
Qed.

(** X12.  What a child reads on its standard input is the full prompt of
    the request, the one in the prompt record: whenever a handler writes to
    a child, in either mode and for each model it tries, it writes that
    text, and it has asked for the prompt to be persisted before. *)
Theorem stdin_carries_persisted_prompt (fallbacks : list jsstring) (args : AskArgs)
    (k : Counters) (d : jsstring) :
  (In (StdinWrite d) (effectsOf (lifecycle penv w (handleAskCodex penv w) args) k) ->
   d = pp_fullPrompt (promptRecordOf w codex (CODEX_DEFAULT_MODEL penv) args) /\
   exists rest,
     effectsOf (lifecycle penv w (handleAskCodex penv w) args) k
     = preludeOf w codex (CODEX_DEFAULT_MODEL penv) args ++ rest) /\
  (In (StdinWrite d)
      (effectsOf (lifecycle penv w (handleAskGeminiWith penv w fallbacks) args) k) ->
   d = pp_fullPrompt (promptRecordOf w gemini (GEMINI_DEFAULT_MODEL penv) args) /\
   exists rest,
     effectsOf (lifecycle penv w (handleAskGeminiWith penv w fallbacks) args) k
     = preludeOf w gemini (GEMINI_DEFAULT_MODEL penv) args ++ rest).
Proof.
  split; intros H.
  - destruct (codex_request args k) as [F [[P | R] _]].
    + exfalso. exact (prelude_no_stdin _ d P H).
    + split; [|exact R]. rewrite Forall_forall in F. exact (F _ H).
  - destruct (gemini_request fallbacks args k) as [F [[P | R] _]].
    + exfalso. exact (prelude_no_stdin _ d P H).
    + split; [|exact R]. rewrite Forall_forall in F. exact (F _ H).
Qed.

(** X13.  Every record written for a request bears the identity of the
    prompt persisted for it: a response record, synchronous or of a job,
    names the provider, the role, the id and the slug of the prompt record;
    a job status is written only in background mode, for the id of the
    prompt record.  No record is written when the prompt was not
    persisted. *)
Theorem records_bear_prompt_id (fallbacks : list jsstring) (args : AskArgs) (k : Counters) :
  (forall rr,
     In (PersistResponse rr)
        (effectsOf (lifecycle penv w (handleAskCodex penv w) args) k) ->
     answers codex (roleText (agent_role args))
       (persistPrompt w (promptRecordOf w codex (CODEX_DEFAULT_MODEL penv) args)) rr) /\
  (forall rr,
     In (PersistResponse rr)
        (effectsOf (lifecycle penv w (handleAskGeminiWith penv w fallbacks) args) k) ->
     answers gemini (roleText (agent_role args))
       (persistPrompt w (promptRecordOf w gemini (GEMINI_DEFAULT_MODEL penv) args)) rr) /\
  (forall s,
     In (WriteJobStatus s)
        (effectsOf (lifecycle penv w (handleAskCodex penv w) args) k) ->
     background args = true /\
     exists pr,
       persistPrompt w (promptRecordOf w codex (CODEX_DEFAULT_MODEL penv) args) = Some pr /\
       js_jobId s = pr_id pr /\ js_provider s = codex) /\
  (forall s,
     In (WriteJobStatus s)
        (effectsOf (lifecycle penv w (handleAskGeminiWith penv w fallbacks) args) k) ->
     background args = true /\
     exists pr,
       persistPrompt w (promptRecordOf w gemini (GEMINI_DEFAULT_MODEL penv) args) = Some pr /\
       js_jobId s = pr_id pr /\ js_provider s = gemini).
Proof.
  destruct (codex_request args k) as [Fc _].
  destruct (gemini_request fallbacks args k) as [Fg _].
  rewrite Forall_forall in Fc, Fg.
  split; [|split; [|split]]; intros x H.
  - exact (Fc _ H).
  - exact (Fg _ H).
  - exact (Fc _ H).
  - exact (Fg _ H).
Qed.

(** X14.  A synchronous request leaves nothing behind: no handler returns a
    job, and among its effects there is no detached spawn, no [unref], no
    kill of a process group and no job status. *)
Theorem synchronous_leaves_no_job (fallbacks : list jsstring) (args : AskArgs)
    (k : Counters) :
  background args = false ->
  filter isJobEffect (effectsOf (lifecycle penv w (handleAskCodex penv w) args) k) = [] /\
  filter isJobEffect
    (effectsOf (lifecycle penv w (handleAskGeminiWith penv w fallbacks) args) k) = [] /\
  (forall r j, valueOf (handleAskCodex penv w args) k = Returns r j -> j = None) /\
  (forall r j, valueOf (handleAskGeminiWith penv w fallbacks args) k = Returns r j ->
               j = None).
Proof.
  intros B.
  destruct (codex_request args k) as [Fc [_ Jc]].
  destruct (gemini_request fallbacks args k) as [Fg [_ Jg]].
  split; [exact (request_no_job _ _ _ _ B Fc)|].
  split; [exact (request_no_job _ _ _ _ B Fg)|].
  split; [exact (Jc B) | exact (Jg B)].
Qed.


Lemma usablePid_none (child : Child) :
  child_pid child = None \/ child_pid child = Some 0%Z -> usablePid child = None.
Proof. unfold usablePid. intros [-> | ->]; reflexivity. Qed.

Lemma usablePid_some (child : Child) (pid : Z) :
  child_pid child = Some pid -> pid <> 0%Z -> usablePid child = Some pid.
Proof.
  unfold usablePid. intros -> N. destruct (pid =? 0)%Z eqn:E; [|reflexivity].
  apply Z.eqb_eq in E. contradiction.
Qed.

(** X15.  A child without a pid (or with the pid 0) fails a background
    request at once.  The handler returns [Failed to spawn background job:
    Failed to get process ID], and up to its return nothing follows the
    spawn: no status is written, no timer is set, the clock is not read,
    the prompt is not written to the child, and no job is left, so that no
    listener is registered for the events of the child. *)
Theorem missing_pid_fails_fast (fallbacks : list jsstring) (args : AskArgs) (k : Counters)
    (child : Child) (pr : PromptResult) :
  background args = true ->
  spawnResult w (spawns k) = Spawned child ->
  child_pid child = None \/ child_pid child = Some 0%Z ->
  (accepted w codex CODEX_VALID_ROLES args = true ->
   persistPrompt w (promptRecordOf w codex (CODEX_DEFAULT_MODEL penv) args) = Some pr ->
   handleAskCodex penv w args k
   = (Returns (errorResult (u "Failed to spawn background job: Failed to get process ID"))
        None,
      {| spawns := S (spawns k); clockReads := clockReads k |},
      preludeOf w codex (CODEX_DEFAULT_MODEL penv) args
        ++ [codexBackgroundSpawn (requested (CODEX_DEFAULT_MODEL penv) args)])) /\
  (accepted w gemini GEMINI_VALID_ROLES args = true ->
   persistPrompt w (promptRecordOf w gemini (GEMINI_DEFAULT_MODEL penv) args) = Some pr ->
   handleAskGeminiWith penv w fallbacks args k
   = (Returns (errorResult (u "Failed to spawn background job: Failed to get process ID"))
        None,
      {| spawns := S (spawns k); clockReads := clockReads k |},
      preludeOf w gemini (GEMINI_DEFAULT_MODEL penv) args
        ++ [geminiBackgroundSpawn
              (hd [] (modelsToTry fallbacks (requested (GEMINI_DEFAULT_MODEL penv) args)))])).
Proof.
  intros B S P. apply usablePid_none in P. split; intros A N.
  - pose proof (handleAskCodex_background penv w args k A B) as H.
    rewrite N in H. cbv zeta in H. destruct H as [Hv [Hc He]].
    pose proof (executeCodexBackground_run (fullPromptOf w args)
                  (requested (CODEX_DEFAULT_MODEL penv) args)
                  (metaOf w codex args (requested (CODEX_DEFAULT_MODEL penv) args) pr) k)
      as RB.
    rewrite S, P in RB. supervisor_parts RB k. cbn [fst snd] in Rv, Rc, Re.
    rewrite Rv in Hv. cbn [fst snd] in Hv. rewrite Re in He. rewrite Rc in Hc.
    rewrite run_eq, Hv, Hc, He. reflexivity.
  - pose proof (handleAskGemini_background penv w fallbacks args k A B) as H.
    rewrite N in H. cbv zeta in H. destruct H as [Hv [Hc He]].
    pose proof (executeGeminiBackground_run (fullPromptOf w args)
                  (hd [] (modelsToTry fallbacks (requested (GEMINI_DEFAULT_MODEL penv) args)))
                  (metaOf w gemini args
                     (hd [] (modelsToTry fallbacks
                               (requested (GEMINI_DEFAULT_MODEL penv) args))) pr) k)
      as RB.
    rewrite S, P in RB. supervisor_parts RB k. cbn [fst snd] in Rv, Rc, Re.
    rewrite Rv in Hv. cbn [fst snd] in Hv. rewrite Re in He. rewrite Rc in Hc.
    rewrite run_eq, Hv, Hc, He. reflexivity.
Qed.

(** X16.  A background request whose child has a pid is answered before any
    event of the child: the handler returns a result that is no error and
    leaves the job; its effects are the prelude, the detached spawn, the
    [unref], the [spawned] record, the timer, the prompt on the standard
    input, and the [running] record, whatever the child does later. *)
Theorem background_dispatch (fallbacks : list jsstring) (args : AskArgs) (k : Counters)
    (child : Child) (pid : Z) (pr : PromptResult) :
  background args = true ->
  spawnResult w (spawns k) = Spawned child ->
  child_pid child = Some pid ->
  pid <> 0%Z ->
  (accepted w codex CODEX_VALID_ROLES args = true ->
   persistPrompt w (promptRecordOf w codex (CODEX_DEFAULT_MODEL penv) args) = Some pr ->
   let m := requested (CODEX_DEFAULT_MODEL penv) args in
   let jobMeta := metaOf w codex args m pr in
   let t := clock w (clockReads k) in
   (exists r,
      isError r = false /\
      valueOf (handleAskCodex penv w args) k
      = Returns r (Some (dispatched codex m jobMeta pid t (child_events child)))) /\
   effectsOf (handleAskCodex penv w args) k
   = preludeOf w codex (CODEX_DEFAULT_MODEL penv) args
       ++ [codexBackgroundSpawn m; Unref;
           WriteJobStatus (initialStatusOf codex m jobMeta pid t);
           SetTimeout (CODEX_TIMEOUT penv); StdinWrite (fullPromptOf w args); StdinEnd;
           WriteJobStatus (withStatus (initialStatusOf codex m jobMeta pid t)
                             running None None)]) /\
  (accepted w gemini GEMINI_VALID_ROLES args = true ->
   persistPrompt w (promptRecordOf w gemini (GEMINI_DEFAULT_MODEL penv) args) = Some pr ->
   let m := hd [] (modelsToTry fallbacks (requested (GEMINI_DEFAULT_MODEL penv) args)) in
   let jobMeta := metaOf w gemini args m pr in
   let t := clock w (clockReads k) in
   (exists r,
      isError r = false /\
      valueOf (handleAskGeminiWith penv w fallbacks args) k
      = Returns r (Some (dispatched gemini m jobMeta pid t (child_events child)))) /\
   effectsOf (handleAskGeminiWith penv w fallbacks args) k
   = preludeOf w gemini (GEMINI_DEFAULT_MODEL penv) args
       ++ [geminiBackgroundSpawn m; Unref;
           WriteJobStatus (initialStatusOf gemini m jobMeta pid t);
           SetTimeout (GEMINI_TIMEOUT penv); StdinWrite (fullPromptOf w args); StdinEnd;
           WriteJobStatus (withStatus (initialStatusOf gemini m jobMeta pid t)
                             running None None)]).
Proof.
  intros B S P Nz. pose proof (usablePid_some child pid P Nz) as U.
  split; intros A N; cbv zeta.
  - pose proof (handleAskCodex_background penv w args k A B) as H.
    rewrite N in H. cbv zeta in H. destruct H as [Hv [_ He]].
    pose proof (executeCodexBackground_run (fullPromptOf w args)
                  (requested (CODEX_DEFAULT_MODEL penv) args)
                  (metaOf w codex args (requested (CODEX_DEFAULT_MODEL penv) args) pr) k)
      as RB.
    rewrite S, U in RB. cbv zeta in RB. supervisor_parts RB k. cbn [fst snd] in Rv, Re.
    rewrite Rv in Hv. cbn [fst snd] in Hv. rewrite Re in He.
    split; [exact Hv | exact He].
  - pose proof (handleAskGemini_background penv w fallbacks args k A B) as H.
    rewrite N in H. cbv zeta in H. destruct H as [Hv [_ He]].
    pose proof (executeGeminiBackground_run (fullPromptOf w args)
                  (hd [] (modelsToTry fallbacks (requested (GEMINI_DEFAULT_MODEL penv) args)))
                  (metaOf w gemini args
                     (hd [] (modelsToTry fallbacks
                               (requested (GEMINI_DEFAULT_MODEL penv) args))) pr) k)
      as RB.
    rewrite S, U in RB. cbv zeta in RB. supervisor_parts RB k. cbn [fst snd] in Rv, Re.
    rewrite Rv in Hv. cbn [fst snd] in Hv. rewrite Re in He.
    split; [exact Hv | exact He].
Qed.

(** X17.  A background request to Codex that got as far as persisting its
    prompt spawns exactly one process over its whole life, detached, for
    the requested model; whatever becomes of the job, nothing is spawned
    again. *)
Theorem codex_background_single_attempt (args : AskArgs) (k : Counters)
    (pr : PromptResult) :
  background args = true ->
  accepted w codex CODEX_VALID_ROLES args = true ->
  persistPrompt w (promptRecordOf w codex (CODEX_DEFAULT_MODEL penv) args) = Some pr ->
  filter isSpawn (effectsOf (lifecycle penv w (handleAskCodex penv w) args) k)
  = [codexBackgroundSpawn (requested (CODEX_DEFAULT_MODEL penv) args)].
Proof.
  intros B A N.
  pose proof (handleAskCodex_background penv w args k A B) as H.
  rewrite N in H. cbv zeta in H. destruct H as [_ [_ He]].
  rewrite lifecycle_effects, He, !filter_app.
  rewrite (preludeOf_filter isSpawn) by not_prelude.
  assert (J : filter isSpawn
                match valueOf (handleAskCodex penv w args) k with
                | Returns _ (Some j) =>
                    effectsOf (runJob penv w j) (countersOf (handleAskCodex penv w args) k)
                | _ => []
                end = []).
  { destruct (valueOf (handleAskCodex penv w args) k) as [r [j|]|]; try reflexivity.
    apply runJob_quiet. }
  rewrite J, app_nil_r. cbn [app].
  pose proof (executeCodexBackground_run (fullPromptOf w args)
                (requested (CODEX_DEFAULT_MODEL penv) args)
                (metaOf w codex args (requested (CODEX_DEFAULT_MODEL penv) args) pr) k)
    as RB.
  supervisor_parts RB k. rewrite Re.
  destruct (spawnResult w (spawns k)) as [err | child];
    [|destruct (usablePid child) as [pid|]]; reflexivity.
Qed.

End HandlerProperties.

(** ** The standalone servers *)

Section ServerProperties.
Context {num : NumberSemantics}.
Variable penv : ProcessEnv.
Variable w : World.

(** X18.  The standalone servers answer a request for any other tool, and a
    request for their own tool that has no arguments, with an error and
    without any effect: the first names the tool, the second is the
    invalid-role error of the handler for the role [undefined]. *)
Theorem server_rejections (params : CallToolParams) (k : Counters) :
  (tool_name params <> u "ask_codex" ->
   callCodexTool penv w params k
   = (Returns (errorResult (u "Unknown tool: " ++ tool_name params)) None, k, [])) /\
  (tool_name params <> u "ask_gemini" ->
   callGeminiTool penv w params k
   = (Returns (errorResult (u "Unknown tool: " ++ tool_name params)) None, k, [])) /\
  (tool_name params = u "ask_codex" -> tool_arguments params = None ->
   callCodexTool penv w params k
   = (Returns
        (errorResult
           (uq "Invalid agent_role: 'undefined'. Codex requires one of: architect, planner, critic, analyst, code-reviewer, security-reviewer, tdd-guide"))
        None, k, [])) /\
  (tool_name params = u "ask_gemini" -> tool_arguments params = None ->
   callGeminiTool penv w params k
   = (Returns
        (errorResult
           (uq "Invalid agent_role: 'undefined'. Gemini requires one of: designer, writer, vision"))
        None, k, [])).
Proof.
  unfold callCodexTool, callGeminiTool.
  split; [|split; [|split]].
  - intros N. apply str_eqb_neq in N. rewrite N. reflexivity.
  - intros N. apply str_eqb_neq in N. rewrite N. reflexivity.
  - intros -> ->. rewrite str_eqb_refl. reflexivity.
  - intros -> ->. rewrite str_eqb_refl. reflexivity.
Qed.

End ServerProperties.

(** ** Context files *)

Section ContextFiles.
Variable w : World.


End ContextFiles.

(** ** What the decoder and the executors never return *)

Section EmptyResponses.
Context {num : NumberSemantics}.
Variable penv : ProcessEnv.
Variable w : World.

Lemma parseCodexOutput_empty (s : jsstring) :
  parseCodexOutput s = Return [] -> s = [].
Proof.
  unfold parseCodexOutput.
  destruct (arrayJoin [LF] (collectMessages s)) as [joined | e]; [|discriminate].
  destruct joined as [|c r]; cbn [truthy_str]; intros H; injection H as H; [exact H|].
  discriminate H.
Qed.

(** X20.  The decoder never turns an output that is not empty into the
    empty string: what it returns is the join of the segments when that is
    not empty, and the output itself otherwise. *)
Theorem decoder_output_never_empty (s r : jsstring) :
  s <> [] -> parseCodexOutput s = Return r -> r <> [].
Proof.
  intros N H ->. apply N. apply parseCodexOutput_empty. exact H.
Qed.

(** X21.  An executor fulfils its promise with the empty string in one case
    only: the first settling event is a close with exit code 0, and the
    child had written nothing to its output ([executeCodex]) or nothing but
    white space ([executeGemini]). *)
Theorem empty_response_needs_clean_exit (fullPrompt m : jsstring) (k : Counters)
    (child : Child) :
  spawnResult w (spawns k) = Spawned child ->
  (valueOf (executeCodex penv w fullPrompt m) k = Fulfilled [] ->
   exists code,
     firstSettling (child_events child) = Some (OnClose code) /\
     isZeroCode code = true /\
     stdoutOf (beforeSettling (child_events child)) = []) /\
  (valueOf (executeGemini penv w fullPrompt m) k = Fulfilled [] ->
   exists code,
     firstSettling (child_events child) = Some (OnClose code) /\
     isZeroCode code = true /\
     trim (stdoutOf (beforeSettling (child_events child))) = []).
Proof.
  intros S. split.
  - rewrite (proj1 (executeCodex_run penv w fullPrompt m k)), S. cbn [codexOutcome].
    destruct (firstSettling (child_events child)) as [e|] eqn:F.
    + destruct (firstSettling_split _ _ F) as [post [E [D Se]]].
      rewrite E at 1.
      rewrite (proj2 (executeCodex_first penv _ e post start D Se)).
      destruct e; try discriminate Se; callback;
        cbn [atClose settled stdout stderr settle promise negb valueOf fst];
        try discriminate.
      destruct (isZeroCode code) eqn:Z; cbn [orb].
      * destruct (parseCodexOutput (stdoutOf (beforeSettling (child_events child))))
          as [r | e0] eqn:P; [|discriminate].
        intros H. injection H as ->. exists code.
        split; [reflexivity | split; [exact Z|]].
        apply parseCodexOutput_empty. exact P.
      * destruct (truthy_str (trim (stdoutOf (beforeSettling (child_events child)))))
          eqn:T; [|discriminate].
        destruct (parseCodexOutput (stdoutOf (beforeSettling (child_events child))))
          as [r | e0] eqn:P; [|discriminate].
        intros H. injection H as ->. apply parseCodexOutput_empty in P.
        rewrite P in T. discriminate T.
    + apply firstSettling_none in F. unfold valueOf.
      rewrite (executeCodex_data_run penv (child_events child) newClosure start F).
      discriminate.
  - rewrite (proj1 (executeGemini_run penv w fullPrompt m k)), S. cbn [geminiOutcome].
    destruct (firstSettling (child_events child)) as [e|] eqn:F.
    + destruct (firstSettling_split _ _ F) as [post [E [D Se]]].
      rewrite E at 1.
      rewrite (proj2 (executeGemini_first penv _ e post start D Se)).
      destruct e; try discriminate Se; callback;
        cbn [atClose settled stdout stderr settle promise negb valueOf fst];
        try discriminate.
      destruct (isZeroCode code) eqn:Z; cbn [orb].
      * intros H. injection H as H. exists code.
        split; [reflexivity | split; [exact Z | exact H]].
      * destruct (truthy_str (trim (stdoutOf (beforeSettling (child_events child)))))
          eqn:T; [|discriminate].
        intros H. injection H as H. rewrite H in T. discriminate T.
    + apply firstSettling_none in F. unfold valueOf.
      rewrite (executeGemini_data_run penv (child_events child) newClosure start F).
      discriminate.
Qed.

End EmptyResponses.

(** ** The timeout of a numeric setting *)

(** X22.  A timeout variable that parses as a number [n] gives that number
    when it lies in the range, the nearer bound when it does not, and the
    default of one hour, not the lower bound, when it is 0: zero is falsy
    for the [||] that supplies the default. *)
Theorem timeout_of_number (s : jsstring) (n : Z) :
  parseInt10 s = Some n ->
  ((5000 <= n <= 3600000)%Z -> timeoutOf (Some s) = n) /\
  (n = 0%Z -> timeoutOf (Some s) = 3600000%Z) /\
  ((n < 5000)%Z -> n <> 0%Z -> timeoutOf (Some s) = 5000%Z) /\
  ((3600000 < n)%Z -> timeoutOf (Some s) = 3600000%Z).
Proof.
  intros P. unfold timeoutOf.
  assert (O : orDefault (Some s) (u "3600000") = s).
  { destruct s as [|c r]; [discriminate P | reflexivity]. }
  rewrite O, P.
  repeat split.
  - intros R. destruct (n =? 0)%Z eqn:E; [apply Z.eqb_eq in E; lia | lia].
  - intros ->. reflexivity.
  - intros L N. destruct (n =? 0)%Z eqn:E; [apply Z.eqb_eq in E; contradiction | lia].
  - intros L. destruct (n =? 0)%Z eqn:E; [apply Z.eqb_eq in E; lia | lia].
Qed.

(** ** The further properties on concrete requests *)

Lemma too_many_files_refused_witness :
  files crowdedRequest = Some (repeat (u "a.txt") 21) /\
  (20 < List.length (repeat (u "a.txt") 21))%nat /\
  @handleAskCodex literalNumbers sampleEnv answeringWorld crowdedRequest start
  = (Returns (errorResult (u "Too many context files (max 20, got 21)")) None,
     start, [DetectCli codex; ResolveSystemPrompt (u "architect")]).
Proof.
  split; [reflexivity|].
  assert (L : (20 < List.length (repeat (u "a.txt") 21))%nat) by (cbn; lia).
  split; [exact L|].
  apply (proj1 (@too_many_files_refused literalNumbers sampleEnv answeringWorld
                  GEMINI_MODEL_FALLBACKS crowdedRequest (repeat (u "a.txt") 21) start
                  eq_refl L) eq_refl eq_refl).
Defined.

Lemma cli_unavailable_refused_witness :
  validRole CODEX_VALID_ROLES (agent_role (codexRequest false)) = true /\
  available (detectCli offlineWorld codex) = false /\
  @handleAskCodex literalNumbers sampleEnv offlineWorld (codexRequest false) start
  = (Returns (errorResult (u "Codex CLI is not available: not found" ++ [LF; LF]
                             ++ u "npm i -g cli")) None,
     start, [DetectCli codex]).
Proof.
  split; [reflexivity | split; [reflexivity|]].
  apply (proj1 (@cli_unavailable_refused literalNumbers sampleEnv offlineWorld
                  GEMINI_MODEL_FALLBACKS (codexRequest false) start) eq_refl eq_refl).
Defined.

Lemma background_needs_prompt_record_witness :
  background (codexRequest true) = true /\
  accepted unpersistedWorld codex CODEX_VALID_ROLES (codexRequest true) = true /\
  persistPrompt unpersistedWorld
    (promptRecordOf unpersistedWorld codex (CODEX_DEFAULT_MODEL sampleEnv)
       (codexRequest true)) = None /\
  valueOf (@lifecycle literalNumbers sampleEnv unpersistedWorld
             (@handleAskCodex literalNumbers sampleEnv unpersistedWorld) (codexRequest true)) start
  = Returns (errorResult (u "Failed to persist prompt for background execution")) None.
Proof.
  split; [reflexivity | split; [reflexivity | split; [reflexivity|]]].
  apply (proj1 (@background_needs_prompt_record literalNumbers sampleEnv unpersistedWorld
                  GEMINI_MODEL_FALLBACKS (codexRequest true) start eq_refl)
           eq_refl eq_refl).
Defined.

Lemma codex_single_attempt_witness :
  accepted answeringWorld codex CODEX_VALID_ROLES (codexRequest false) = true /\
  background (codexRequest false) = false /\
  filter isSpawn
    (effectsOf (@handleAskCodex literalNumbers sampleEnv answeringWorld (codexRequest false))
       start)
  = [codexSpawn (u "gpt-5.2")].
Proof.
  split; [reflexivity | split; [reflexivity|]].
  apply (proj1 (proj2 (@codex_single_attempt literalNumbers sampleEnv answeringWorld
                         (codexRequest false) start eq_refl eq_refl))).
Defined.

Lemma first_success_wins_witness :
  accepted recoveringWorld gemini GEMINI_VALID_ROLES (sampleRequest false) = true /\
  background (sampleRequest false) = false /\
  modelsToTry GEMINI_MODEL_FALLBACKS
    (requested (GEMINI_DEFAULT_MODEL sampleEnv) (sampleRequest false))
  = [u "gemini-2.5-pro"] ++ u "gemini-2.5-flash" :: [] /\
  allRejected sampleEnv recoveringWorld (spawns start) [u "gemini-2.5-pro"] = true /\
  geminiOutcome sampleEnv
    (spawnResult recoveringWorld (spawns start + List.length [u "gemini-2.5-pro"]))
  = Fulfilled (u "answer") /\
  filter isSpawn
    (effectsOf (handleAskGeminiWith sampleEnv recoveringWorld GEMINI_MODEL_FALLBACKS
                  (sampleRequest false)) start)
  = map geminiSpawn ([u "gemini-2.5-pro"] ++ [u "gemini-2.5-flash"]).
Proof.
  split; [reflexivity | split; [reflexivity | split; [reflexivity |
    split; [reflexivity | split; [reflexivity|]]]]].
  apply (proj1 (proj2 (first_success_wins sampleEnv recoveringWorld
                         GEMINI_MODEL_FALLBACKS (sampleRequest false)
                         [u "gemini-2.5-pro"] (u "gemini-2.5-flash") [] (u "answer") start
                         eq_refl eq_refl eq_refl eq_refl eq_refl))).
Defined.

Lemma synchronous_leaves_no_job_witness :
  background (codexRequest false) = false /\
  filter isJobEffect
    (effectsOf (@lifecycle literalNumbers sampleEnv answeringWorld
                  (@handleAskCodex literalNumbers sampleEnv answeringWorld) (codexRequest false)) start)
  = [].
Proof.
  split; [reflexivity|].
  apply (proj1 (@synchronous_leaves_no_job literalNumbers sampleEnv answeringWorld
                  GEMINI_MODEL_FALLBACKS (codexRequest false) start eq_refl)).
Defined.

Lemma missing_pid_fails_fast_witness :
  background (codexRequest true) = true /\
  spawnResult pidlessWorld (spawns start)
  = Spawned {| child_pid := None;
               child_events := [OnError (u "spawn codex ENOENT")] |} /\
  accepted pidlessWorld codex CODEX_VALID_ROLES (codexRequest true) = true /\
  valueOf (@handleAskCodex literalNumbers sampleEnv pidlessWorld (codexRequest true)) start
  = Returns (errorResult (u "Failed to spawn background job: Failed to get process ID"))
      None.
Proof.
  split; [reflexivity | split; [reflexivity | split; [reflexivity|]]].
  unfold valueOf.
  rewrite (proj1 (@missing_pid_fails_fast literalNumbers sampleEnv pidlessWorld
                    GEMINI_MODEL_FALLBACKS (codexRequest true) start
                    {| child_pid := None;
                       child_events := [OnError (u "spawn codex ENOENT")] |}
                    sampleRecord eq_refl eq_refl (or_introl eq_refl))
             eq_refl eq_refl).
  reflexivity.
Defined.

Lemma background_dispatch_witness :
  background (codexRequest true) = true /\
  child_pid {| child_pid := Some 4242%Z;
               child_events := [OnStdout (uq "{'type':'message','content':'done'}");
                                OnClose (Some 0%Z)] |} = Some 4242%Z /\
  4242%Z <> 0%Z /\
  map js_status
    (statusWrites (u "id1")
       (effectsOf (@handleAskCodex literalNumbers sampleEnv answeringWorld
                     (codexRequest true)) start))
  = [spawned; running].
Proof.
  split; [reflexivity | split; [reflexivity|]].
  assert (N : 4242%Z <> 0%Z) by discriminate.
  split; [exact N|].
  rewrite (proj2 (proj1 (@background_dispatch literalNumbers sampleEnv answeringWorld
                           GEMINI_MODEL_FALLBACKS (codexRequest true) start
                           {| child_pid := Some 4242%Z;
                              child_events :=
                                [OnStdout (uq "{'type':'message','content':'done'}");
                                 OnClose (Some 0%Z)] |}
                           4242%Z sampleRecord eq_refl eq_refl eq_refl N)
                    eq_refl eq_refl)).
  reflexivity.
Defined.

Lemma codex_background_single_attempt_witness :
  background (codexRequest true) = true /\
  accepted answeringWorld codex CODEX_VALID_ROLES (codexRequest true) = true /\
  filter isSpawn
    (effectsOf (@lifecycle literalNumbers sampleEnv answeringWorld
                  (@handleAskCodex literalNumbers sampleEnv answeringWorld) (codexRequest true)) start)
  = [codexBackgroundSpawn (u "gpt-5.2")].
Proof.
  split; [reflexivity | split; [reflexivity|]].
  apply (@codex_background_single_attempt literalNumbers sampleEnv answeringWorld
           (codexRequest true) start sampleRecord eq_refl eq_refl eq_refl).
Defined.

Lemma server_rejections_witness :
  u "ask_gemini" <> u "ask_codex" /\
  @callCodexTool literalNumbers sampleEnv answeringWorld
     {| tool_name := u "ask_gemini"; tool_arguments := Some (codexRequest false) |} start
  = (Returns (errorResult (u "Unknown tool: ask_gemini")) None, start, []).
Proof.
  assert (N : u "ask_gemini" <> u "ask_codex") by discriminate.
  split; [exact N|].
  apply (proj1 (@server_rejections literalNumbers sampleEnv answeringWorld
                  {| tool_name := u "ask_gemini";
                     tool_arguments := Some (codexRequest false) |} start) N).
Defined.


Lemma decoder_output_never_empty_witness :
  twoRecords <> [] /\
  @parseCodexOutput literalNumbers twoRecords = Return (u "a" ++ [LF] ++ u "b") /\
  u "a" ++ [LF] ++ u "b" <> [].
Proof.
  assert (N : twoRecords <> []) by discriminate.
  split; [exact N|]. split; [reflexivity|].
  apply (@decoder_output_never_empty literalNumbers twoRecords (u "a" ++ [LF] ++ u "b") N
           eq_refl).
Defined.

Lemma empty_response_needs_clean_exit_witness :
  spawnResult (sampleWorld (fun _ => childWith [OnStderr (u "warn"); OnClose (Some 0%Z)]))
    (spawns start)
  = Spawned {| child_pid := Some 4242%Z;
               child_events := [OnStderr (u "warn"); OnClose (Some 0%Z)] |} /\
  valueOf (@executeCodex literalNumbers sampleEnv
             (sampleWorld (fun _ => childWith [OnStderr (u "warn"); OnClose (Some 0%Z)]))
             (u "hi") (u "m")) start = Fulfilled [] /\
  exists code,
    firstSettling [OnStderr (u "warn"); OnClose (Some 0%Z)] = Some (OnClose code) /\
    isZeroCode code = true /\
    stdoutOf (beforeSettling [OnStderr (u "warn"); OnClose (Some 0%Z)]) = [].
Proof.
  split; [reflexivity | split; [reflexivity|]].
  apply (proj1 (@empty_response_needs_clean_exit literalNumbers sampleEnv
                  (sampleWorld (fun _ => childWith [OnStderr (u "warn");
                                                    OnClose (Some 0%Z)]))
                  (u "hi") (u "m") start
                  {| child_pid := Some 4242%Z;
                     child_events := [OnStderr (u "warn"); OnClose (Some 0%Z)] |}
                  eq_refl) eq_refl).
Defined.

Lemma timeout_of_number_witness :
  parseInt10 (u "6000ms") = Some 6000%Z /\
  (5000 <= 6000 <= 3600000)%Z /\
  timeoutOf (Some (u "6000ms")) = 6000%Z.
Proof.
  split; [reflexivity|].
  assert (R : (5000 <= 6000 <= 3600000)%Z) by lia.
  split; [exact R|].
  apply (proj1 (timeout_of_number (u "6000ms") 6000%Z eq_refl) R).
Defined.

(** ** Every request is answered *)

Section AlwaysAnswered.
Variable penv : ProcessEnv.
Variable w : World.




End AlwaysAnswered.

